(** * KenKen constraint adapter (kenken.py): shallow embedding and properties

    The Python class [Kenken] is embedded as a record together with its
    methods.  Python integers are [Z]; lists are [list]; dictionaries are
    stdpp [gmap]s; a raised exception is the [Raise] branch of [outcome].
    The global [kenken_csp] object consulted by the constraint predicate
    belongs to the external [csp] module: the two methods that are called on
    it are taken as a record of their results. *)

From Stdlib Require Import ZArith Lia.
From stdpp Require Import gmap strings list fin_maps.

Local Open Scope Z_scope.

(** ** Exceptions *)

(** The [assert] statements of the source, by line. *)
Inductive assert_site :=
  | arity_two          (* line 72: subtract or divide cage has 2 locations *)
  | arity_one          (* line 75: identity cage has 1 location *)
  | distinct_variables (* line 117: assert A != B *)
  | fixed_pair         (* line 142: '=' reached for a pair *)
  | unknown_pair_opr   (* line 145: unknown operator, same-cage dispatch *)
  | unknown_opr.       (* line 212: unknown operator, per-variable check *)

Inductive exn :=
  | AssertionError (site : assert_site)
  | KeyError
  | IndexError
  | ZeroDivisionError.

Inductive outcome (A : Type) :=
  | Ok (a : A)
  | Raise (e : exn).
Arguments Ok {A} a.
Arguments Raise {A} e.

#[global] Instance outcome_ret : MRet outcome := fun _ a => Ok a.
#[global] Instance outcome_bind : MBind outcome := fun _ _ f m =>
  match m with Ok a => f a | Raise e => Raise e end.

Definition is_ok {A} (m : outcome A) : bool :=
  match m with Ok _ => true | Raise _ => false end.

(** [for x in l: s = body(x, s)] with an exception leaving the loop. *)
Fixpoint for_each {A S : Type} (body : A → S → outcome S) (l : list A) (s : S)
  : outcome S :=
  match l with
  | [] => Ok s
  | x :: l' => s' ← body x s; for_each body l' s'
  end.

(** ** Python built-ins used by the source *)

(** [range(n)] and [range(a, b)]. *)
Definition range (n : Z) : list Z := Z.of_nat <$> seq 0 (Z.to_nat n).
Definition range_from (a b : Z) : list Z :=
  (λ k, a + Z.of_nat k) <$> seq 0 (Z.to_nat (b - a)).

(** [l[i]]: a negative index counts from the end, anything outside raises. *)
Definition py_index {A} (l : list A) (i : Z) : outcome A :=
  let n := Z.of_nat (length l) in
  let i' := if i <? 0 then i + n else i in
  if (0 <=? i') && (i' <? n) then
    match l !! Z.to_nat i' with
    | Some x => Ok x
    | None => Raise IndexError
    end
  else Raise IndexError.

(** [l[i] = x]. *)
Definition py_setitem {A} (l : list A) (i : Z) (x : A) : outcome (list A) :=
  let n := Z.of_nat (length l) in
  let i' := if i <? 0 then i + n else i in
  if (0 <=? i') && (i' <? n) then Ok (<[Z.to_nat i' := x]> l)
  else Raise IndexError.

(** [d[k]] on a dictionary. *)
Definition py_getitem `{Countable K} {V} (d : gmap K V) (k : K) : outcome V :=
  match d !! k with
  | Some v => Ok v
  | None => Raise KeyError
  end.

(** [x in l] on a list of integers. *)
Definition py_in (x : Z) (l : list Z) : bool := existsb (Z.eqb x) l.

(** The two functions of [operator] that the source passes around. *)
Inductive operator := add | mul.

Definition apply (fn : operator) (x y : Z) : Z :=
  match fn with
  | add => x + y
  | mul => x * y
  end.

Definition is_mul (fn : operator) : bool :=
  match fn with mul => true | add => false end.

(** ** class Cage *)

Module Cage.

Record t := mk { goal : Z; opr : string; id : string; vars : list Z }.

(** [Cage(name)] *)
Definition new (name : string) : t :=
  {| goal := -1; opr := ""; id := name; vars := [] |}.

(** [__eq__]: cages are compared by identifier. *)
Definition eq (c d : t) : bool := String.eqb (id c) (id d).

Definition set_opr (o : string) (c : t) : t :=
  {| goal := goal c; opr := o; id := id c; vars := vars c |}.
Definition set_goal (g : Z) (c : t) : t :=
  {| goal := g; opr := opr c; id := id c; vars := vars c |}.
Definition append_var (v : Z) (c : t) : t :=
  {| goal := goal c; opr := opr c; id := id c; vars := vars c ++ [v] |}.

End Cage.

(** ** The view of the global [kenken_csp] object *)

Record CSP := {
  infer_assignment : gmap Z Z;   (* kenken_csp.infer_assignment() *)
  choices : Z → list Z           (* kenken_csp.choices(Y) *)
}.

(** ** class Kenken *)

Module Kenken.

(** A cell of [cage_board] holds the integer 0 until a cage identifier is
    written into it. *)
Inductive cell := Zero | Id (cage_id : string).

Record t := mk {
  N : Z;
  variables : list Z;
  domains : gmap Z (list Z);
  neighbors : gmap Z (list Z);
  cage_board : list (list cell);
  cage_dict : gmap string Cage.t
}.

(** The index conversions read [self.N] only; they take its value. *)
Definition variable_to_xy (n var : Z) : outcome (Z * Z) :=
  if n =? 0 then Raise ZeroDivisionError
  else
    let i := var / n in
    let j := var mod n in
    Ok (i, j).

Definition xy_to_variable (n i j : Z) : Z := i * n + j.

Definition get_cage (self : t) (X : Z) : outcome Cage.t :=
  '(i, j) ← variable_to_xy (N self) X;
  row ← py_index (cage_board self) i;
  c ← py_index row j;
  match c with
  | Zero => Raise KeyError
  | Id cage_id => py_getitem (cage_dict self) cage_id
  end.

(** The loop of [check_add_or_mul_cage]: one step per cage member. *)
Definition accumulate (inferences : gmap Z Z) (fn : operator)
    (acc : Z * Z) (V : Z) : Z * Z :=
  let '(total, allocated) := acc in
  match inferences !! V with
  | Some val => (apply fn total val, allocated + 1)
  | None => (total, allocated)
  end.

Definition check_add_or_mul_cage (self : t) (inferences : gmap Z Z)
    (fn : operator) (A a : Z) (B b : option Z) : outcome bool :=
  let allocated := 0 in
  cage ← get_cage self A;
  let total := if is_mul fn then 1 else 0 in
  let '(total, allocated) :=
    foldl (accumulate inferences fn) (total, allocated) (Cage.vars cage) in
  let len := Z.of_nat (length (Cage.vars cage)) in
  if (total <? Cage.goal cage) && (allocated <? len) then Ok true
  else if (total =? Cage.goal cage) && (allocated =? len) then Ok true
  else Ok false.

(** The loop of [check_sub_or_div_cage] over the partner's choices. *)
Fixpoint some_choice_fits (fn : operator) (x goal : Z) (ys : list Z) : bool :=
  match ys with
  | [] => false
  | y :: ys' =>
      if Z.max x y =? apply fn (Z.min x y) goal then true
      else some_choice_fits fn x goal ys'
  end.

Definition check_sub_or_div_cage (self : t) (kenken_csp : CSP)
    (inferences : gmap Z Z) (fn : operator) (X x : Z) : outcome bool :=
  cage ← get_cage self X;
  A ← py_index (Cage.vars cage) 0;
  B ← py_index (Cage.vars cage) 1;
  let Y := if negb (X =? B) then B else A in
  match inferences !! Y with
  | Some y => Ok (Z.max x y =? apply fn (Z.min x y) (Cage.goal cage))
  | None => Ok (some_choice_fits fn x (Cage.goal cage) (choices kenken_csp Y))
  end.

Definition check_cage_constraint (self : t) (kenken_csp : CSP)
    (inferences : gmap Z Z) (X x : Z) : outcome bool :=
  cage ← get_cage self X;
  if String.eqb (Cage.opr cage) "+" then
    check_add_or_mul_cage self inferences add X x None None
  else if String.eqb (Cage.opr cage) "-" then
    check_sub_or_div_cage self kenken_csp inferences add X x
  else if String.eqb (Cage.opr cage) "*" then
    check_add_or_mul_cage self inferences mul X x None None
  else if String.eqb (Cage.opr cage) "/" then
    check_sub_or_div_cage self kenken_csp inferences mul X x
  else if String.eqb (Cage.opr cage) "=" then
    Ok (x =? Cage.goal cage)
  else Raise (AssertionError unknown_opr).

Definition constraints (self : t) (kenken_csp : CSP) (A a B b : Z)
  : outcome bool :=
  if A =? B then Raise (AssertionError distinct_variables)
  else
    nA ← py_getitem (neighbors self) A;
    if py_in B nA && (a =? b) then Ok false
    else
      nB ← py_getitem (neighbors self) B;
      if py_in A nB && (a =? b) then Ok false
      else
        cage_A ← get_cage self A;
        cage_B ← get_cage self B;
        let inferences := infer_assignment kenken_csp in
        if Cage.eq cage_A cage_B then
          if String.eqb (Cage.opr cage_A) "+" then
            check_add_or_mul_cage self inferences add A a (Some B) (Some b)
          else if String.eqb (Cage.opr cage_A) "-" then
            Ok (Z.abs (a - b) =? Cage.goal cage_A)
          else if String.eqb (Cage.opr cage_A) "*" then
            check_add_or_mul_cage self inferences mul A a (Some B) (Some b)
          else if String.eqb (Cage.opr cage_A) "/" then
            Ok (Z.max a b =? Z.min a b * Cage.goal cage_A)
          else if String.eqb (Cage.opr cage_A) "=" then
            Raise (AssertionError fixed_pair)
          else Raise (AssertionError unknown_pair_opr)
        else
          check_cage_constraint self kenken_csp inferences A a ≫= λ ra : bool,
          if ra then check_cage_constraint self kenken_csp inferences B b
          else Ok false.

(** *** Construction

    [__init__] reads a text file.  The embedding starts after the text has
    been cut into tokens: [size] is the integer of the first line,
    [board_lines] are the following lines as the first loop reads them
    (stripped; the empty string once the file has ended), and [goal_lines]
    are the lines after those, each as the triple (cage_id, opr, goal) that
    [split], [re.sub] and [int] make of it. *)

Record puzzle := {
  size : Z;
  board_lines : list string;
  goal_lines : list (string * string * Z)
}.

(** The two structures that the loops over the file mutate. *)
Definition boards : Type := list (list cell) * gmap string Cage.t.

(** Lines 51-56, the body of the loop over one board line. *)
Definition place (n i j : Z) (cage_id : string) (st : boards)
  : outcome boards :=
  let '(cage_board, cage_dict) := st in
  row ← py_index cage_board i;
  row ← py_setitem row j (Id cage_id);
  cage_board ← py_setitem cage_board i row;
  let cage_dict :=
    match cage_dict !! cage_id with
    | None => <[cage_id := Cage.new cage_id]> cage_dict
    | Some _ => cage_dict
    end in
  cage ← py_getitem cage_dict cage_id;
  Ok (cage_board,
      <[cage_id := Cage.append_var (xy_to_variable n i j) cage]> cage_dict).

(** Lines 49-56, the body of the loop over the rows. *)
Definition read_board_line (n : Z) (lines : list string) (i : Z) (st : boards)
  : outcome boards :=
  let line := default "" (lines !! Z.to_nat i) in
  for_each
    (λ j st,
       ch ← py_index (String.list_ascii_of_string line) j;
       place n i j (String ch "") st)
    (range (Z.of_nat (String.length line))) st.

(** Lines 60-75, the body of the loop over the goal lines. *)
Definition read_goal_line (lines : list (string * string * Z)) (i : Z)
    (cage_dict : gmap string Cage.t) : outcome (gmap string Cage.t) :=
  match lines !! Z.to_nat i with
  | None => Raise IndexError
  | Some (cage_id, opr, goal) =>
      cage ← py_getitem cage_dict cage_id;
      let cage := Cage.set_goal goal (Cage.set_opr opr cage) in
      let cage_dict := <[cage_id := cage]> cage_dict in
      if String.eqb opr "-" || String.eqb opr "/" then
        if Z.of_nat (length (Cage.vars cage)) =? 2 then Ok cage_dict
        else Raise (AssertionError arity_two)
      else if String.eqb opr "=" then
        if Z.of_nat (length (Cage.vars cage)) =? 1 then Ok cage_dict
        else Raise (AssertionError arity_one)
      else Ok cage_dict
  end.

(** Lines 86-93, one round of the loop that collects the neighbours. *)
Definition add_row_col (n row col : Z) (acc : list Z) (t : Z) : list Z :=
  let acc := if negb (t =? row) then acc ++ [xy_to_variable n t col] else acc in
  if negb (t =? col) then acc ++ [xy_to_variable n row t] else acc.

(** Lines 83-93, the body of the loop over the variables. *)
Definition add_neighbors (n : Z) (v : Z) (neighbors : gmap Z (list Z))
  : outcome (gmap Z (list Z)) :=
  '(row, col) ← variable_to_xy n v;
  Ok (<[v := foldl (add_row_col n row col) [] (range n)]> neighbors).

Definition init (file : puzzle) : outcome t :=
  let n := size file in
  let variables := range (n * n) in
  let domains : gmap Z (list Z) :=
    list_to_map ((λ v, (v, range_from 1 (n + 1))) <$> variables) in
  let cage_board := (λ _, (λ _, Zero) <$> range n) <$> range n in
  '(cage_board, cage_dict) ←
    for_each (read_board_line n (board_lines file)) (range n) (cage_board, ∅);
  cage_dict ←
    for_each (read_goal_line (goal_lines file))
      (range (Z.of_nat (base.size cage_dict))) cage_dict;
  neighbors ← for_each (add_neighbors n) variables ∅;
  Ok (mk n variables domains neighbors cage_board cage_dict).

End Kenken.

(** ** Notions used to state the properties *)

(** The identity element a running total starts from. *)
Definition identity (fn : operator) : Z :=
  match fn with add => 0 | mul => 1 end.

(** The values that the members [vars] of a cage have in [inferences]. *)
Definition assigned_values (inferences : gmap Z Z) (vars : list Z) : list Z :=
  omap (λ V, inferences !! V) vars.

(** The sum, or the product, of a list of values. *)
Definition combine (fn : operator) (vals : list Z) : Z :=
  foldr (apply fn) (identity fn) vals.

(** The verdict on a sum or product cage with [len] members and goal [goal]
    of which [allocated] have a value, these values combining to [total]. *)
Definition verdict (goal total : Z) (allocated len : nat) : Prop :=
  (total < goal ∧ (allocated < len)%nat) ∨ (allocated = len ∧ total = goal).

(** The current assignment with the hypothetical [A = a] and [B = b] written
    into it. *)
Definition with_candidates (inferences : gmap Z Z) (A a B b : Z) : gmap Z Z :=
  <[B := b]> (<[A := a]> inferences).

(** Following the words of the specification (section 4.2, rule 2), not the
    source: the verdict on a sum or product cage whose running total is taken
    over the current assignment with the hypothetical [A = a] and [B = b]
    counted in. *)
Definition spec_verdict_with_candidates (cage : Cage.t)
    (inferences : gmap Z Z) (fn : operator) (A a B b : Z) : bool :=
  let hypothetical := with_candidates inferences A a B b in
  let vals := assigned_values hypothetical (Cage.vars cage) in
  let total := combine fn vals in
  let allocated := length vals in
  let len := length (Cage.vars cage) in
  (total <? Cage.goal cage) && (allocated <? len)%nat
  || (allocated =? len)%nat && (total =? Cage.goal cage).

(** The five operators of a cage. *)
Definition known_operator (o : string) : Prop :=
  o = "+" ∨ o = "-" ∨ o = "*" ∨ o = "/" ∨ o = "=".

(** The goal relation of a difference cage and of a quotient cage. *)
Definition goal_relation (fn : operator) (x y goal : Z) : Prop :=
  match fn with
  | add => Z.abs (x - y) = goal
  | mul => Z.max x y = Z.min x y * goal
  end.

(** [X] is one of the variables [0 .. N*N-1] of the puzzle. *)
Definition on_board (self : Kenken.t) (X : Z) : Prop :=
  0 ≤ X < Kenken.N self * Kenken.N self.

(** [Y] is listed by the loop of lines 86-93 run for [X]. *)
Definition row_col_mate (n X Y : Z) : Prop :=
  ∃ t, 0 ≤ t < n ∧
       ((t ≠ X / n ∧ Y = Kenken.xy_to_variable n t (X mod n)) ∨
        (t ≠ X mod n ∧ Y = Kenken.xy_to_variable n (X / n) t)).

(** What holds of every puzzle that [__init__] has built. *)
Record well_formed (self : Kenken.t) : Prop := {
  wf_keys : ∀ X, is_Some (Kenken.neighbors self !! X) ↔ on_board self X;
  wf_neighbors : ∀ X nX Y,
    Kenken.neighbors self !! X = Some nX →
    Y ∈ nX ↔ row_col_mate (Kenken.N self) X Y;
  wf_ids : ∀ cage_id cage,
    Kenken.cage_dict self !! cage_id = Some cage → Cage.id cage = cage_id;
  wf_members : ∀ X cage,
    on_board self X → Kenken.get_cage self X = Ok cage → X ∈ Cage.vars cage;
  wf_arity_two : ∀ cage_id cage,
    Kenken.cage_dict self !! cage_id = Some cage →
    Cage.opr cage = "-" ∨ Cage.opr cage = "/" →
    length (Cage.vars cage) = 2%nat;
  wf_arity_one : ∀ cage_id cage,
    Kenken.cage_dict self !! cage_id = Some cage →
    Cage.opr cage = "=" → length (Cage.vars cage) = 1%nat
}.

(** Every cage carries one of the five operators. *)
Definition known_operators (self : Kenken.t) : Prop :=
  ∀ cage_id cage,
    Kenken.cage_dict self !! cage_id = Some cage →
    known_operator (Cage.opr cage).

(** Every cell of the board has been given a cage. *)
Definition complete (self : Kenken.t) : Prop :=
  ∀ X, on_board self X → ∃ cage, Kenken.get_cage self X = Ok cage.

(** *** The three loops of [__init__], named *)

Definition read_board (file : Kenken.puzzle) : outcome Kenken.boards :=
  let n := Kenken.size file in
  for_each (Kenken.read_board_line n (Kenken.board_lines file)) (range n)
    ((λ _, (λ _, Kenken.Zero) <$> range n) <$> range n, ∅).

Definition read_goals (file : Kenken.puzzle) (cage_dict : gmap string Cage.t)
  : outcome (gmap string Cage.t) :=
  for_each (Kenken.read_goal_line (Kenken.goal_lines file))
    (range (Z.of_nat (base.size cage_dict))) cage_dict.

Definition collect_neighbors (n : Z) : outcome (gmap Z (list Z)) :=
  for_each (Kenken.add_neighbors n) (range (n * n)) ∅.

(** The list that lines 83-93 build for the variable [v]. *)
Definition neighbors_of (n v : Z) : list Z :=
  foldl (Kenken.add_row_col n (v / n) (v mod n)) [] (range n).

(** *** The board of a puzzle file *)

(** The [i]-th board line as the first loop reads it. *)
Definition line_at (file : Kenken.puzzle) (i : Z) : string :=
  default "" (Kenken.board_lines file !! Z.to_nat i).

(** The cells (row, column, cage identifier) of one line, left to right. *)
Definition line_cells (i : Z) (line : string) : list (Z * Z * string) :=
  imap (λ j ch, (i, Z.of_nat j, String ch ""))
    (String.list_ascii_of_string line).

(** The cells of the board in the order in which they are read. *)
Definition cells (file : Kenken.puzzle) : list (Z * Z * string) :=
  range (Kenken.size file) ≫= λ i, line_cells i (line_at file i).

(** The variables of the cells that carry [cage_id], in reading order. *)
Definition members (n : Z) (cs : list (Z * Z * string)) (cage_id : string)
  : list Z :=
  (λ c, Kenken.xy_to_variable n c.1.1 c.1.2) <$> filter (λ c, c.2 = cage_id) cs.

Definition member_cells (file : Kenken.puzzle) (cage_id : string) : list Z :=
  members (Kenken.size file) (cells file) cage_id.

(** The number of distinct cage identifiers on the board. *)
Definition cage_count (file : Kenken.puzzle) : nat :=
  base.size (list_to_set ((λ c, c.2) <$> cells file) : gset string).

(** No board line is longer than the board is wide. *)
Definition lines_fit (file : Kenken.puzzle) : Prop :=
  ∀ i, 0 ≤ i < Kenken.size file →
       Z.of_nat (String.length (line_at file i)) ≤ Kenken.size file.

(** Every board line fills its row. *)
Definition lines_full (file : Kenken.puzzle) : Prop :=
  ∀ i, 0 ≤ i < Kenken.size file →
       Z.of_nat (String.length (line_at file i)) = Kenken.size file.

(** The arity that the assertions of lines 70-75 demand of a cage with
    operator [opr] and [len] members. *)
Definition arity_ok (opr : string) (len : nat) : Prop :=
  (opr = "-" ∨ opr = "/" → len = 2%nat) ∧ (opr = "=" → len = 1%nat).

(** The goal lines that the second loop reads: one per cage identifier. *)
Definition goal_lines_read (file : Kenken.puzzle) : list (string * string * Z) :=
  take (cage_count file) (Kenken.goal_lines file).

(** A puzzle file that [__init__] accepts. *)
Definition accepted (file : Kenken.puzzle) : Prop :=
  lines_fit file ∧
  (cage_count file ≤ length (Kenken.goal_lines file))%nat ∧
  ∀ cage_id opr goal,
    (cage_id, opr, goal) ∈ goal_lines_read file →
    member_cells file cage_id ≠ [] ∧
    arity_ok opr (length (member_cells file cage_id)).

(** The effect of [place] on each of the two structures. *)
Definition place_cell (n : Z) (c : Z * Z * string) (st : Kenken.boards)
  : outcome Kenken.boards :=
  Kenken.place n c.1.1 c.1.2 c.2 st.

Definition place_board (cage_board : list (list Kenken.cell))
    (c : Z * Z * string) : list (list Kenken.cell) :=
  alter (λ row, <[Z.to_nat c.1.2 := Kenken.Id c.2]> row) (Z.to_nat c.1.1)
    cage_board.

Definition place_dict (n : Z) (cage_dict : gmap string Cage.t)
    (c : Z * Z * string) : gmap string Cage.t :=
  <[c.2 := Cage.append_var (Kenken.xy_to_variable n c.1.1 c.1.2)
             (default (Cage.new c.2) (cage_dict !! c.2))]> cage_dict.

(** A board of [n] rows of [n] cells. *)
Definition square (n : Z) (cage_board : list (list Kenken.cell)) : Prop :=
  length cage_board = Z.to_nat n ∧
  ∀ row, row ∈ cage_board → length row = Z.to_nat n.

(** The cell at row [i], column [j]. *)
Definition cell_at (cage_board : list (list Kenken.cell)) (i j : nat)
  : option Kenken.cell :=
  cage_board !! i ≫= λ row, row !! j.

(** A cell that lies on a board of size [n]. *)
Definition in_range (n : Z) (c : Z * Z * string) : Prop :=
  0 ≤ c.1.1 < n ∧ 0 ≤ c.1.2 < n.

#[global] Instance in_range_dec n c : Decision (in_range n c).
Proof. unfold in_range. apply _. Defined.

(** A cage with further members appended. *)
Definition extend (cage : Cage.t) (vs : list Z) : Cage.t :=
  {| Cage.goal := Cage.goal cage; Cage.opr := Cage.opr cage;
     Cage.id := Cage.id cage; Cage.vars := Cage.vars cage ++ vs |}.

(** The dictionary of cages once the board has been read. *)
Definition board_dict (file : Kenken.puzzle) : gmap string Cage.t :=
  foldl (place_dict (Kenken.size file)) ∅ (cells file).

(** [d'] has the cages of [d], with the same identifiers and members. *)
Definition same_cages (d d' : gmap string Cage.t) : Prop :=
  ∀ cage_id,
    (d' !! cage_id = None ↔ d !! cage_id = None) ∧
    ∀ cage', d' !! cage_id = Some cage' →
      ∃ cage, d !! cage_id = Some cage ∧
              Cage.vars cage' = Cage.vars cage ∧ Cage.id cage' = Cage.id cage.

(** Every cage of [d] has the arity of its operator. *)
Definition arity_inv (d : gmap string Cage.t) : Prop :=
  ∀ cage_id cage,
    d !! cage_id = Some cage →
    arity_ok (Cage.opr cage) (length (Cage.vars cage)).

(** The goal line at index [idx] names a cage of [d] of the right arity. *)
Definition line_ok (d : gmap string Cage.t)
    (goals : list (string * string * Z)) (idx : Z) : Prop :=
  ∃ cage_id opr goal cage,
    goals !! Z.to_nat idx = Some (cage_id, opr, goal) ∧
    d !! cage_id = Some cage ∧
    arity_ok opr (length (Cage.vars cage)).

(** The exceptions with which [__init__] can end. *)
Definition construction_error (e : exn) : Prop :=
  e = IndexError ∨ e = KeyError ∨
  e = AssertionError arity_two ∨ e = AssertionError arity_one.

(** The file with the goal line at index [idx] replaced. *)
Definition with_goal_line (file : Kenken.puzzle) (idx : nat)
    (line : string * string * Z) : Kenken.puzzle :=
  {| Kenken.size := Kenken.size file;
     Kenken.board_lines := Kenken.board_lines file;
     Kenken.goal_lines := <[idx := line]> (Kenken.goal_lines file) |}.

#[global] Instance known_operator_dec o : Decision (known_operator o).
Proof. unfold known_operator. apply _. Defined.

(** ** Example puzzles *)

(** A 3 x 3 puzzle with one cage of each operator. *)
Definition example_puzzle : Kenken.puzzle :=
  {| Kenken.size := 3;
     Kenken.board_lines := ["AAB"; "CDB"; "CEE"];
     Kenken.goal_lines :=
       [("A", "+", 3); ("B", "-", 1); ("C", "/", 2); ("D", "=", 2);
        ("E", "*", 3)] |}.


(** A 2 x 2 puzzle whose first cage carries the operator '%'. *)
Definition unknown_puzzle : Kenken.puzzle :=
  {| Kenken.size := 2;
     Kenken.board_lines := ["AA"; "BB"];
     Kenken.goal_lines := [("A", "%", 3); ("B", "+", 3)] |}.

(** A 2 x 2 puzzle that declares a difference cage of three cells. *)
Definition difference_puzzle : Kenken.puzzle :=
  {| Kenken.size := 2;
     Kenken.board_lines := ["AA"; "AB"];
     Kenken.goal_lines := [("A", "-", 1); ("B", "=", 1)] |}.

(** A 2 x 2 puzzle with two cages, whose third goal line gives '-' to the
    cage of three cells. *)
Definition late_line_puzzle : Kenken.puzzle :=
  {| Kenken.size := 2;
     Kenken.board_lines := ["AB"; "BB"];
     Kenken.goal_lines := [("A", "=", 1); ("A", "=", 1); ("B", "-", 1)] |}.

(** A 2 x 2 puzzle whose first cage carries the operator '%', beside two
    fixed-value cages. *)
Definition modulo_puzzle : Kenken.puzzle :=
  {| Kenken.size := 2;
     Kenken.board_lines := ["AA"; "BC"];
     Kenken.goal_lines := [("A", "%", 3); ("B", "=", 1); ("C", "=", 2)] |}.

(** The puzzle that [__init__] returns for a file (an empty one when it
    raises). *)
Definition built (file : Kenken.puzzle) : Kenken.t :=
  match Kenken.init file with
  | Ok self => self
  | Raise _ => Kenken.mk 0 [] ∅ ∅ [] ∅
  end.

(** A search state in which nothing is assigned and every domain is full. *)
Definition fresh_csp (n : Z) : CSP :=
  {| infer_assignment := ∅; choices := λ _, range_from 1 (n + 1) |}.

(** ** Notions used to state further properties *)

(** The operator and goal that a run of goal lines leaves on the cage
    [cage_id], which had [start] before: those of the last line naming it. *)
Definition declared (lines : list (string * string * Z)) (cage_id : string)
    (start : string * Z) : string * Z :=
  foldl (λ acc line, if decide (line.1.1 = cage_id) then (line.1.2, line.2)
                     else acc)
    start lines.

(** A cage given another operator and goal. *)
Definition retag (cage : Cage.t) (og : string * Z) : Cage.t :=
  {| Cage.goal := og.2; Cage.opr := og.1;
     Cage.id := Cage.id cage; Cage.vars := Cage.vars cage |}.

(** The cage that a file describes under [cage_id]: its cells on the board
    in reading order, and the operator and goal of the last goal line read
    that names it (those of [Cage(name)] when no line does). *)
Definition built_cage (file : Kenken.puzzle) (cage_id : string) : Cage.t :=
  retag {| Cage.goal := -1; Cage.opr := ""; Cage.id := cage_id;
           Cage.vars := member_cells file cage_id |}
    (declared (goal_lines_read file) cage_id ("", -1)).

(** The character at column [j] of board line [i]. *)
Definition char_at (file : Kenken.puzzle) (i j : Z) : option Ascii.ascii :=
  String.list_ascii_of_string (line_at file i) !! Z.to_nat j.

(** The file cut down to the lines that the two loops read. *)
Definition truncated (file : Kenken.puzzle) : Kenken.puzzle :=
  {| Kenken.size := Kenken.size file;
     Kenken.board_lines :=
       take (Z.to_nat (Kenken.size file)) (Kenken.board_lines file);
     Kenken.goal_lines := goal_lines_read file |}.

(** *** Solutions *)

(** The cage is satisfied by the values that its members have in
    [inferences]: they sum or multiply to the goal, the two of them are in
    the goal relation, or the single one is the goal. *)
Definition satisfied (cage : Cage.t) (inferences : gmap Z Z) : Prop :=
  let vals := assigned_values inferences (Cage.vars cage) in
  if decide (Cage.opr cage = "+") then combine add vals = Cage.goal cage
  else if decide (Cage.opr cage = "*") then combine mul vals = Cage.goal cage
  else if decide (Cage.opr cage = "-") then
    ∃ x y, vals = [x; y] ∧ goal_relation add x y (Cage.goal cage)
  else if decide (Cage.opr cage = "/") then
    ∃ x y, vals = [x; y] ∧ goal_relation mul x y (Cage.goal cage)
  else if decide (Cage.opr cage = "=") then vals = [Cage.goal cage]
  else False.

(** No value occurs twice in a row or in a column. *)
Definition latin (self : Kenken.t) (inferences : gmap Z Z) : Prop :=
  ∀ A B a b,
    on_board self A → on_board self B → A ≠ B →
    A / Kenken.N self = B / Kenken.N self ∨
    A mod Kenken.N self = B mod Kenken.N self →
    inferences !! A = Some a → inferences !! B = Some b → a ≠ b.

(** Every variable of the board has a value. *)
Definition total (self : Kenken.t) (inferences : gmap Z Z) : Prop :=
  ∀ X, on_board self X → is_Some (inferences !! X).

(** A solved grid. *)
Definition solution (self : Kenken.t) (inferences : gmap Z Z) : Prop :=
  total self inferences ∧
  latin self inferences ∧
  ∀ cage_id cage,
    Kenken.cage_dict self !! cage_id = Some cage → satisfied cage inferences.

(** A 2 x 2 puzzle with a difference cage in the first column, and the
    grid 1 2 / 2 1 that solves it. *)
Definition solved_puzzle : Kenken.puzzle :=
  {| Kenken.size := 2;
     Kenken.board_lines := ["AB"; "AC"];
     Kenken.goal_lines := [("A", "-", 1); ("B", "=", 2); ("C", "=", 1)] |}.

Definition solved_csp : CSP :=
  {| infer_assignment := list_to_map [(0, 1); (1, 2); (2, 2); (3, 1)];
     choices := λ _, [1; 2] |}.

(** The goal line at index [k] names a cage of the board and gives it an
    operator of its arity. *)
Definition goal_line_fine (file : Kenken.puzzle) (k : nat) : Prop :=
  ∃ cage_id opr goal,
    Kenken.goal_lines file !! k = Some (cage_id, opr, goal) ∧
    member_cells file cage_id ≠ [] ∧
    arity_ok opr (length (member_cells file cage_id)).

Import Kenken.

(** * Properties *)

(** ** Index conversions *)

Lemma variable_to_xy_ok n v :
  n ≠ 0 → variable_to_xy n v = Ok (v / n, v mod n).
Proof.
  intros Hn. unfold variable_to_xy.
  destruct (Z.eqb_spec n 0); [lia | done].
Qed.

Lemma xy_to_variable_div n i j : 0 ≤ j < n → xy_to_variable n i j / n = i.
Proof.
  intros Hj. unfold xy_to_variable.
  rewrite Z.div_add_l by lia. rewrite Z.div_small by lia. lia.
Qed.

Lemma xy_to_variable_mod n i j : 0 ≤ j < n → xy_to_variable n i j mod n = j.
Proof.
  intros Hj. unfold xy_to_variable.
  rewrite Z.add_comm, Z.mod_add by lia. by apply Z.mod_small.
Qed.

Lemma xy_to_variable_div_mod n v : n ≠ 0 → xy_to_variable n (v / n) (v mod n) = v.
Proof.
  intros Hn. unfold xy_to_variable.
  pose proof (Z.div_mod v n Hn). lia.
Qed.

Lemma xy_to_variable_range n i j :
  0 ≤ i < n → 0 ≤ j < n → 0 ≤ xy_to_variable n i j < n * n.
Proof. unfold xy_to_variable. nia. Qed.

Lemma variable_div_mod_range n v :
  0 < n → 0 ≤ v < n * n → 0 ≤ v / n < n ∧ 0 ≤ v mod n < n.
Proof.
  intros Hn Hv. split.
  - split; [apply Z.div_pos; lia | apply Z.div_lt_upper_bound; lia].
  - apply Z.mod_pos_bound; lia.
Qed.

(** C10. [variable_to_xy] and [xy_to_variable] are inverse to each other:
    every variable [v] of [0, N*N) is mapped to a pair that
    [xy_to_variable] sends back to [v] (a pair of [0, N) x [0, N) on a board
    of positive size), and every pair [(i, j)] of [0, N) x [0, N) is sent to
    a variable of [0, N*N) that [variable_to_xy] maps back to [(i, j)]. *)
Theorem index_conversions_inverse (n : Z) :
  (∀ v, 0 ≤ v < n * n →
     ∃ i j, variable_to_xy n v = Ok (i, j) ∧ xy_to_variable n i j = v ∧
            (0 < n → 0 ≤ i < n ∧ 0 ≤ j < n)) ∧
  (∀ i j, 0 ≤ i < n → 0 ≤ j < n →
     0 ≤ xy_to_variable n i j < n * n ∧
     variable_to_xy n (xy_to_variable n i j) = Ok (i, j)).
Proof.
  split.
  - intros v Hv. assert (n ≠ 0) as Hn by nia.
    exists (v / n), (v mod n). split; [by apply variable_to_xy_ok |].
    split; [by apply xy_to_variable_div_mod |].
    intros Hpos. by apply variable_div_mod_range.
  - intros i j Hi Hj. split; [by apply xy_to_variable_range |].
    rewrite variable_to_xy_ok by lia.
    by rewrite xy_to_variable_div, xy_to_variable_mod.
Qed.

Lemma index_conversions_inverse_witness :
  (∃ i j, variable_to_xy 3 5 = Ok (i, j) ∧ xy_to_variable 3 i j = 5 ∧
          (0 < 3 → 0 ≤ i < 3 ∧ 0 ≤ j < 3)) ∧
  (0 ≤ xy_to_variable 3 1 2 < 3 * 3 ∧
   variable_to_xy 3 (xy_to_variable 3 1 2) = Ok (1, 2)).
Proof.
  destruct (index_conversions_inverse 3) as [Hv Hxy].
  split; [apply Hv; lia | apply Hxy; lia].
Defined.

(** ** The running total of a sum or product cage *)

Lemma apply_assoc fn x y z : apply fn (apply fn x y) z = apply fn x (apply fn y z).
Proof. destruct fn; simpl; lia. Qed.

Lemma apply_identity_l fn x : apply fn (identity fn) x = x.
Proof. destruct fn; simpl; lia. Qed.

Lemma apply_identity_r fn x : apply fn x (identity fn) = x.
Proof. destruct fn; simpl; lia. Qed.

Lemma foldl_accumulate inferences fn vars total allocated :
  foldl (accumulate inferences fn) (total, allocated) vars =
  (apply fn total (combine fn (assigned_values inferences vars)),
   allocated + Z.of_nat (length (assigned_values inferences vars))).
Proof.
  revert total allocated.
  induction vars as [|V vars IH]; intros total allocated; simpl.
  - rewrite apply_identity_r. f_equal. lia.
  - destruct (inferences !! V) as [val|] eqn:HV; simpl.
    + rewrite IH, apply_assoc. f_equal. lia.
    + apply IH.
Qed.

Lemma length_assigned_values inferences vars :
  (length (assigned_values inferences vars) ≤ length vars)%nat.
Proof.
  induction vars as [|V vars IH]; simpl; [lia |].
  destruct (inferences !! V); simpl; lia.
Qed.

(** What [check_add_or_mul_cage] returns, in terms of the values assigned to
    the members of the cage. *)
Lemma check_add_or_mul_cage_verdict self inferences fn A a B b cage :
  get_cage self A = Ok cage →
  ∃ r, check_add_or_mul_cage self inferences fn A a B b = Ok r ∧
       (r = true ↔
        verdict (Cage.goal cage)
          (combine fn (assigned_values inferences (Cage.vars cage)))
          (length (assigned_values inferences (Cage.vars cage)))
          (length (Cage.vars cage))).
Proof.
  intros Hcage. unfold check_add_or_mul_cage. rewrite Hcage. simpl.
  replace (if is_mul fn then 1 else 0) with (identity fn) by (by destruct fn).
  rewrite foldl_accumulate, apply_identity_l.
  set (vals := assigned_values inferences (Cage.vars cage)).
  unfold verdict.
  destruct (Z.ltb_spec (combine fn vals) (Cage.goal cage));
    destruct (Z.ltb_spec (0 + Z.of_nat (length vals))
                (Z.of_nat (length (Cage.vars cage))));
    destruct (Z.eqb_spec (combine fn vals) (Cage.goal cage));
    destruct (Z.eqb_spec (0 + Z.of_nat (length vals))
                (Z.of_nat (length (Cage.vars cage))));
    simpl; eexists; (split; [reflexivity |]);
    split; try done; try lia; intros _; lia.
Qed.

(** C9. Two calls of [check_add_or_mul_cage] that differ in the candidate
    values only return the same result, and that result is fixed by the
    values that the members of the cage have in the current assignment. *)
Theorem check_add_or_mul_cage_ignores_candidates
    self inferences fn A B (a a' : Z) (b b' : option Z) :
  check_add_or_mul_cage self inferences fn A a B b =
  check_add_or_mul_cage self inferences fn A a' B b' ∧
  (∀ cage, get_cage self A = Ok cage →
     ∃ r, check_add_or_mul_cage self inferences fn A a B b = Ok r ∧
          (r = true ↔
           verdict (Cage.goal cage)
             (combine fn (assigned_values inferences (Cage.vars cage)))
             (length (assigned_values inferences (Cage.vars cage)))
             (length (Cage.vars cage)))).
Proof.
  split; [reflexivity |].
  intros cage Hcage. by apply check_add_or_mul_cage_verdict.
Qed.

(** ** The constraint predicate, rule by rule *)

Lemma py_in_spec x l : py_in x l = true ↔ x ∈ l.
Proof.
  unfold py_in. rewrite existsb_exists. split.
  - intros (y & Hy & Heq). apply Z.eqb_eq in Heq. subst y.
    by apply list_elem_of_In.
  - intros Hx. exists x. split; [by apply list_elem_of_In | apply Z.eqb_refl].
Qed.

Lemma py_in_false x l : py_in x l = false ↔ x ∉ l.
Proof.
  rewrite <- py_in_spec. destruct (py_in x l); split; congruence.
Qed.

Lemma py_getitem_lookup `{Countable K} {V} (d : gmap K V) k v :
  d !! k = Some v → py_getitem d k = Ok v.
Proof. intros Hk. unfold py_getitem. by rewrite Hk. Qed.

(** Rule 1: two variables of one row or column with equal values. *)
Lemma constraints_conflict self csp A a B b nA nB :
  A ≠ B →
  neighbors self !! A = Some nA → neighbors self !! B = Some nB →
  B ∈ nA ∨ A ∈ nB → a = b →
  constraints self csp A a B b = Ok false.
Proof.
  intros Hne HA HB Hin ->. unfold constraints.
  destruct (Z.eqb_spec A B) as [|_]; [done |].
  rewrite (py_getitem_lookup _ _ _ HA). simpl.
  rewrite Z.eqb_refl, andb_true_r.
  destruct (py_in B nA) eqn:HBA; [done |].
  rewrite (py_getitem_lookup _ _ _ HB). simpl.
  rewrite andb_true_r.
  destruct (py_in A nB) eqn:HAB; [done |].
  apply py_in_false in HBA, HAB. tauto.
Qed.

(** Past rule 1 the predicate looks at the cages of the two variables. *)
Lemma constraints_cages self csp A a B b nA nB cage_A cage_B :
  A ≠ B →
  neighbors self !! A = Some nA → neighbors self !! B = Some nB →
  ¬ ((B ∈ nA ∨ A ∈ nB) ∧ a = b) →
  get_cage self A = Ok cage_A → get_cage self B = Ok cage_B →
  constraints self csp A a B b =
  let inferences := infer_assignment csp in
  if Cage.eq cage_A cage_B then
    if String.eqb (Cage.opr cage_A) "+" then
      check_add_or_mul_cage self inferences add A a (Some B) (Some b)
    else if String.eqb (Cage.opr cage_A) "-" then
      Ok (Z.abs (a - b) =? Cage.goal cage_A)
    else if String.eqb (Cage.opr cage_A) "*" then
      check_add_or_mul_cage self inferences mul A a (Some B) (Some b)
    else if String.eqb (Cage.opr cage_A) "/" then
      Ok (Z.max a b =? Z.min a b * Cage.goal cage_A)
    else if String.eqb (Cage.opr cage_A) "=" then
      Raise (AssertionError fixed_pair)
    else Raise (AssertionError unknown_pair_opr)
  else
    check_cage_constraint self csp inferences A a ≫= λ ra : bool,
    if ra then check_cage_constraint self csp inferences B b else Ok false.
Proof.
  intros Hne HA HB Hno HcA HcB. unfold constraints.
  destruct (Z.eqb_spec A B) as [|_]; [done |].
  rewrite (py_getitem_lookup _ _ _ HA). simpl.
  destruct (py_in B nA && (a =? b)) eqn:H1.
  { apply andb_true_iff in H1 as [H1 H2].
    apply py_in_spec in H1. apply Z.eqb_eq in H2. tauto. }
  rewrite (py_getitem_lookup _ _ _ HB). simpl.
  destruct (py_in A nB && (a =? b)) eqn:H2.
  { apply andb_true_iff in H2 as [H2 H3].
    apply py_in_spec in H2. apply Z.eqb_eq in H3. tauto. }
  rewrite HcA, HcB. reflexivity.
Qed.

(** ** Rule 3: variables of different cages *)

Lemma get_cage_lookup self X cage :
  get_cage self X = Ok cage →
  ∃ cage_id, cage_dict self !! cage_id = Some cage.
Proof.
  unfold get_cage. destruct (variable_to_xy (N self) X) as [[i j]|]; [|done].
  simpl. destruct (py_index (cage_board self) i) as [row|]; [|done].
  simpl. destruct (py_index row j) as [[|cage_id]|]; try done.
  simpl. unfold py_getitem.
  destruct (cage_dict self !! cage_id) eqn:Hc; [|done].
  intros [= ->]. eauto.
Qed.

Lemma get_cage_id self X cage :
  well_formed self → get_cage self X = Ok cage →
  cage_dict self !! Cage.id cage = Some cage.
Proof.
  intros Hwf Hc. destruct (get_cage_lookup _ _ _ Hc) as [cage_id Hl].
  by rewrite (wf_ids _ Hwf _ _ Hl).
Qed.

Lemma get_cage_same_id self A B cage_A cage_B :
  well_formed self →
  get_cage self A = Ok cage_A → get_cage self B = Ok cage_B →
  Cage.id cage_A = Cage.id cage_B → cage_A = cage_B.
Proof.
  intros Hwf HA HB Hid.
  apply (get_cage_id _ _ _ Hwf) in HA, HB. rewrite Hid in HA. congruence.
Qed.

Lemma length_two {A} (l : list A) :
  length l = 2%nat → ∃ x y, l = [x; y].
Proof. destruct l as [|x [|y [|z l]]]; try done. eauto. Qed.

Lemma some_choice_fits_spec fn x goal ys :
  some_choice_fits fn x goal ys = true ↔
  ∃ y, y ∈ ys ∧ Z.max x y = apply fn (Z.min x y) goal.
Proof.
  induction ys as [|y ys IH]; simpl.
  - split; [done | intros (y & Hy & _); by apply elem_of_nil in Hy].
  - destruct (Z.eqb_spec (Z.max x y) (apply fn (Z.min x y) goal)) as [Heq|Hne].
    + split; [|done]. intros _. exists y. split; [left | done].
    + rewrite IH. split.
      * intros (y' & Hy' & Hfit). exists y'. split; [by right | done].
      * intros (y' & Hy' & Hfit). apply elem_of_cons in Hy' as [->|Hy']; [done |].
        eauto.
Qed.

Lemma fits_goal_relation fn x y goal :
  Z.max x y = apply fn (Z.min x y) goal ↔ goal_relation fn x y goal.
Proof. destruct fn; simpl; lia. Qed.

(** The check of a difference or quotient cage whose members are [V0], [V1],
    run for the member [X] with the other member [Y] unassigned. *)
Lemma check_sub_or_div_cage_unassigned self csp inferences fn X x Y cage :
  get_cage self X = Ok cage →
  Cage.vars cage = [X; Y] ∨ Cage.vars cage = [Y; X] →
  inferences !! Y = None →
  ∃ r, check_sub_or_div_cage self csp inferences fn X x = Ok r ∧
       (r = true ↔
        ∃ y, y ∈ choices csp Y ∧ goal_relation fn x y (Cage.goal cage)).
Proof.
  intros Hc Hvars HY. unfold check_sub_or_div_cage. rewrite Hc. simpl.
  assert (∃ V0 V1, Cage.vars cage = [V0; V1] ∧
                   (if negb (X =? V1) then V1 else V0) = Y) as (V0 & V1 & -> & HY').
  { destruct Hvars as [-> | ->]; eexists _, _; (split; [reflexivity |]).
    - destruct (Z.eqb_spec X Y); simpl; congruence.
    - by rewrite Z.eqb_refl. }
  unfold py_index. simpl. rewrite HY', HY.
  eexists. split; [reflexivity |].
  rewrite some_choice_fits_spec.
  split; intros (y & Hy & Hfit); exists y; (split; [done |]);
    by apply fits_goal_relation.
Qed.

Lemma check_sub_or_div_cage_returns self csp inferences fn X x cage :
  get_cage self X = Ok cage → length (Cage.vars cage) = 2%nat →
  ∃ r, check_sub_or_div_cage self csp inferences fn X x = Ok r.
Proof.
  intros Hc Hlen. unfold check_sub_or_div_cage. rewrite Hc. simpl.
  destruct (length_two _ Hlen) as (V0 & V1 & ->).
  unfold py_index. simpl.
  destruct (inferences !! _); eauto.
Qed.

Lemma check_cage_constraint_returns self csp inferences X x cage :
  well_formed self → known_operators self →
  get_cage self X = Ok cage →
  ∃ r, check_cage_constraint self csp inferences X x = Ok r.
Proof.
  intros Hwf Hops Hc.
  pose proof (get_cage_id _ _ _ Hwf Hc) as Hl.
  pose proof (Hops _ _ Hl) as Hop.
  unfold check_cage_constraint. rewrite Hc. simpl.
  destruct Hop as [Ho | [Ho | [Ho | [Ho | Ho]]]]; rewrite Ho; simpl.
  - destruct (check_add_or_mul_cage_verdict self inferences add X x None None _ Hc)
      as (r & Hr & _). eauto.
  - eapply check_sub_or_div_cage_returns; [done |].
    eapply wf_arity_two; eauto.
  - destruct (check_add_or_mul_cage_verdict self inferences mul X x None None _ Hc)
      as (r & Hr & _). eauto.
  - eapply check_sub_or_div_cage_returns; [done |].
    eapply wf_arity_two; eauto.
  - eauto.
Qed.

Lemma partner_exists self X cage :
  well_formed self → on_board self X → get_cage self X = Ok cage →
  Cage.opr cage = "-" ∨ Cage.opr cage = "/" →
  ∃ Y, Cage.vars cage = [X; Y] ∨ Cage.vars cage = [Y; X].
Proof.
  intros Hwf HX Hc Hop.
  pose proof (get_cage_id _ _ _ Hwf Hc) as Hl.
  pose proof (wf_arity_two _ Hwf _ _ Hl Hop) as Hlen.
  pose proof (wf_members _ Hwf _ _ HX Hc) as Hin.
  destruct (length_two _ Hlen) as (V0 & V1 & Hvars). rewrite Hvars in *.
  apply elem_of_cons in Hin as [-> | Hin]; [eauto |].
  apply elem_of_cons in Hin as [-> | Hin]; [eauto |].
  by apply elem_of_nil in Hin.
Qed.


(** ** The fixed-value branch *)

Lemma two_members {A} (x y : A) (l : list A) :
  x ≠ y → x ∈ l → y ∈ l → (2 ≤ length l)%nat.
Proof.
  intros Hne Hx Hy. destruct l as [|z [|z' l]]; simpl; [| |lia].
  - by apply elem_of_nil in Hx.
  - apply list_elem_of_singleton in Hx, Hy. congruence.
Qed.

Lemma same_cage_not_fixed self A B cage_A cage_B :
  well_formed self → A ≠ B → on_board self A → on_board self B →
  get_cage self A = Ok cage_A → get_cage self B = Ok cage_B →
  Cage.id cage_A = Cage.id cage_B →
  Cage.opr cage_A ≠ "=".
Proof.
  intros Hwf Hne HA HB HcA HcB Hid Hop.
  pose proof (get_cage_same_id _ _ _ _ _ Hwf HcA HcB Hid) as <-.
  pose proof (wf_members _ Hwf _ _ HA HcA) as HinA.
  pose proof (wf_members _ Hwf _ _ HB HcB) as HinB.
  pose proof (two_members _ _ _ Hne HinA HinB) as Hlen.
  pose proof (wf_arity_one _ Hwf _ _ (get_cage_id _ _ _ Hwf HcA) Hop). lia.
Qed.

Lemma py_index_raise {A} (l : list A) i e :
  py_index l i = Raise e → e = IndexError.
Proof.
  unfold py_index.
  destruct (_ && _); [|congruence]. destruct (l !! _); congruence.
Qed.

Lemma get_cage_raise self X e :
  get_cage self X = Raise e → ∀ site, e ≠ AssertionError site.
Proof.
  unfold get_cage, variable_to_xy. destruct (N self =? 0); simpl;
    [intros [= <-]; done |].
  destruct (py_index (cage_board self) _) as [row|e1] eqn:H1; simpl.
  - destruct (py_index row _) as [[|cage_id]|e2] eqn:H2; simpl.
    + intros [= <-]; done.
    + unfold py_getitem. destruct (_ !! _); [done | intros [= <-]; done].
    + intros [= <-]. apply py_index_raise in H2 as ->. done.
  - intros [= <-]. apply py_index_raise in H1 as ->. done.
Qed.

Lemma check_add_or_mul_cage_raise self inferences fn A a B b e :
  check_add_or_mul_cage self inferences fn A a B b = Raise e →
  ∀ site, e ≠ AssertionError site.
Proof.
  unfold check_add_or_mul_cage.
  destruct (get_cage self A) as [cage|e1] eqn:Hc; simpl.
  - destruct (foldl _ _ _) as [total allocated].
    destruct (_ && _); [done |]. destruct (_ && _); done.
  - intros [= <-]. by eapply get_cage_raise.
Qed.

Lemma check_sub_or_div_cage_raise self csp inferences fn X x e :
  check_sub_or_div_cage self csp inferences fn X x = Raise e →
  ∀ site, e ≠ AssertionError site.
Proof.
  unfold check_sub_or_div_cage.
  destruct (get_cage self X) as [cage|e1] eqn:Hc; simpl.
  - destruct (py_index (Cage.vars cage) 0) as [V0|e2] eqn:H0; simpl.
    + destruct (py_index (Cage.vars cage) 1) as [V1|e3] eqn:H1; simpl.
      * destruct (inferences !! _); done.
      * intros [= <-]. apply py_index_raise in H1 as ->. done.
    + intros [= <-]. apply py_index_raise in H0 as ->. done.
  - intros [= <-]. by eapply get_cage_raise.
Qed.

Lemma check_cage_constraint_raise self csp inferences X x e :
  check_cage_constraint self csp inferences X x = Raise e →
  e ≠ AssertionError fixed_pair.
Proof.
  unfold check_cage_constraint.
  destruct (get_cage self X) as [cage|e1] eqn:Hc; simpl.
  - repeat match goal with
      | |- context [if ?c then _ else _] => destruct c
      end; try done.
    + intros H. eapply check_add_or_mul_cage_raise, H.
    + intros H. eapply check_sub_or_div_cage_raise, H.
    + intros H. eapply check_add_or_mul_cage_raise, H.
    + intros H. eapply check_sub_or_div_cage_raise, H.
    + intros [= <-]. done.
  - intros [= <-]. by eapply get_cage_raise.
Qed.

(** C6. In a well-formed puzzle, where in particular a fixed-value cage
    has exactly one member, two distinct variables of the board are never in
    one fixed-value cage, and the assertion of the same-cage fixed-value
    branch never fires, whatever the arguments of the call (a call with
    [A = B] stops at the assertion of line 117). *)
Theorem fixed_value_branch_unreachable self :
  well_formed self →
  (∀ A B cage_A cage_B,
     A ≠ B → on_board self A → on_board self B →
     get_cage self A = Ok cage_A → get_cage self B = Ok cage_B →
     Cage.id cage_A = Cage.id cage_B →
     Cage.opr cage_A ≠ "=") ∧
  (∀ csp A a B b,
     constraints self csp A a B b ≠ Raise (AssertionError fixed_pair)).
Proof.
  intros Hwf. split; [intros A B cage_A cage_B; by apply same_cage_not_fixed |].
  intros csp A a B b Hraise. unfold constraints in Hraise.
  destruct (Z.eqb_spec A B) as [|Hne]; [done |].
  unfold py_getitem in Hraise.
  destruct (neighbors self !! A) as [nA|] eqn:HA; simpl in Hraise; [|done].
  destruct (py_in B nA && (a =? b)); [done |].
  destruct (neighbors self !! B) as [nB|] eqn:HB; simpl in Hraise; [|done].
  destruct (py_in A nB && (a =? b)); [done |].
  assert (on_board self A) as HonA by (apply (wf_keys _ Hwf); eauto).
  assert (on_board self B) as HonB by (apply (wf_keys _ Hwf); eauto).
  destruct (get_cage self A) as [cage_A|eA] eqn:HcA; simpl in Hraise;
    [|injection Hraise as ->; by eapply get_cage_raise].
  destruct (get_cage self B) as [cage_B|eB] eqn:HcB; simpl in Hraise;
    [|injection Hraise as ->; by eapply get_cage_raise].
  unfold Cage.eq in Hraise.
  destruct (String.eqb_spec (Cage.id cage_A) (Cage.id cage_B)) as [Hid|Hid].
  - destruct (String.eqb_spec (Cage.opr cage_A) "+");
      [by eapply check_add_or_mul_cage_raise |].
    destruct (String.eqb_spec (Cage.opr cage_A) "-"); [done |].
    destruct (String.eqb_spec (Cage.opr cage_A) "*");
      [by eapply check_add_or_mul_cage_raise |].
    destruct (String.eqb_spec (Cage.opr cage_A) "/"); [done |].
    destruct (String.eqb_spec (Cage.opr cage_A) "=") as [Hop|]; [|done].
    by eapply (same_cage_not_fixed self A B).
  - destruct (check_cage_constraint self csp _ A a) as [[|]|e] eqn:HrA;
      simpl in Hraise; [|done|].
    + by eapply check_cage_constraint_raise.
    + injection Hraise as ->. by eapply check_cage_constraint_raise.
Qed.

(** ** Commutativity *)

Lemma bool_iff_eq (r r' : bool) (P : Prop) :
  (r = true ↔ P) → (r' = true ↔ P) → r = r'.
Proof. destruct r, r'; intuition congruence. Qed.

(** In a well-formed puzzle with known operators, for two distinct
    variables of the board that both have a cage, both orders of the call
    return, and return the same boolean. *)
Lemma constraints_swap_returns self csp A a B b cage_A cage_B :
  well_formed self → known_operators self →
  A ≠ B → on_board self A → on_board self B →
  get_cage self A = Ok cage_A → get_cage self B = Ok cage_B →
  ∃ r, constraints self csp A a B b = Ok r ∧
       constraints self csp B b A a = Ok r.
Proof.
  intros Hwf Hops Hne HonA HonB HcA HcB.
  destruct (proj2 (wf_keys _ Hwf A) HonA) as [nA HA].
  destruct (proj2 (wf_keys _ Hwf B) HonB) as [nB HB].
  destruct (decide ((B ∈ nA ∨ A ∈ nB) ∧ a = b)) as [[Hin Heq]|Hno].
  { exists false. split.
    - by eapply constraints_conflict.
    - eapply constraints_conflict; [congruence | done | done | tauto | done]. }
  assert (¬ ((A ∈ nB ∨ B ∈ nA) ∧ b = a)) as Hno'
    by (intros [? ?]; apply Hno; split; [tauto | congruence]).
  assert (B ≠ A) as Hne' by congruence.
  rewrite (constraints_cages _ _ _ _ _ _ _ _ _ _ Hne HA HB Hno HcA HcB).
  rewrite (constraints_cages _ _ _ _ _ _ _ _ _ _ Hne' HB HA Hno' HcB HcA).
  simpl. unfold Cage.eq.
  rewrite (String.eqb_sym (Cage.id cage_B)).
  destruct (String.eqb_spec (Cage.id cage_A) (Cage.id cage_B)) as [Hid|Hid].
  - pose proof (get_cage_same_id _ _ _ _ _ Hwf HcA HcB Hid) as <-.
    pose proof (Hops _ _ (get_cage_id _ _ _ Hwf HcA)) as Hop.
    destruct Hop as [Ho | [Ho | [Ho | [Ho | Ho]]]].
    + rewrite Ho. simpl.
      destruct (check_add_or_mul_cage_verdict self (infer_assignment csp) add
                  A a (Some B) (Some b) _ HcA) as (r & Hr & Hv).
      destruct (check_add_or_mul_cage_verdict self (infer_assignment csp) add
                  B b (Some A) (Some a) _ HcB) as (r' & Hr' & Hv').
      exists r. split; [done |]. by rewrite Hr', (bool_iff_eq _ _ _ Hv Hv').
    + rewrite Ho. simpl. exists (Z.abs (a - b) =? Cage.goal cage_A).
      split; [done |]. do 2 f_equal. lia.
    + rewrite Ho. simpl.
      destruct (check_add_or_mul_cage_verdict self (infer_assignment csp) mul
                  A a (Some B) (Some b) _ HcA) as (r & Hr & Hv).
      destruct (check_add_or_mul_cage_verdict self (infer_assignment csp) mul
                  B b (Some A) (Some a) _ HcB) as (r' & Hr' & Hv').
      exists r. split; [done |]. by rewrite Hr', (bool_iff_eq _ _ _ Hv Hv').
    + rewrite Ho. simpl. exists (Z.max a b =? Z.min a b * Cage.goal cage_A).
      split; [done |]. by rewrite Z.max_comm, Z.min_comm.
    + by destruct (same_cage_not_fixed self A B cage_A cage_A Hwf).
  - destruct (check_cage_constraint_returns self csp (infer_assignment csp)
                A a _ Hwf Hops HcA) as [ra Hra].
    destruct (check_cage_constraint_returns self csp (infer_assignment csp)
                B b _ Hwf Hops HcB) as [rb Hrb].
    rewrite Hra, Hrb. simpl.
    exists (ra && rb). by destruct ra, rb.
Qed.

(** * Construction *)

Lemma init_stages file :
  init file =
  (st ← read_board file;
   cage_dict ← read_goals file st.2;
   neighbors ← collect_neighbors (size file);
   Ok (mk (size file) (range (size file * size file))
         (list_to_map ((λ v, (v, range_from 1 (size file + 1)))
                         <$> range (size file * size file)))
         neighbors st.1 cage_dict)).
Proof.
  unfold init, read_board, read_goals, collect_neighbors.
  destruct (for_each (read_board_line _ _) _ _) as [[cage_board cage_dict]|];
    reflexivity.
Qed.

Lemma init_inv file self :
  init file = Ok self →
  ∃ cage_board cage_dict0 cage_dict neighbors,
    read_board file = Ok (cage_board, cage_dict0) ∧
    read_goals file cage_dict0 = Ok cage_dict ∧
    collect_neighbors (size file) = Ok neighbors ∧
    N self = size file ∧
    Kenken.neighbors self = neighbors ∧
    Kenken.cage_board self = cage_board ∧
    Kenken.cage_dict self = cage_dict.
Proof.
  rewrite init_stages.
  destruct (read_board file) as [st|]; [|done].
  destruct st as [cage_board cage_dict0]. simpl.
  destruct (read_goals file cage_dict0) as [cage_dict|] eqn:Hgoals; [|done].
  simpl.
  destruct (collect_neighbors (size file)) as [neighbors|]; [|done]. simpl.
  intros [= <-]. by eexists _, _, _, _.
Qed.

(** ** Loops *)

Lemma elem_of_range n x : x ∈ range n ↔ 0 ≤ x < n.
Proof.
  unfold range. rewrite list_elem_of_fmap. split.
  - intros (k & -> & Hk). apply elem_of_seq in Hk. lia.
  - intros Hx. exists (Z.to_nat x). split; [lia |].
    apply elem_of_seq. lia.
Qed.

Lemma for_each_app {A S} (body : A → S → outcome S) l1 l2 s :
  for_each body (l1 ++ l2) s = for_each body l1 s ≫= for_each body l2.
Proof.
  revert s. induction l1 as [|x l1 IH]; intros s; simpl; [done |].
  destruct (body x s); simpl; [apply IH | done].
Qed.

Lemma for_each_ext {A S} (body body' : A → S → outcome S) l s :
  (∀ x s, x ∈ l → body x s = body' x s) →
  for_each body l s = for_each body' l s.
Proof.
  revert s. induction l as [|x l IH]; intros s Hext; simpl; [done |].
  rewrite Hext by left. destruct (body' x s); simpl; [|done].
  apply IH. intros y s' Hy. apply Hext. by right.
Qed.

(** A loop whose body cannot fail is a left fold. *)
Lemma for_each_pure {A S} (body : A → S → outcome S) (f : S → A → S) l s :
  (∀ x s, x ∈ l → body x s = Ok (f s x)) →
  for_each body l s = Ok (foldl f s l).
Proof.
  revert s. induction l as [|x l IH]; intros s Hpure; simpl; [done |].
  rewrite Hpure by left. simpl. apply IH.
  intros y s' Hy. apply Hpure. by right.
Qed.

(** ** The neighbour relation *)

Lemma collect_neighbors_fold n :
  collect_neighbors n =
  Ok (foldl (λ m v, <[v := neighbors_of n v]> m) ∅ (range (n * n))).
Proof.
  unfold collect_neighbors. apply for_each_pure.
  intros v m Hv. apply elem_of_range in Hv.
  unfold add_neighbors. rewrite variable_to_xy_ok by nia. reflexivity.
Qed.

Lemma lookup_foldl_insert {V} (f : Z → V) (l : list Z) (m : gmap Z V) x :
  foldl (λ m v, <[v := f v]> m) m l !! x =
  if decide (x ∈ l) then Some (f x) else m !! x.
Proof.
  revert m. induction l as [|v l IH]; intros m; simpl.
  - destruct (decide (x ∈ [])) as [Hx|]; [by apply elem_of_nil in Hx | done].
  - rewrite IH. destruct (decide (x ∈ l)) as [Hx|Hx].
    + rewrite decide_True; [done | by right].
    + destruct (decide (x = v)) as [->|Hne].
      * rewrite decide_True by left. apply lookup_insert_eq.
      * rewrite decide_False; [by apply lookup_insert_ne |].
        intros [?|?]%elem_of_cons; done.
Qed.

Lemma collect_neighbors_lookup n neighbors X :
  collect_neighbors n = Ok neighbors →
  neighbors !! X = if decide (0 ≤ X < n * n) then Some (neighbors_of n X) else None.
Proof.
  rewrite collect_neighbors_fold. intros [= <-].
  rewrite lookup_foldl_insert, lookup_empty.
  destruct (decide (X ∈ range (n * n))) as [HX|HX];
    rewrite elem_of_range in HX; [by rewrite decide_True | by rewrite decide_False].
Qed.

Lemma elem_of_add_row_col_step n row col acc t Y :
  Y ∈ add_row_col n row col acc t ↔
  Y ∈ acc ∨ (t ≠ row ∧ Y = xy_to_variable n t col) ∨
            (t ≠ col ∧ Y = xy_to_variable n row t).
Proof.
  unfold add_row_col.
  destruct (Z.eqb_spec t row), (Z.eqb_spec t col); simpl;
    rewrite ?elem_of_app, ?list_elem_of_singleton; tauto.
Qed.

Lemma elem_of_add_row_col n row col l acc Y :
  Y ∈ foldl (add_row_col n row col) acc l ↔
  Y ∈ acc ∨
  ∃ t, t ∈ l ∧ ((t ≠ row ∧ Y = xy_to_variable n t col) ∨
                (t ≠ col ∧ Y = xy_to_variable n row t)).
Proof.
  revert acc. induction l as [|t l IH]; intros acc; simpl.
  - split; [auto | intros [?|(t & Ht & _)]; [done | by apply elem_of_nil in Ht]].
  - rewrite IH, elem_of_add_row_col_step.
    setoid_rewrite elem_of_cons. split.
    + intros [[HY | HP] | (t' & Ht' & HP)];
        [by left | right; exists t; auto | right; exists t'; auto].
    + intros [HY | (t' & [-> | Ht'] & HP)];
        [by left; left | by left; right | right; eauto].
Qed.

Lemma elem_of_neighbors_of n X Y :
  Y ∈ neighbors_of n X ↔ row_col_mate n X Y.
Proof.
  unfold neighbors_of, row_col_mate. rewrite elem_of_add_row_col.
  setoid_rewrite elem_of_range. split.
  - intros [HY | HY]; [by apply elem_of_nil in HY | done].
  - auto.
Qed.

(** On a board of positive size, the mates of a variable are the other
    variables of its row and of its column. *)
Lemma row_col_mate_spec n X Y :
  0 < n → 0 ≤ X < n * n →
  row_col_mate n X Y ↔
  0 ≤ Y < n * n ∧ Y ≠ X ∧ (Y / n = X / n ∨ Y mod n = X mod n).
Proof.
  intros Hn HX.
  destruct (variable_div_mod_range n X Hn HX) as [Hrow Hcol].
  unfold row_col_mate. split.
  - intros (t & Ht & [[Hne ->] | [Hne ->]]).
    + split; [by apply xy_to_variable_range |].
      split.
      * intros Heq. apply (f_equal (λ v, v / n)) in Heq.
        rewrite xy_to_variable_div in Heq by lia. done.
      * right. by apply xy_to_variable_mod.
    + split; [by apply xy_to_variable_range |].
      split.
      * intros Heq. apply (f_equal (λ v, v mod n)) in Heq.
        rewrite xy_to_variable_mod in Heq by lia. done.
      * left. by apply xy_to_variable_div.
  - intros (HY & Hne & Hsame).
    destruct (variable_div_mod_range n Y Hn HY) as [HrowY HcolY].
    assert (n ≠ 0) as Hn0 by lia.
    pose proof (xy_to_variable_div_mod n X Hn0) as HXeq.
    pose proof (xy_to_variable_div_mod n Y Hn0) as HYeq.
    destruct Hsame as [Hsame | Hsame].
    + exists (Y mod n). split; [done |]. right. split.
      * intros Heq. apply Hne. rewrite <- HXeq, <- HYeq. by rewrite Hsame, Heq.
      * by rewrite <- Hsame.
    + exists (Y / n). split; [done |]. left. split.
      * intros Heq. apply Hne. rewrite <- HXeq, <- HYeq. by rewrite Hsame, Heq.
      * by rewrite <- Hsame.
Qed.

Lemma row_col_mate_sym n A B :
  0 ≤ A < n * n → 0 ≤ B < n * n →
  row_col_mate n A B ↔ row_col_mate n B A.
Proof.
  intros HA HB. destruct (Z.lt_trichotomy n 0) as [Hn | [-> | Hn]].
  - split; intros (t & Ht & _); lia.
  - lia.
  - rewrite !row_col_mate_spec by done. intuition congruence.
Qed.

Lemma init_neighbors file self X :
  init file = Ok self →
  neighbors self !! X =
  if decide (on_board self X) then Some (neighbors_of (N self) X) else None.
Proof.
  intros Hinit.
  destruct (init_inv _ _ Hinit) as (cb & cd0 & cd & nb & _ & _ & Hnb & HN & Hnb' & _).
  unfold on_board. rewrite HN, Hnb'. by apply collect_neighbors_lookup.
Qed.

(** C8. The neighbour relation that [__init__] builds has an entry for every
    variable of the puzzle and is symmetric: [B] is listed among the
    neighbours of [A] exactly when [A] is listed among those of [B]. *)
Theorem neighbors_symmetric file self A B :
  init file = Ok self →
  A ∈ variables self → B ∈ variables self →
  ∃ nA nB, neighbors self !! A = Some nA ∧ neighbors self !! B = Some nB ∧
           (B ∈ nA ↔ A ∈ nB).
Proof.
  intros Hinit HA HB.
  assert (variables self = range (N self * N self)) as Hvars.
  { rewrite init_stages in Hinit.
    destruct (read_board file) as [st|]; [|done]. simpl in Hinit.
    destruct (read_goals file st.2); [|done]. simpl in Hinit.
    destruct (collect_neighbors (size file)); [|done]. simpl in Hinit.
    by injection Hinit as <-. }
  rewrite Hvars, elem_of_range in HA, HB.
  exists (neighbors_of (N self) A), (neighbors_of (N self) B).
  rewrite !(init_neighbors _ _ _ Hinit).
  rewrite !decide_True by done. split; [done |]. split; [done |].
  rewrite !elem_of_neighbors_of. by apply row_col_mate_sym.
Qed.

(** C7. Two distinct variables that are neighbours (one is listed among the
    neighbours of the other) and receive equal values are rejected, whatever
    the current assignment and domains; in a puzzle that [__init__] has built
    on a board of positive size, two distinct variables of one row or of one
    column are neighbours, and are rejected with equal values. *)
Theorem neighbors_equal_values_rejected :
  (∀ self csp A B a b nA nB,
     A ≠ B →
     neighbors self !! A = Some nA → neighbors self !! B = Some nB →
     B ∈ nA ∨ A ∈ nB →
     a = b →
     constraints self csp A a B b = Ok false) ∧
  (∀ file self csp A B a b,
     init file = Ok self → 0 < N self →
     A ≠ B → on_board self A → on_board self B →
     A / N self = B / N self ∨ A mod N self = B mod N self →
     a = b →
     constraints self csp A a B b = Ok false).
Proof.
  split; [intros self csp A B a b nA nB; apply constraints_conflict |].
  intros file self csp A B a b Hinit Hpos Hne HA HB Hsame Heq.
  apply (constraints_conflict self csp A a B b
           (neighbors_of (N self) A) (neighbors_of (N self) B));
    [done | | | | done].
  - rewrite (init_neighbors _ _ _ Hinit). by rewrite decide_True.
  - rewrite (init_neighbors _ _ _ Hinit). by rewrite decide_True.
  - left. apply elem_of_neighbors_of, row_col_mate_spec; [done | done |].
    split; [done |]. split; [congruence |].
    destruct Hsame as [Hrow | Hcol]; [by left | by right].
Qed.

(** ** Reading the board *)

Lemma py_index_nonneg {A} (l : list A) i :
  0 ≤ i →
  py_index l i =
  match l !! Z.to_nat i with Some x => Ok x | None => Raise IndexError end.
Proof.
  intros Hi. unfold py_index.
  destruct (Z.ltb_spec i 0); [lia |].
  destruct (Z.leb_spec 0 i); [|lia]. simpl.
  destruct (Z.ltb_spec i (Z.of_nat (length l))); [done |].
  rewrite lookup_ge_None_2; [done | lia].
Qed.

Lemma py_index_nil {A} i : py_index (@nil A) i = Raise IndexError.
Proof. unfold py_index. destruct (_ && _); [by rewrite lookup_nil | done]. Qed.

Lemma py_setitem_nonneg {A} (l : list A) i x :
  0 ≤ i < Z.of_nat (length l) → py_setitem l i x = Ok (<[Z.to_nat i := x]> l).
Proof.
  intros Hi. unfold py_setitem.
  destruct (Z.ltb_spec i 0); [lia |].
  destruct (Z.leb_spec 0 i); [|lia].
  destruct (Z.ltb_spec i (Z.of_nat (length l))); [done | lia].
Qed.

Lemma py_setitem_beyond {A} (l : list A) i x :
  Z.of_nat (length l) ≤ i → py_setitem l i x = Raise IndexError.
Proof.
  intros Hi. unfold py_setitem.
  destruct (Z.ltb_spec i 0); [lia |].
  destruct (Z.ltb_spec i (Z.of_nat (length l))); [lia |].
  by rewrite andb_false_r.
Qed.

Lemma length_list_ascii_of_string line :
  length (String.list_ascii_of_string line) = String.length line.
Proof. induction line as [|ch line IH]; simpl; [done | by rewrite IH]. Qed.

Lemma for_each_cons {A S} (body : A → S → outcome S) x l s :
  for_each body (x :: l) s = body x s ≫= for_each body l.
Proof. done. Qed.

Lemma bind_Ok {A B} (a : A) (f : A → outcome B) : Ok a ≫= f = f a.
Proof. done. Qed.

Lemma for_each_chars n i (pre suf : list Ascii.ascii) st :
  for_each
    (λ j st, ch ← py_index (pre ++ suf) j; place n i j (String ch "") st)
    (Z.of_nat <$> seq (length pre) (length suf)) st =
  for_each (place_cell n)
    (imap (λ j ch, (i, Z.of_nat (length pre + j), String ch "")) suf) st.
Proof.
  revert pre st. induction suf as [|ch suf IH]; intros pre st; [done |].
  rewrite imap_cons.
  change (length (ch :: suf)) with (S (length suf)).
  rewrite <- cons_seq, fmap_cons, !for_each_cons.
  rewrite py_index_nonneg by lia. rewrite Nat2Z.id, list_lookup_middle by done.
  rewrite bind_Ok, Nat.add_0_r.
  change (place_cell n (i, Z.of_nat (length pre), String ch "") st)
    with (place n i (Z.of_nat (length pre)) (String ch "") st).
  destruct (place n i (Z.of_nat (length pre)) (String ch "") st) as [st'|];
    [|done].
  rewrite !bind_Ok.
  specialize (IH (pre ++ [ch]) st').
  rewrite <- app_assoc, length_app in IH. simpl in IH.
  rewrite Nat.add_1_r in IH. rewrite IH.
  f_equal. apply imap_ext. intros k x _. simpl. do 3 f_equal. lia.
Qed.

Lemma read_board_line_cells file i st :
  read_board_line (size file) (board_lines file) i st =
  for_each (place_cell (size file)) (line_cells i (line_at file i)) st.
Proof.
  unfold read_board_line, line_cells. fold (line_at file i).
  unfold range. rewrite Nat2Z.id, <- length_list_ascii_of_string.
  apply (for_each_chars (size file) i []).
Qed.

Lemma for_each_bind {A B S} (body : B → S → outcome S) (f : A → list B) l s :
  for_each (λ x, for_each body (f x)) l s = for_each body (l ≫= f) s.
Proof.
  revert s. induction l as [|x l IH]; intros s; [done |].
  rewrite bind_cons, for_each_app. simpl.
  destruct (for_each body (f x) s); simpl; [apply IH | done].
Qed.

Lemma read_board_cells file :
  read_board file =
  for_each (place_cell (size file)) (cells file)
    ((λ _, (λ _, Zero) <$> range (size file)) <$> range (size file), ∅).
Proof.
  unfold read_board, cells. rewrite <- for_each_bind.
  apply for_each_ext. intros i st _. apply read_board_line_cells.
Qed.

(** *** One cell *)

Lemma list_insert_alter_lookup {A} (f : A → A) (l : list A) i x :
  l !! i = Some x → <[i := f x]> l = alter f i l.
Proof.
  revert i. induction l as [|y l IH]; intros [|i] Hi; try done; simpl in *.
  - by injection Hi as ->.
  - f_equal. by apply IH.
Qed.

Lemma square_initial n :
  square n ((λ _, (λ _, Zero) <$> range n) <$> range n).
Proof.
  unfold square, range. split.
  - by rewrite !length_fmap, length_seq.
  - intros row (i & -> & _)%list_elem_of_fmap.
    by rewrite !length_fmap, length_seq.
Qed.

Lemma square_lookup n cage_board i :
  square n cage_board → 0 ≤ i < n →
  ∃ row, cage_board !! Z.to_nat i = Some row ∧ length row = Z.to_nat n.
Proof.
  intros [Hlen Hrows] Hi.
  destruct (lookup_lt_is_Some_2 cage_board (Z.to_nat i)) as [row Hrow]; [lia |].
  exists row. split; [done |]. eapply Hrows, list_elem_of_lookup_2, Hrow.
Qed.

Lemma square_place_board n cage_board c :
  square n cage_board → square n (place_board cage_board c).
Proof.
  intros [Hlen Hrows]. unfold place_board. split.
  - by rewrite length_alter.
  - intros row (k & Hk)%list_elem_of_lookup_1.
    rewrite list_lookup_alter in Hk. case_decide.
    + destruct (cage_board !! Z.to_nat c.1.1) as [row'|] eqn:Hrow'; [|done].
      injection Hk as <-. rewrite length_insert.
      eapply Hrows, list_elem_of_lookup_2, Hrow'.
    + eapply Hrows, list_elem_of_lookup_2, Hk.
Qed.

Lemma place_cell_ok n c cage_board cage_dict :
  square n cage_board → 0 ≤ c.1.1 < n → 0 ≤ c.1.2 < n →
  place_cell n c (cage_board, cage_dict) =
  Ok (place_board cage_board c, place_dict n cage_dict c).
Proof.
  destruct c as [[i j] cage_id]. simpl. intros Hsq Hi Hj.
  destruct (square_lookup _ _ _ Hsq Hi) as (row & Hrow & Hlen).
  unfold place_cell, place, place_board, place_dict. simpl.
  rewrite py_index_nonneg, Hrow, bind_Ok by lia.
  rewrite py_setitem_nonneg, bind_Ok by lia.
  rewrite py_setitem_nonneg, bind_Ok by (destruct Hsq; lia).
  rewrite (list_insert_alter_lookup (λ row, <[Z.to_nat j := Id cage_id]> row)
             _ _ _ Hrow).
  unfold py_getitem.
  destruct (cage_dict !! cage_id) as [cage|] eqn:Hcage; simpl.
  - by rewrite Hcage.
  - by rewrite lookup_insert_eq, bind_Ok, insert_insert_eq.
Qed.

Lemma place_cell_beyond n c cage_board cage_dict :
  square n cage_board → 0 ≤ c.1.1 < n → n ≤ c.1.2 →
  place_cell n c (cage_board, cage_dict) = Raise IndexError.
Proof.
  destruct c as [[i j] cage_id]. simpl. intros Hsq Hi Hj.
  destruct (square_lookup _ _ _ Hsq Hi) as (row & Hrow & Hlen).
  unfold place_cell, place. simpl.
  rewrite py_index_nonneg, Hrow, bind_Ok by lia.
  by rewrite py_setitem_beyond by lia.
Qed.

(** *** All cells *)

Lemma place_cells_ok n cs cage_board cage_dict :
  square n cage_board → Forall (in_range n) cs →
  for_each (place_cell n) cs (cage_board, cage_dict) =
  Ok (foldl place_board cage_board cs, foldl (place_dict n) cage_dict cs).
Proof.
  revert cage_board cage_dict.
  induction cs as [|c cs IH]; intros cage_board cage_dict Hsq Hcs; [done |].
  apply Forall_cons in Hcs as [[Hi Hj] Hcs].
  rewrite for_each_cons, place_cell_ok, bind_Ok by done.
  apply IH; [by apply square_place_board | done].
Qed.

Lemma place_cells_beyond n cs cage_board cage_dict :
  square n cage_board →
  Forall (λ c, 0 ≤ c.1.1 < n ∧ 0 ≤ c.1.2) cs →
  ¬ Forall (in_range n) cs →
  for_each (place_cell n) cs (cage_board, cage_dict) = Raise IndexError.
Proof.
  revert cage_board cage_dict.
  induction cs as [|c cs IH]; intros cage_board cage_dict Hsq Hcs Hnot.
  { by destruct Hnot. }
  apply Forall_cons in Hcs as [[Hi Hj] Hcs].
  rewrite for_each_cons.
  destruct (decide (c.1.2 < n)) as [Hlt|Hge].
  - rewrite place_cell_ok, bind_Ok by (done || lia).
    apply IH; [by apply square_place_board | done |].
    intros Hall. apply Hnot. apply Forall_cons. split; [|done].
    split; [done | lia].
  - by rewrite place_cell_beyond by (done || lia).
Qed.

(** *** The cells of a file *)

Lemma elem_of_line_cells i line c :
  c ∈ line_cells i line ↔
  ∃ k ch, String.list_ascii_of_string line !! k = Some ch ∧
          c = (i, Z.of_nat k, String ch "").
Proof.
  unfold line_cells. rewrite elem_of_lookup_imap. split.
  - intros (k & ch & -> & Hk). eauto.
  - intros (k & ch & Hk & ->). eauto.
Qed.

Lemma elem_of_cells file c :
  c ∈ cells file ↔
  0 ≤ c.1.1 < size file ∧
  ∃ k ch, String.list_ascii_of_string (line_at file c.1.1) !! k = Some ch ∧
          c.1.2 = Z.of_nat k ∧ c.2 = String ch "".
Proof.
  unfold cells. rewrite list_elem_of_bind. split.
  - intros (i & (k & ch & Hk & ->)%elem_of_line_cells & Hi%elem_of_range).
    simpl. eauto 10.
  - destruct c as [[i j] cage_id]. simpl.
    intros (Hi & k & ch & Hk & -> & ->).
    exists i. split; [|by apply elem_of_range].
    apply elem_of_line_cells. eauto.
Qed.

Lemma cells_nonneg file :
  Forall (λ c, 0 ≤ c.1.1 < size file ∧ 0 ≤ c.1.2) (cells file).
Proof.
  apply Forall_forall. intros c (Hi & k & ch & _ & -> & _)%elem_of_cells.
  split; [done | lia].
Qed.

Lemma cells_in_range file :
  lines_fit file ↔ Forall (in_range (size file)) (cells file).
Proof.
  rewrite Forall_forall. split.
  - intros Hfit c (Hi & k & ch & Hk & Hj & _)%elem_of_cells.
    split; [done |]. rewrite Hj.
    apply lookup_lt_Some in Hk. rewrite length_list_ascii_of_string in Hk.
    specialize (Hfit _ Hi). lia.
  - intros Hall i Hi.
    destruct (Z.le_gt_cases (Z.of_nat (String.length (line_at file i)))
                (size file)) as [|Hlong]; [done |].
    destruct (lookup_lt_is_Some_2 (String.list_ascii_of_string (line_at file i))
                (Z.to_nat (size file))) as [ch Hch].
    { rewrite length_list_ascii_of_string. lia. }
    assert ((i, size file, String ch "") ∈ cells file) as Hc.
    { apply elem_of_cells. simpl. split; [done |].
      exists (Z.to_nat (size file)), ch. split; [done |]. split; [lia | done]. }
    destruct (Hall _ Hc) as [_ Hj]. simpl in Hj. lia.
Qed.

(** *** The dictionary after the board *)

Lemma members_cons n c cs cage_id :
  members n (c :: cs) cage_id =
  if decide (c.2 = cage_id)
  then xy_to_variable n c.1.1 c.1.2 :: members n cs cage_id
  else members n cs cage_id.
Proof.
  unfold members. rewrite filter_cons. by case_decide.
Qed.

Lemma place_dict_lookup n d c cage_id :
  place_dict n d c !! cage_id =
  if decide (c.2 = cage_id)
  then Some (Cage.append_var (xy_to_variable n c.1.1 c.1.2)
               (default (Cage.new cage_id) (d !! cage_id)))
  else d !! cage_id.
Proof.
  unfold place_dict. case_decide as Heq.
  - subst cage_id. apply lookup_insert_eq.
  - by apply lookup_insert_ne.
Qed.

Lemma place_dict_fold n cs d cage_id :
  foldl (place_dict n) d cs !! cage_id =
  if decide (members n cs cage_id = []) then d !! cage_id
  else Some (extend (default (Cage.new cage_id) (d !! cage_id))
               (members n cs cage_id)).
Proof.
  revert d. induction cs as [|c cs IH]; intros d; [done |].
  change (foldl (place_dict n) d (c :: cs))
    with (foldl (place_dict n) (place_dict n d c) cs).
  rewrite IH, members_cons, place_dict_lookup.
  destruct (decide (c.2 = cage_id)) as [Heq|Hne]; [|done].
  rewrite (decide_False (P := _ :: _ = [])) by done.
  simpl. case_decide as Hnil.
  - by rewrite Hnil.
  - unfold extend, Cage.append_var. simpl. by rewrite <- app_assoc.
Qed.

Lemma board_dict_lookup file cage_id :
  board_dict file !! cage_id =
  if decide (member_cells file cage_id = []) then None
  else Some {| Cage.goal := -1; Cage.opr := ""; Cage.id := cage_id;
               Cage.vars := member_cells file cage_id |}.
Proof.
  unfold board_dict, member_cells. rewrite place_dict_fold, lookup_empty.
  by case_decide.
Qed.

Lemma members_nil n cs cage_id :
  members n cs cage_id = [] ↔ ∀ c, c ∈ cs → c.2 ≠ cage_id.
Proof.
  induction cs as [|c cs IH].
  - split; [by intros _ c Hc%elem_of_nil | done].
  - rewrite members_cons. case_decide as Heq.
    + split; [done |]. intros Hall. destruct (Hall c); [left | done].
    + rewrite IH. split.
      * intros Hall c' [->|Hc']%elem_of_cons; auto.
      * intros Hall c' Hc'. apply Hall. by right.
Qed.

Lemma elem_of_members n cs cage_id v :
  v ∈ members n cs cage_id ↔
  ∃ c, c ∈ cs ∧ c.2 = cage_id ∧ v = xy_to_variable n c.1.1 c.1.2.
Proof.
  unfold members. rewrite list_elem_of_fmap.
  setoid_rewrite list_elem_of_filter. split.
  - intros (c & -> & Heq & Hc). eauto.
  - intros (c & Hc & Heq & ->). eauto.
Qed.

Lemma size_board_dict file : base.size (board_dict file) = cage_count file.
Proof.
  unfold cage_count. rewrite <- size_dom. f_equal.
  apply set_eq. intros cage_id.
  rewrite elem_of_dom, elem_of_list_to_set, list_elem_of_fmap.
  rewrite board_dict_lookup. case_decide as Hnil.
  - split; [by intros [? ?] |]. intros (c & -> & Hc).
    unfold member_cells in Hnil. rewrite members_nil in Hnil.
    by destruct (Hnil c Hc).
  - split; [|by eauto]. intros _.
    destruct (member_cells file cage_id) as [|v vs] eqn:Hm; [done |].
    assert (v ∈ member_cells file cage_id) as Hv by (rewrite Hm; left).
    apply elem_of_members in Hv as (c & Hc & Heq & _). eauto.
Qed.

Lemma read_board_ok file :
  lines_fit file →
  read_board file =
  Ok (foldl place_board
        ((λ _, (λ _, Zero) <$> range (size file)) <$> range (size file))
        (cells file),
      board_dict file).
Proof.
  intros Hfit. rewrite read_board_cells.
  apply place_cells_ok; [apply square_initial | by apply cells_in_range].
Qed.

Lemma read_board_long_line file :
  ¬ lines_fit file → read_board file = Raise IndexError.
Proof.
  intros Hfit. rewrite read_board_cells.
  apply place_cells_beyond;
    [apply square_initial | apply cells_nonneg | by rewrite <- cells_in_range].
Qed.

Lemma read_board_inv file st :
  read_board file = Ok st →
  lines_fit file ∧
  st = (foldl place_board
          ((λ _, (λ _, Zero) <$> range (size file)) <$> range (size file))
          (cells file),
        board_dict file).
Proof.
  intros Hread.
  destruct (decide (Forall (in_range (size file)) (cells file))) as [Hall|Hnot].
  - apply cells_in_range in Hall. split; [done |].
    rewrite read_board_ok in Hread by done. congruence.
  - rewrite <- cells_in_range in Hnot.
    rewrite read_board_long_line in Hread by done. done.
Qed.

(** ** Reading the goals *)

Lemma arity_ok_check opr len :
  arity_ok opr len ↔
  (if String.eqb opr "-" || String.eqb opr "/" then Z.of_nat len = 2
   else if String.eqb opr "=" then Z.of_nat len = 1 else True).
Proof.
  unfold arity_ok.
  destruct (String.eqb_spec opr "-") as [->|H1]; simpl.
  { split; [intros [H _]; rewrite H by auto; done | intros H; split; [lia | done]]. }
  destruct (String.eqb_spec opr "/") as [->|H2]; simpl.
  { split; [intros [H _]; rewrite H by auto; done | intros H; split; [lia | done]]. }
  destruct (String.eqb_spec opr "=") as [->|H3].
  { split; [intros [_ H]; rewrite H by auto; done |].
    intros H; split; [by intros [?|?] | lia]. }
  split; [done |]. intros _. split; [by intros [?|?] | done].
Qed.

Lemma read_goal_line_Ok goals idx d d' :
  read_goal_line goals idx d = Ok d' ↔
  ∃ cage_id opr goal cage,
    goals !! Z.to_nat idx = Some (cage_id, opr, goal) ∧
    d !! cage_id = Some cage ∧
    arity_ok opr (length (Cage.vars cage)) ∧
    d' = <[cage_id := Cage.set_goal goal (Cage.set_opr opr cage)]> d.
Proof.
  unfold read_goal_line, py_getitem.
  destruct (goals !! Z.to_nat idx) as [[[cage_id opr] goal]|] eqn:Hline.
  2: { split; [done | by intros (? & ? & ? & ? & ? & _)]. }
  destruct (d !! cage_id) as [cage|] eqn:Hcage; simpl.
  2: { split; [done |].
       intros (? & ? & ? & ? & [= <- <- <-] & Hc & _). congruence. }
  pose proof (arity_ok_check opr (length (Cage.vars cage))) as Harity.
  destruct (String.eqb opr "-" || String.eqb opr "/").
  { destruct (Z.eqb_spec (Z.of_nat (length (Cage.vars cage))) 2) as [Hlen|Hlen].
    - split.
      + intros [= <-]. exists cage_id, opr, goal, cage. by rewrite Harity.
      + intros (? & ? & ? & ? & [= <- <- <-] & Hc & _ & ->). congruence.
    - split; [done |].
      intros (? & ? & ? & cage' & [= <- <- <-] & Hc & Hok & _).
      assert (cage' = cage) as -> by congruence. by apply Harity in Hok. }
  destruct (String.eqb opr "=").
  { destruct (Z.eqb_spec (Z.of_nat (length (Cage.vars cage))) 1) as [Hlen|Hlen].
    - split.
      + intros [= <-]. exists cage_id, opr, goal, cage. by rewrite Harity.
      + intros (? & ? & ? & ? & [= <- <- <-] & Hc & _ & ->). congruence.
    - split; [done |].
      intros (? & ? & ? & cage' & [= <- <- <-] & Hc & Hok & _).
      assert (cage' = cage) as -> by congruence. by apply Harity in Hok. }
  split.
  - intros [= <-]. exists cage_id, opr, goal, cage. by rewrite Harity.
  - intros (? & ? & ? & ? & [= <- <- <-] & Hc & _ & ->). congruence.
Qed.

Lemma same_cages_refl d : same_cages d d.
Proof. intros cage_id. split; [done | eauto]. Qed.

Lemma same_cages_trans d1 d2 d3 :
  same_cages d1 d2 → same_cages d2 d3 → same_cages d1 d3.
Proof.
  intros H12 H23 cage_id.
  destruct (H12 cage_id) as [HN12 HS12], (H23 cage_id) as [HN23 HS23]. split.
  - by rewrite HN23.
  - intros c3 Hc3. destruct (HS23 _ Hc3) as (c2 & Hc2 & Hv2 & Hi2).
    destruct (HS12 _ Hc2) as (c1 & Hc1 & Hv1 & Hi1).
    exists c1. split; [done |]. split; congruence.
Qed.

Lemma same_cages_set d cage_id cage opr goal :
  d !! cage_id = Some cage →
  same_cages d (<[cage_id := Cage.set_goal goal (Cage.set_opr opr cage)]> d).
Proof.
  intros Hc cage_id'. destruct (decide (cage_id = cage_id')) as [<-|Hne].
  - rewrite lookup_insert_eq, Hc. split; [done |].
    intros ? [= <-]. by exists cage.
  - rewrite lookup_insert_ne by done. split; [done | eauto].
Qed.

Lemma same_cages_vars d d' cage_id cage :
  same_cages d d' → d !! cage_id = Some cage →
  ∃ cage', d' !! cage_id = Some cage' ∧ Cage.vars cage' = Cage.vars cage.
Proof.
  intros Hsame Hc. destruct (Hsame cage_id) as [HN HS].
  destruct (d' !! cage_id) as [cage'|] eqn:Hc'.
  - destruct (HS _ eq_refl) as (c & Hc0 & Hv & _).
    exists cage'. split; [done | congruence].
  - rewrite (proj1 HN eq_refl) in Hc. done.
Qed.

Lemma arity_inv_set d cage_id cage opr goal :
  arity_inv d → arity_ok opr (length (Cage.vars cage)) →
  arity_inv (<[cage_id := Cage.set_goal goal (Cage.set_opr opr cage)]> d).
Proof.
  intros Hinv Hok cage_id' cage'.
  destruct (decide (cage_id = cage_id')) as [<-|Hne].
  - rewrite lookup_insert_eq. by intros [= <-].
  - rewrite lookup_insert_ne by done. apply Hinv.
Qed.

(** The loop over the goal lines, started from any dictionary [d] that has
    the cages of [d0]. *)
Lemma read_goals_loop goals l d0 d :
  same_cages d0 d → arity_inv d →
  (∀ idx, idx ∈ l → line_ok d0 goals idx) →
  ∃ d', for_each (read_goal_line goals) l d = Ok d' ∧
        same_cages d0 d' ∧ arity_inv d'.
Proof.
  revert d. induction l as [|idx l IH]; intros d Hsame Hinv Hok.
  { exists d. done. }
  destruct (Hok idx) as (cage_id & opr & goal & cage0 & Hline & Hc0 & Harity);
    [left |].
  destruct (same_cages_vars _ _ _ _ Hsame Hc0) as (cage & Hc & Hvars).
  rewrite <- Hvars in Harity.
  rewrite for_each_cons.
  rewrite (proj2 (read_goal_line_Ok goals idx d _)) by (by eexists _, _, _, _).
  rewrite bind_Ok. apply IH.
  - eapply same_cages_trans; [done | by apply same_cages_set].
  - by apply arity_inv_set.
  - intros idx' Hidx'. apply Hok. by right.
Qed.

Lemma read_goals_loop_inv goals l d0 d d' :
  same_cages d0 d →
  for_each (read_goal_line goals) l d = Ok d' →
  ∀ idx, idx ∈ l → line_ok d0 goals idx.
Proof.
  revert d. induction l as [|idx l IH]; intros d Hsame Hloop idx' Hidx'.
  { by apply elem_of_nil in Hidx'. }
  rewrite for_each_cons in Hloop.
  destruct (read_goal_line goals idx d) as [d1|] eqn:Hline; [|done].
  rewrite bind_Ok in Hloop.
  apply read_goal_line_Ok in Hline
    as (cage_id & opr & goal & cage & Hline & Hc & Harity & ->).
  apply elem_of_cons in Hidx' as [->|Hidx'].
  - destruct (Hsame cage_id) as [_ HS].
    destruct (HS _ Hc) as (cage0 & Hc0 & Hvars & _).
    exists cage_id, opr, goal, cage0. by rewrite <- Hvars.
  - eapply IH; [|done..].
    eapply same_cages_trans; [done | by apply same_cages_set].
Qed.

Lemma board_dict_Some file cage_id cage :
  board_dict file !! cage_id = Some cage ↔
  member_cells file cage_id ≠ [] ∧
  cage = {| Cage.goal := -1; Cage.opr := ""; Cage.id := cage_id;
            Cage.vars := member_cells file cage_id |}.
Proof.
  rewrite board_dict_lookup. case_decide; split.
  - done.
  - by intros [? _].
  - by intros [= <-].
  - by intros [_ ->].
Qed.

Lemma lines_ok_file file :
  (∀ idx, idx ∈ range (Z.of_nat (cage_count file)) →
          line_ok (board_dict file) (goal_lines file) idx) ↔
  (cage_count file ≤ length (goal_lines file))%nat ∧
  ∀ cage_id opr goal,
    (cage_id, opr, goal) ∈ goal_lines_read file →
    member_cells file cage_id ≠ [] ∧
    arity_ok opr (length (member_cells file cage_id)).
Proof.
  unfold goal_lines_read. split.
  - intros Hok. split.
    + destruct (cage_count file) as [|k] eqn:Hcount; [lia |].
      destruct (Hok (Z.of_nat k)) as (? & ? & ? & ? & Hline & _).
      { apply elem_of_range. lia. }
      apply lookup_lt_Some in Hline. lia.
    + intros cage_id opr goal (k & Hk & Hlt)%elem_of_take.
      destruct (Hok (Z.of_nat k))
        as (cage_id' & opr' & goal' & cage & Hline & Hc & Harity).
      { apply elem_of_range. lia. }
      rewrite Nat2Z.id, Hk in Hline. injection Hline as <- <- <-.
      apply board_dict_Some in Hc as [Hne ->]. done.
  - intros [Hlen Hok] idx Hidx%elem_of_range.
    destruct (lookup_lt_is_Some_2 (goal_lines file) (Z.to_nat idx))
      as [[[cage_id opr] goal] Hline]; [lia |].
    destruct (Hok cage_id opr goal) as [Hne Harity].
    { apply elem_of_take. exists (Z.to_nat idx). split; [done | lia]. }
    eexists cage_id, opr, goal, _. split; [done |].
    split; [by apply board_dict_Some | done].
Qed.

(** What [__init__] needs of a file, and no more. *)
Lemma init_ok_iff file : (∃ self, init file = Ok self) ↔ accepted file.
Proof.
  unfold accepted. rewrite <- lines_ok_file. split.
  - intros [self Hinit].
    destruct (init_inv _ _ Hinit)
      as (cb & cd0 & cd & nb & Hboard & Hgoals & _).
    apply read_board_inv in Hboard as [Hfit [= _ ->]].
    split; [done |]. rewrite <- size_board_dict.
    eapply read_goals_loop_inv; [apply same_cages_refl | apply Hgoals].
  - intros [Hfit Hok]. rewrite init_stages, read_board_ok, bind_Ok by done.
    simpl. unfold read_goals. rewrite size_board_dict.
    destruct (read_goals_loop (goal_lines file)
                (range (Z.of_nat (cage_count file)))
                (board_dict file) (board_dict file))
      as (cd & -> & _); [apply same_cages_refl | | done |].
    { intros cage_id cage [_ ->]%board_dict_Some. simpl.
      split; [by intros [?|?] | done]. }
    rewrite bind_Ok, collect_neighbors_fold, bind_Ok. eauto.
Qed.

Lemma for_each_raise {A S} (body : A → S → outcome S) l s e :
  for_each body l s = Raise e → ∃ x s', x ∈ l ∧ body x s' = Raise e.
Proof.
  revert s. induction l as [|x l IH]; intros s Hloop; [done |].
  rewrite for_each_cons in Hloop.
  destruct (body x s) as [s1|e1] eqn:Hbody.
  - rewrite bind_Ok in Hloop. destruct (IH _ Hloop) as (y & s' & Hy & Hraise).
    exists y, s'. split; [by right | done].
  - injection Hloop as ->. exists x, s. split; [left | done].
Qed.

Lemma read_goal_line_raise goals idx d e :
  read_goal_line goals idx d = Raise e → construction_error e.
Proof.
  unfold read_goal_line, py_getitem, construction_error.
  destruct (goals !! Z.to_nat idx) as [[[cage_id opr] goal]|];
    [|intros [= <-]; tauto].
  destruct (d !! cage_id) as [cage|]; simpl; [|intros [= <-]; tauto].
  destruct (_ || _).
  { destruct (_ =? 2); [done | intros [= <-]; tauto]. }
  destruct (String.eqb opr "="); [|done].
  destruct (_ =? 1); [done | intros [= <-]; tauto].
Qed.

(** [__init__] ends with an index error, a key error or one of its two
    arity assertions when it does not return a puzzle. *)
Lemma init_raise file e : init file = Raise e → construction_error e.
Proof.
  rewrite init_stages. intros Hinit.
  destruct (decide (Forall (in_range (size file)) (cells file))) as [Hall|Hnot].
  - apply cells_in_range in Hall. rewrite read_board_ok, bind_Ok in Hinit by done.
    simpl in Hinit.
    destruct (read_goals file (board_dict file)) as [cd|e'] eqn:Hgoals.
    + by rewrite bind_Ok, collect_neighbors_fold, bind_Ok in Hinit.
    + injection Hinit as ->. unfold read_goals in Hgoals.
      apply for_each_raise in Hgoals as (idx & d & _ & Hline).
      by eapply read_goal_line_raise.
  - rewrite <- cells_in_range in Hnot.
    rewrite read_board_long_line in Hinit by done.
    injection Hinit as <-. by left.
Qed.

(** C5, amended.  A file in which a goal line that the constructor reads
    (it reads as many goal lines as the board has cages) gives the
    operator '-' or '/' to a cage that does not have exactly two cells, or
    the operator '=' to a cage that does not have exactly one cell, is
    rejected: [__init__] returns no puzzle and ends with one of its
    construction errors.  A file whose board lines fit the board and whose
    goal lines (one read per cage) each name a cage of the board with the
    arity of its operator is accepted. *)
Theorem arity_checked_at_construction file :
  (∀ cage_id opr goal,
     (cage_id, opr, goal) ∈ goal_lines_read file →
     ((opr = "-" ∨ opr = "/") ∧ length (member_cells file cage_id) ≠ 2%nat) ∨
     (opr = "=" ∧ length (member_cells file cage_id) ≠ 1%nat) →
     ∃ e, init file = Raise e ∧ construction_error e) ∧
  (accepted file → ∃ self, init file = Ok self).
Proof.
  split.
  - intros cage_id opr goal Hline Hbad.
    destruct (init file) as [self|e] eqn:Hinit;
      [|exists e; split; [done | by apply (init_raise file)]].
    assert (accepted file) as (_ & _ & Hok) by (apply init_ok_iff; eauto).
    destruct (Hok _ _ _ Hline) as [_ [Htwo Hone]].
    destruct Hbad as [[Hop Hlen] | [Hop Hlen]]; [by destruct Hlen; auto |].
    destruct Hlen; auto.
  - apply init_ok_iff.
Qed.

(** ** The board after reading *)

Lemma cell_at_place_board cage_board c i j :
  cell_at (place_board cage_board c) i j =
  if decide (i = Z.to_nat c.1.1 ∧ j = Z.to_nat c.1.2 ∧
             is_Some (cell_at cage_board i j))
  then Some (Id c.2) else cell_at cage_board i j.
Proof.
  unfold cell_at, place_board. rewrite list_lookup_alter.
  destruct (decide (Z.to_nat c.1.1 = i)) as [<-|Hne].
  - destruct (cage_board !! Z.to_nat c.1.1) as [row|] eqn:Hrow; simpl.
    + rewrite list_lookup_insert.
      destruct (decide (Z.to_nat c.1.2 = j ∧ (Z.to_nat c.1.2 < length row)%nat))
        as [[<- Hlt]|Hno].
      * rewrite decide_True; [done |].
        split; [done |]. split; [done |]. by apply lookup_lt_is_Some_2.
      * rewrite decide_False; [done |].
        intros (_ & -> & Hsome). apply Hno. split; [done |].
        by apply lookup_lt_is_Some_1.
    + rewrite decide_False; [done |]. by intros (_ & _ & [? ?]).
  - rewrite decide_False; [done |]. intros [? _]. congruence.
Qed.

Lemma cell_at_initial n i j c :
  cell_at ((λ _, (λ _, Zero) <$> range n) <$> range n) i j = Some c → c = Zero.
Proof.
  unfold cell_at. rewrite list_lookup_fmap.
  destruct (range n !! i); simpl; [|done].
  rewrite list_lookup_fmap. destruct (range n !! j); simpl; [|done].
  congruence.
Qed.

Lemma cell_at_square n cage_board i j :
  square n cage_board → (i < Z.to_nat n)%nat → (j < Z.to_nat n)%nat →
  is_Some (cell_at cage_board i j).
Proof.
  intros Hsq Hi Hj.
  destruct (square_lookup n cage_board (Z.of_nat i) Hsq) as (row & Hrow & Hlen);
    [lia |].
  unfold cell_at. rewrite Nat2Z.id in Hrow. rewrite Hrow. simpl.
  apply lookup_lt_is_Some_2. lia.
Qed.

Lemma square_fold n cs cage_board :
  square n cage_board → square n (foldl place_board cage_board cs).
Proof.
  revert cage_board. induction cs as [|c cs IH]; intros cage_board Hsq; [done |].
  simpl. by apply IH, square_place_board.
Qed.

(** A cage identifier on the board was written by the placement of a cell. *)
Lemma cell_at_fold_Id cs cage_board i j cage_id :
  Forall (λ c, 0 ≤ c.1.1 ∧ 0 ≤ c.1.2) cs →
  cell_at (foldl place_board cage_board cs) i j = Some (Id cage_id) →
  (Z.of_nat i, Z.of_nat j, cage_id) ∈ cs ∨
  cell_at cage_board i j = Some (Id cage_id).
Proof.
  revert cage_board.
  induction cs as [|c cs IH]; intros cage_board Hcs Hcell; [by right |].
  apply Forall_cons in Hcs as [[Hi Hj] Hcs]. simpl in Hcell.
  destruct (IH _ Hcs Hcell) as [Hin | Hcell1]; [left; by right |].
  rewrite cell_at_place_board in Hcell1. case_decide as Hpos; [|by right].
  destruct Hpos as (-> & -> & _). injection Hcell1 as <-.
  left. apply elem_of_cons. left.
  destruct c as [[ci cj] cid]. simpl in *. by rewrite !Z2Nat.id by lia.
Qed.

(** A placed cell holds a cage identifier at the end. *)
Lemma cell_at_fold_filled n cs cage_board i j :
  square n cage_board →
  (i < Z.to_nat n)%nat → (j < Z.to_nat n)%nat →
  (∃ cage_id, (Z.of_nat i, Z.of_nat j, cage_id) ∈ cs) ∨
  (∃ cage_id, cell_at cage_board i j = Some (Id cage_id)) →
  ∃ cage_id, cell_at (foldl place_board cage_board cs) i j = Some (Id cage_id).
Proof.
  revert cage_board.
  induction cs as [|c cs IH]; intros cage_board Hsq Hi Hj Hor.
  { destruct Hor as [[cage_id Hin] | Hcell]; [|done].
    by apply elem_of_nil in Hin. }
  simpl. apply IH; [by apply square_place_board | done | done |].
  pose proof (cell_at_square _ _ _ _ Hsq Hi Hj) as Hsome.
  destruct Hor as [[cage_id [<-|Hin]%elem_of_cons] | [cage_id Hcell]].
  - right. exists cage_id. rewrite cell_at_place_board. simpl.
    rewrite decide_True; [done |]. rewrite !Nat2Z.id. done.
  - left. eauto.
  - right. rewrite cell_at_place_board. case_decide; eauto.
Qed.

Lemma get_cage_cell_at self X :
  0 < N self → 0 ≤ X →
  get_cage self X =
  match cell_at (cage_board self) (Z.to_nat (X / N self))
          (Z.to_nat (X mod N self)) with
  | Some (Id cage_id) => py_getitem (cage_dict self) cage_id
  | Some Zero => Raise KeyError
  | None => Raise IndexError
  end.
Proof.
  intros Hn HX. unfold get_cage, cell_at.
  rewrite variable_to_xy_ok, bind_Ok by lia. simpl.
  rewrite py_index_nonneg by (apply Z.div_pos; lia).
  destruct (cage_board self !! Z.to_nat (X / N self)) as [row|]; simpl; [|done].
  rewrite py_index_nonneg by (apply Z.mod_pos_bound; lia).
  destruct (row !! Z.to_nat (X mod N self)) as [[|cage_id]|]; done.
Qed.

(** ** What construction establishes *)

Lemma arity_inv_board_dict file : arity_inv (board_dict file).
Proof.
  intros cage_id cage [_ ->]%board_dict_Some. simpl.
  split; [by intros [?|?] | done].
Qed.

Lemma init_inv_board file self :
  init file = Ok self →
  lines_fit file ∧
  N self = size file ∧
  cage_board self =
    foldl place_board
      ((λ _, (λ _, Zero) <$> range (size file)) <$> range (size file))
      (cells file) ∧
  read_goals file (board_dict file) = Ok (cage_dict self) ∧
  same_cages (board_dict file) (cage_dict self) ∧
  arity_inv (cage_dict self).
Proof.
  intros Hinit.
  destruct (init_inv _ _ Hinit)
    as (cb & cd0 & cd & nb & Hboard & Hgoals & _ & HN & _ & Hcb & Hcd).
  apply read_board_inv in Hboard as [Hfit [= -> ->]].
  subst cd. split; [done |]. split; [done |]. split; [done |]. split; [done |].
  unfold read_goals in Hgoals.
  pose proof (read_goals_loop_inv _ _ _ _ _ (same_cages_refl _) Hgoals) as Hok.
  destruct (read_goals_loop _ _ _ _ (same_cages_refl _)
              (arity_inv_board_dict file) Hok) as (cd & Hcd & Hsame & Hinv).
  rewrite Hgoals in Hcd. by injection Hcd as <-.
Qed.

Lemma square_board file self :
  init file = Ok self → square (N self) (cage_board self).
Proof.
  intros (_ & -> & -> & _)%init_inv_board.
  apply square_fold, square_initial.
Qed.

(** The cage found for a variable of the board lists the variable. *)
Lemma init_members file self X cage :
  init file = Ok self → on_board self X →
  get_cage self X = Ok cage → X ∈ Cage.vars cage.
Proof.
  intros Hinit HX Hcage.
  pose proof (square_board _ _ Hinit) as Hsq.
  destruct (init_inv_board _ _ Hinit) as (_ & HN & Hcb & _ & Hsame & _).
  unfold on_board in HX.
  destruct (Z.lt_trichotomy (N self) 0) as [Hneg | [Hzero | Hpos]]; [|nia|].
  { destruct Hsq as [Hlen _].
    unfold get_cage in Hcage. rewrite variable_to_xy_ok, bind_Ok in Hcage by lia.
    simpl in Hcage.
    destruct (cage_board self) as [|row rows]; [|simpl in Hlen; lia].
    by rewrite py_index_nil in Hcage. }
  rewrite get_cage_cell_at in Hcage by lia.
  destruct (cell_at _ _ _) as [[|cage_id]|] eqn:Hcell; try done.
  unfold py_getitem in Hcage.
  destruct (cage_dict self !! cage_id) as [cage'|] eqn:Hdict; [|done].
  injection Hcage as ->.
  rewrite Hcb in Hcell. apply cell_at_fold_Id in Hcell as [Hin | Hzero].
  2: { by apply cell_at_initial in Hzero. }
  2: { eapply Forall_impl; [apply cells_nonneg |]. simpl. tauto. }
  destruct (variable_div_mod_range (N self) X Hpos HX) as [Hrow Hcol].
  rewrite !Z2Nat.id in Hin by lia.
  destruct (Hsame cage_id) as [_ HS].
  destruct (HS _ Hdict) as (cage0 & [_ ->]%board_dict_Some & -> & _). simpl.
  apply elem_of_members. eexists. split; [apply Hin |]. split; [done |].
  simpl. rewrite <- HN. symmetry. apply xy_to_variable_div_mod. lia.
Qed.

(** Every puzzle that [__init__] returns is well formed. *)
Lemma init_well_formed file self : init file = Ok self → well_formed self.
Proof.
  intros Hinit.
  destruct (init_inv_board _ _ Hinit) as (_ & HN & _ & _ & Hsame & Hinv).
  split.
  - intros X. rewrite (init_neighbors _ _ _ Hinit).
    case_decide as HX; split; intros HX';
      [done | by eauto | by destruct HX' | done].
  - intros X nX Y. rewrite (init_neighbors _ _ _ Hinit).
    case_decide; [|done]. intros [= <-]. apply elem_of_neighbors_of.
  - intros cage_id cage Hc. destruct (Hsame cage_id) as [_ HS].
    by destruct (HS _ Hc) as (cage0 & [_ ->]%board_dict_Some & _ & ->).
  - intros X cage. by apply (init_members file).
  - intros cage_id cage Hc. by apply (Hinv _ _ Hc).
  - intros cage_id cage Hc. by apply (Hinv _ _ Hc).
Qed.

(** When every board line fills its row, every variable has a cage. *)
Lemma init_complete file self :
  init file = Ok self → 0 ≤ size file → lines_full file → complete self.
Proof.
  intros Hinit Hsize Hfull X HX.
  pose proof (square_board _ _ Hinit) as Hsq.
  destruct (init_inv_board _ _ Hinit) as (_ & HN & Hcb & _ & Hsame & _).
  unfold on_board in HX.
  assert (0 < N self) as Hpos by nia.
  destruct (variable_div_mod_range (N self) X Hpos HX) as [Hrow Hcol].
  rewrite get_cage_cell_at by lia.
  destruct (lookup_lt_is_Some_2
              (String.list_ascii_of_string (line_at file (X / N self)))
              (Z.to_nat (X mod N self))) as [ch Hch].
  { rewrite length_list_ascii_of_string.
    specialize (Hfull (X / N self)). rewrite <- HN in Hfull. lia. }
  assert ((X / N self, X mod N self, String ch "") ∈ cells file) as Hin.
  { apply elem_of_cells. simpl. split; [lia |].
    exists (Z.to_nat (X mod N self)), ch. split; [done |]. split; [lia | done]. }
  destruct (cell_at_fold_filled (N self) (cells file)
              ((λ _, (λ _, Zero) <$> range (size file)) <$> range (size file))
              (Z.to_nat (X / N self)) (Z.to_nat (X mod N self)))
    as [cage_id Hcell]; [rewrite HN; apply square_initial | lia | lia | |].
  { left. exists (String ch ""). by rewrite !Z2Nat.id by lia. }
  rewrite Hcb, Hcell.
  apply cell_at_fold_Id in Hcell as [Hin' | Hzero].
  2: { by apply cell_at_initial in Hzero. }
  2: { eapply Forall_impl; [apply cells_nonneg |]. simpl. tauto. }
  assert (member_cells file cage_id ≠ []) as Hne.
  { unfold member_cells. rewrite members_nil. intros Hall.
    by apply (Hall _ Hin'). }
  destruct (same_cages_vars (board_dict file) (cage_dict self) cage_id
              {| Cage.goal := -1; Cage.opr := ""; Cage.id := cage_id;
                 Cage.vars := member_cells file cage_id |} Hsame)
    as (cage & Hcage & _); [by apply board_dict_Some |].
  exists cage. by apply py_getitem_lookup.
Qed.

(** The operator of a cage at the end of the loop over the goal lines is
    the one of a line read for it; a cage that no line names is untouched. *)
Lemma read_goals_loop_opr goals l d d' cage_id cage :
  for_each (read_goal_line goals) l d = Ok d' →
  d' !! cage_id = Some cage →
  (∃ idx goal, idx ∈ l ∧
     goals !! Z.to_nat idx = Some (cage_id, Cage.opr cage, goal)) ∨
  (d !! cage_id = Some cage ∧
   ∀ idx opr goal, idx ∈ l → goals !! Z.to_nat idx ≠ Some (cage_id, opr, goal)).
Proof.
  revert d. induction l as [|idx l IH]; intros d Hloop Hcage.
  { injection Hloop as ->. right. split; [done |].
    by intros ??? ?%elem_of_nil. }
  rewrite for_each_cons in Hloop.
  destruct (read_goal_line goals idx d) as [d1|] eqn:Hline; [|done].
  rewrite bind_Ok in Hloop.
  apply read_goal_line_Ok in Hline
    as (cage_id1 & opr1 & goal1 & cage1 & Hline & Hc1 & _ & ->).
  destruct (IH _ Hloop Hcage) as [(idx' & goal' & Hin & Hl) | [Hd1 Hnot]].
  { left. exists idx', goal'. split; [by right | done]. }
  destruct (decide (cage_id1 = cage_id)) as [->|Hne].
  - rewrite lookup_insert_eq in Hd1. injection Hd1 as <-.
    left. exists idx, goal1. split; [left | done].
  - rewrite lookup_insert_ne in Hd1 by done. right. split; [done |].
    intros idx' opr goal [->|Hin]%elem_of_cons; [congruence | by apply Hnot].
Qed.

(** When every goal line read carries one of the five operators and every
    cage of the board is named by a line, all operators are known. *)
Lemma init_known_operators file self :
  init file = Ok self →
  (∀ cage_id opr goal,
     (cage_id, opr, goal) ∈ goal_lines_read file → known_operator opr) →
  (∀ cage_id, member_cells file cage_id ≠ [] →
     ∃ opr goal, (cage_id, opr, goal) ∈ goal_lines_read file) →
  known_operators self.
Proof.
  intros Hinit Hknown Hnamed cage_id cage Hcage.
  destruct (init_inv_board _ _ Hinit) as (_ & _ & _ & Hgoals & _ & _).
  unfold read_goals in Hgoals. rewrite size_board_dict in Hgoals.
  assert (∀ idx line, idx ∈ range (Z.of_nat (cage_count file)) →
            goal_lines file !! Z.to_nat idx = Some line →
            line ∈ goal_lines_read file) as Hread.
  { intros idx line Hidx%elem_of_range Hline. apply elem_of_take.
    exists (Z.to_nat idx). split; [done | lia]. }
  destruct (read_goals_loop_opr _ _ _ _ _ _ Hgoals Hcage)
    as [(idx & goal & Hin & Hline) | [[Hne _]%board_dict_Some Hnot]].
  - apply (Hknown cage_id _ goal). by eapply Hread.
  - destruct (Hnamed _ Hne) as (opr & goal & (k & Hk & Hlt)%elem_of_take).
    destruct (Hnot (Z.of_nat k) opr goal).
    + apply elem_of_range. lia.
    + by rewrite Nat2Z.id.
Qed.

(** ** Unknown operators *)

Lemma accepted_with_goal_line file idx cage_id opr goal opr' :
  accepted file →
  goal_lines file !! idx = Some (cage_id, opr, goal) →
  ¬ known_operator opr' →
  accepted (with_goal_line file idx (cage_id, opr', goal)).
Proof.
  intros (Hfit & Hlen & Hok) Hline Hunknown.
  split; [done |]. split.
  { unfold with_goal_line. simpl. rewrite length_insert. apply Hlen. }
  intros cage_id' opr'' goal' (k & Hk & Hlt)%elem_of_take.
  change (cage_count (with_goal_line file idx (cage_id, opr', goal)))
    with (cage_count file) in Hlt.
  change (member_cells (with_goal_line file idx (cage_id, opr', goal)) cage_id')
    with (member_cells file cage_id').
  simpl in Hk. apply list_lookup_insert_Some in Hk
    as [(-> & [= <- <- <-] & _) | [Hne Hk]].
  - destruct (Hok cage_id opr goal) as [Hmem _].
    { apply elem_of_take. eauto. }
    split; [done |]. unfold known_operator in Hunknown.
    split; [intros [->| ->] | intros ->]; tauto.
  - apply (Hok cage_id' opr'' goal'). apply elem_of_take. eauto.
Qed.

(** C3, amended.  Construction does not look at an operator
    beyond the arity checks for '-', '/' and '=': replacing the operator of
    a goal line of an accepted file by an unknown one gives a file that is
    accepted too, and no failure of construction is an assertion about an
    unknown operator.  The unknown operator is found when the predicate
    dispatches on the cage, and then as an assertion failure, never as a
    boolean: in the per-variable check of a variable of the cage, and in
    the same-cage dispatch for two distinct variables of the cage that rule
    1 does not reject. *)
Theorem unknown_operator_found_by_predicate :
  (∀ file idx cage_id opr goal opr',
     (∃ self, init file = Ok self) →
     goal_lines file !! idx = Some (cage_id, opr, goal) →
     ¬ known_operator opr' →
     ∃ self', init (with_goal_line file idx (cage_id, opr', goal)) = Ok self') ∧
  (∀ file e,
     init file = Raise e →
     e ≠ AssertionError unknown_opr ∧ e ≠ AssertionError unknown_pair_opr) ∧
  (∀ self csp inferences X x cage,
     get_cage self X = Ok cage →
     ¬ known_operator (Cage.opr cage) →
     check_cage_constraint self csp inferences X x =
     Raise (AssertionError unknown_opr)) ∧
  (∀ self csp A a B b nA nB cage_A cage_B,
     A ≠ B →
     neighbors self !! A = Some nA → neighbors self !! B = Some nB →
     ¬ ((B ∈ nA ∨ A ∈ nB) ∧ a = b) →
     get_cage self A = Ok cage_A → get_cage self B = Ok cage_B →
     Cage.id cage_A = Cage.id cage_B →
     ¬ known_operator (Cage.opr cage_A) →
     constraints self csp A a B b = Raise (AssertionError unknown_pair_opr)).
Proof.
  split; [|split; [|split]].
  - intros file idx cage_id opr goal opr' Hinit Hline Hunknown.
    apply init_ok_iff. eapply accepted_with_goal_line; [|done..].
    by apply init_ok_iff.
  - intros file e Hinit.
    destruct (init_raise _ _ Hinit) as [-> | [-> | [-> | ->]]]; done.
  - intros self csp inferences X x cage Hcage Hunknown.
    unfold check_cage_constraint. rewrite Hcage, bind_Ok.
    unfold known_operator in Hunknown.
    destruct (String.eqb_spec (Cage.opr cage) "+"); [tauto |].
    destruct (String.eqb_spec (Cage.opr cage) "-"); [tauto |].
    destruct (String.eqb_spec (Cage.opr cage) "*"); [tauto |].
    destruct (String.eqb_spec (Cage.opr cage) "/"); [tauto |].
    destruct (String.eqb_spec (Cage.opr cage) "="); [tauto | done].
  - intros self csp A a B b nA nB cage_A cage_B Hne HA HB Hno HcA HcB Hid
      Hunknown.
    rewrite (constraints_cages _ _ _ _ _ _ _ _ _ _ Hne HA HB Hno HcA HcB).
    simpl. unfold Cage.eq. rewrite Hid, String.eqb_refl.
    unfold known_operator in Hunknown.
    destruct (String.eqb_spec (Cage.opr cage_A) "+"); [tauto |].
    destruct (String.eqb_spec (Cage.opr cage_A) "-"); [tauto |].
    destruct (String.eqb_spec (Cage.opr cage_A) "*"); [tauto |].
    destruct (String.eqb_spec (Cage.opr cage_A) "/"); [tauto |].
    destruct (String.eqb_spec (Cage.opr cage_A) "="); [tauto | done].
Qed.

(** * The example puzzles *)

Lemma init_example : init example_puzzle = Ok (built example_puzzle).
Proof. vm_compute. reflexivity. Qed.

Lemma on_board_example X : 0 ≤ X < 9 → on_board (built example_puzzle) X.
Proof. intros HX. unfold on_board. by vm_compute (N _). Qed.

Lemma well_formed_example : well_formed (built example_puzzle).
Proof. apply (init_well_formed example_puzzle), init_example. Qed.

Lemma lines_full_example : lines_full example_puzzle.
Proof.
  intros i Hi. simpl in Hi.
  assert (i = 0 ∨ i = 1 ∨ i = 2) as [-> | [-> | ->]] by lia; reflexivity.
Qed.

Lemma complete_example : complete (built example_puzzle).
Proof.
  apply (init_complete example_puzzle);
    [apply init_example | done | apply lines_full_example].
Qed.

Lemma goal_lines_read_example :
  goal_lines_read example_puzzle = goal_lines example_puzzle.
Proof. vm_compute. reflexivity. Qed.

Lemma known_operators_example : known_operators (built example_puzzle).
Proof.
  apply (bool_decide_unpack
           (map_Forall (λ _ cage, known_operator (Cage.opr cage))
              (cage_dict (built example_puzzle)))).
  vm_compute. exact I.
Qed.

Lemma accepted_example : accepted example_puzzle.
Proof.
  split; [|split].
  - intros i Hi. rewrite (lines_full_example i Hi). done.
  - vm_compute. lia.
  - intros cage_id opr goal Hline. rewrite goal_lines_read_example in Hline.
    simpl in Hline. unfold arity_ok.
    repeat (apply elem_of_cons in Hline as [[= -> -> ->] | Hline];
            [split; [by vm_compute | by vm_compute; split; [intros [?|?] | intros ?]] |]).
    by apply elem_of_nil in Hline.
Qed.

(** * The theorems at the example puzzles *)

Lemma check_add_or_mul_cage_ignores_candidates_witness :
  check_add_or_mul_cage (built example_puzzle) {[ 0 := 1 ]} add 0 1
    (Some 1) (Some 2) =
  check_add_or_mul_cage (built example_puzzle) {[ 0 := 1 ]} add 0 3
    (Some 1) (Some 3) ∧
  ∃ r, check_add_or_mul_cage (built example_puzzle) {[ 0 := 1 ]} add 0 1
         (Some 1) (Some 2) = Ok r ∧
       (r = true ↔
        verdict 3 (combine add (assigned_values {[ 0 := 1 ]} [0; 1]))
          (length (assigned_values {[ 0 := 1 ]} [0; 1])) (length [0; 1])).
Proof.
  destruct (check_add_or_mul_cage_ignores_candidates (built example_puzzle)
              {[ 0 := 1 ]} add 0 (Some 1) 1 3 (Some 2) (Some 3)) as [Hsame Hval].
  split; [exact Hsame |].
  apply (Hval (Cage.mk 3 "+" "A" [0; 1])). vm_compute. reflexivity.
Defined.

Lemma neighbors_equal_values_rejected_witness :
  constraints (built example_puzzle) (fresh_csp 3) 0 2 1 2 = Ok false ∧
  constraints (built example_puzzle) (fresh_csp 3) 1 3 7 3 = Ok false.
Proof.
  destruct neighbors_equal_values_rejected as [Hlisted Hline].
  split.
  - apply (Hlisted (built example_puzzle) (fresh_csp 3) 0 1 2 2
             [3; 1; 6; 2] [0; 4; 7; 2]).
    + lia.
    + vm_compute. reflexivity.
    + vm_compute. reflexivity.
    + left. by apply py_in_spec.
    + reflexivity.
  - apply (Hline example_puzzle (built example_puzzle) (fresh_csp 3) 1 7 3 3).
    + vm_compute. reflexivity.
    + vm_compute. reflexivity.
    + lia.
    + apply on_board_example. lia.
    + apply on_board_example. lia.
    + right. vm_compute. reflexivity.
    + reflexivity.
Defined.


Lemma fixed_value_branch_unreachable_witness :
  Cage.opr (Cage.mk 3 "+" "A" [0; 1]) ≠ "=" ∧
  constraints (built example_puzzle) (fresh_csp 3) 4 2 3 1 ≠
  Raise (AssertionError fixed_pair).
Proof.
  destruct (fixed_value_branch_unreachable (built example_puzzle))
    as [Hcage Hcall].
  { apply (init_well_formed example_puzzle). vm_compute. reflexivity. }
  split.
  - apply (Hcage 0 1 (Cage.mk 3 "+" "A" [0; 1]) (Cage.mk 3 "+" "A" [0; 1])).
    + lia.
    + apply on_board_example. lia.
    + apply on_board_example. lia.
    + vm_compute. reflexivity.
    + vm_compute. reflexivity.
    + reflexivity.
  - apply Hcall.
Defined.

Lemma neighbors_symmetric_witness :
  ∃ nA nB, neighbors (built example_puzzle) !! 0 = Some nA ∧
           neighbors (built example_puzzle) !! 1 = Some nB ∧
           (1 ∈ nA ↔ 0 ∈ nB).
Proof.
  apply (neighbors_symmetric example_puzzle (built example_puzzle) 0 1).
  - vm_compute. reflexivity.
  - by apply py_in_spec.
  - by apply py_in_spec.
Defined.

Lemma arity_checked_at_construction_witness :
  (∃ e, init difference_puzzle = Raise e ∧ construction_error e) ∧
  (∃ self, init example_puzzle = Ok self).
Proof.
  split.
  - apply (proj1 (arity_checked_at_construction difference_puzzle) "A" "-" 1).
    + apply elem_of_take. exists 0%nat. split; [reflexivity |].
      vm_compute. lia.
    + left. split; [by left |]. vm_compute. lia.
  - apply (proj2 (arity_checked_at_construction example_puzzle)).
    apply accepted_example.
Defined.

Lemma unknown_operator_found_by_predicate_witness :
  (∃ self', init (with_goal_line example_puzzle 0 ("A", "%", 3)) = Ok self') ∧
  (AssertionError arity_two ≠ AssertionError unknown_opr ∧
   AssertionError arity_two ≠ AssertionError unknown_pair_opr) ∧
  check_cage_constraint (built unknown_puzzle) (fresh_csp 2) ∅ 0 1 =
    Raise (AssertionError unknown_opr) ∧
  constraints (built unknown_puzzle) (fresh_csp 2) 0 1 1 2 =
    Raise (AssertionError unknown_pair_opr).
Proof.
  destruct unknown_operator_found_by_predicate
    as (Hinit & Hfail & Hcheck & Hpair).
  assert (¬ known_operator "%") as Hunknown.
  { intros [H | [H | [H | [H | H]]]]; discriminate H. }
  split; [|split; [|split]].
  - apply (Hinit example_puzzle 0%nat "A" "+" 3 "%").
    + exists (built example_puzzle). vm_compute. reflexivity.
    + reflexivity.
    + exact Hunknown.
  - apply (Hfail difference_puzzle). vm_compute. reflexivity.
  - apply (Hcheck (built unknown_puzzle) (fresh_csp 2) ∅ 0 1
             (Cage.mk 3 "%" "A" [0; 1])).
    + vm_compute. reflexivity.
    + exact Hunknown.
  - apply (Hpair (built unknown_puzzle) (fresh_csp 2) 0 1 1 2 [2; 1] [0; 3]
             (Cage.mk 3 "%" "A" [0; 1]) (Cage.mk 3 "%" "A" [0; 1])).
    + lia.
    + vm_compute. reflexivity.
    + vm_compute. reflexivity.
    + intros [_ Heq]. discriminate Heq.
    + vm_compute. reflexivity.
    + vm_compute. reflexivity.
    + reflexivity.
    + exact Hunknown.
Defined.

(** * Where the code departs from the specification *)

(** C1.  The code at the failing input.  In [example_puzzle] the variables
    0 and 1 are the two cells of the sum cage "A" of goal 3, and nothing is
    assigned.  The candidates 3 and 2 are values of the two domains and are
    not rejected by rule 1.  With the two candidates counted in, the total
    is 5 with every member assigned, which the claim rejects; the code
    accepts, because [check_add_or_mul_cage] totals the assignment only and
    finds 0 below the goal with members unassigned. *)
Theorem same_cage_sum_product_drops_candidates :
  init example_puzzle = Ok (built example_puzzle) ∧
  get_cage (built example_puzzle) 0 = Ok (Cage.mk 3 "+" "A" [0; 1]) ∧
  get_cage (built example_puzzle) 1 = Ok (Cage.mk 3 "+" "A" [0; 1]) ∧
  domains (built example_puzzle) !! 0 = Some [1; 2; 3] ∧
  domains (built example_puzzle) !! 1 = Some [1; 2; 3] ∧
  infer_assignment (fresh_csp 3) = ∅ ∧
  constraints (built example_puzzle) (fresh_csp 3) 0 3 1 2 = Ok true ∧
  spec_verdict_with_candidates (Cage.mk 3 "+" "A" [0; 1]) ∅ add 0 3 1 2
    = false.
Proof. vm_compute. repeat split; reflexivity. Qed.

(** C4 as the specification words it fails on the code.  In [modulo_puzzle]
    the variable 0 is in the cage "A", which carries the operator '%', and
    the variable 2 below it is alone in the fixed-value cage "B" of goal 1.
    Called for [0 = 1] and [2 = 2], the predicate checks the cage of 0 first
    and fails the assertion of line 212; called for [2 = 2] and [0 = 1], it
    checks the cage of 2 first, finds 2 different from the goal, and returns
    false without looking at the cage of 0. *)
Lemma constraints_commutative_counterexample :
  init modulo_puzzle = Ok (built modulo_puzzle) ∧
  get_cage (built modulo_puzzle) 0 = Ok (Cage.mk 3 "%" "A" [0; 1]) ∧
  get_cage (built modulo_puzzle) 2 = Ok (Cage.mk 1 "=" "B" [2]) ∧
  constraints (built modulo_puzzle) (fresh_csp 2) 0 1 2 2 =
    Raise (AssertionError unknown_opr) ∧
  constraints (built modulo_puzzle) (fresh_csp 2) 2 2 0 1 = Ok false.
Proof. vm_compute. repeat split; reflexivity. Qed.

(** C5 as the specification words it fails on the code.  [late_line_puzzle]
    declares a difference cage "B" of three cells, on its third goal line.
    The board has two cages, so the constructor reads two goal lines, both
    naming "A": it returns a puzzle, in which "B" has its three cells and
    the operator and goal that [Cage("B")] started with. *)
Lemma arity_checked_at_construction_counterexample :
  ("B", "-", 1) ∈ goal_lines late_line_puzzle ∧
  member_cells late_line_puzzle "B" = [1; 2; 3] ∧
  init late_line_puzzle = Ok (built late_line_puzzle) ∧
  cage_dict (built late_line_puzzle) !! "B" = Some (Cage.mk (-1) "" "B" [1; 2; 3]).
Proof.
  split; [|vm_compute; repeat split; reflexivity].
  apply list_elem_of_lookup. by exists 2%nat.
Qed.


(** C3 as the specification words it fails on the code.  [unknown_puzzle]
    gives the operator '%' to the cage "A": construction returns a puzzle
    that carries the operator, the predicate answers with a boolean where
    rule 1 decides, and the assertion fires only when the predicate
    dispatches on the cage. *)
Lemma unknown_operator_counterexample :
  init unknown_puzzle = Ok (built unknown_puzzle) ∧
  get_cage (built unknown_puzzle) 0 = Ok (Cage.mk 3 "%" "A" [0; 1]) ∧
  constraints (built unknown_puzzle) (fresh_csp 2) 0 1 1 1 = Ok false ∧
  constraints (built unknown_puzzle) (fresh_csp 2) 0 1 1 2 =
    Raise (AssertionError unknown_pair_opr).
Proof. vm_compute. repeat split; reflexivity. Qed.

(** * Further properties of the predicate *)

(** ** Sum and product cages, assigned in full or in part *)

Lemma length_assigned_values_all inferences vars :
  length (assigned_values inferences vars) = length vars ↔
  ∀ V, V ∈ vars → is_Some (inferences !! V).
Proof.
  induction vars as [|V vars IH]; simpl.
  - split; [by intros _ V HV%elem_of_nil | done].
  - pose proof (length_assigned_values inferences vars) as Hle.
    destruct (inferences !! V) as [val|] eqn:HV; simpl.
    + split.
      * intros [= Hlen] V' [->|HV']%elem_of_cons; [by rewrite HV |].
        by apply IH.
      * intros Hall. f_equal. apply IH. intros V' HV'. apply Hall. by right.
    + split; [lia |]. intros Hall.
      destruct (Hall V) as [? ?]; [left | congruence].
Qed.

Lemma check_add_or_mul_cage_cases
    self inferences fn A a B b cage :
  get_cage self A = Ok cage →
  ∃ r, check_add_or_mul_cage self inferences fn A a B b = Ok r ∧
       ((∀ V, V ∈ Cage.vars cage → is_Some (inferences !! V)) →
        (r = true ↔
         combine fn (assigned_values inferences (Cage.vars cage)) =
         Cage.goal cage)) ∧
       ((∃ V, V ∈ Cage.vars cage ∧ inferences !! V = None) →
        (r = true ↔
         combine fn (assigned_values inferences (Cage.vars cage)) <
         Cage.goal cage)).
Proof.
  intros Hcage.
  destruct (check_add_or_mul_cage_verdict self inferences fn A a B b _ Hcage)
    as (r & Hr & Hv).
  exists r. split; [done |].
  pose proof (length_assigned_values inferences (Cage.vars cage)) as Hle.
  pose proof (length_assigned_values_all inferences (Cage.vars cage)) as Hall.
  unfold verdict in Hv. split.
  - intros Hfull. apply (proj2 Hall) in Hfull. rewrite Hv. split; [|tauto].
    intros [[_ Hlt] | [_ Heq]]; [lia | done].
  - intros (V & HV & Hnone). rewrite Hv.
    assert (length (assigned_values inferences (Cage.vars cage))
            ≠ length (Cage.vars cage)) as Hne.
    { intros Heq. destruct (proj1 Hall Heq V HV). congruence. }
    split; [intros [[? _] | [? _]]; done | intros Hlt; left; split; [done | lia]].
Qed.

(** The members of a sum or product cage all have a value: the check is
    true exactly when the values combine to the goal.  Some member has none:
    the check is true exactly when the values assigned so far combine to
    less than the goal (a total that has reached the goal is rejected, also
    for a product that further factors 1 would leave at the goal). *)
Theorem sum_product_cage_full_or_partial
    self inferences fn A a B b cage :
  get_cage self A = Ok cage →
  ∃ r, check_add_or_mul_cage self inferences fn A a B b = Ok r ∧
       ((∀ V, V ∈ Cage.vars cage → is_Some (inferences !! V)) →
        (r = true ↔
         combine fn (assigned_values inferences (Cage.vars cage)) =
         Cage.goal cage)) ∧
       ((∃ V, V ∈ Cage.vars cage ∧ inferences !! V = None) →
        (r = true ↔
         combine fn (assigned_values inferences (Cage.vars cage)) <
         Cage.goal cage)).
Proof. exact (check_add_or_mul_cage_cases self inferences fn A a B b cage). Qed.

Lemma sum_product_cage_full_or_partial_witness :
  ∃ r, check_add_or_mul_cage (built example_puzzle) {[ 0 := 1 ]} add 0 1
         None None = Ok r ∧
       (r = true ↔ combine add (assigned_values {[ 0 := 1 ]} [0; 1]) < 3).
Proof.
  destruct (sum_product_cage_full_or_partial (built example_puzzle)
              {[ 0 := 1 ]} add 0 1 None None (Cage.mk 3 "+" "A" [0; 1]))
    as (r & Hr & _ & Hpartial).
  { vm_compute. reflexivity. }
  exists r. split; [exact Hr |]. apply Hpartial.
  exists 1. split; [by apply py_in_spec | reflexivity].
Defined.

Lemma sum_assigned_values_weaken (inferences inferences' : gmap Z Z) vars :
  inferences ⊆ inferences' →
  (∀ V, V ∈ vars → ∃ v, inferences' !! V = Some v ∧ 1 ≤ v) →
  combine add (assigned_values inferences vars)
  + Z.of_nat (length vars - length (assigned_values inferences vars))
  ≤ combine add (assigned_values inferences' vars).
Proof.
  intros Hsub. induction vars as [|V vars IH]; intros Hall; simpl; [lia |].
  pose proof (length_assigned_values inferences vars) as Hle.
  destruct (Hall V) as (v & HV' & Hv); [left |]. rewrite HV'. simpl.
  assert (∀ V, V ∈ vars → ∃ v, inferences' !! V = Some v ∧ 1 ≤ v) as Hall'
    by (intros V' HV0; apply Hall; by right).
  specialize (IH Hall').
  destruct (inferences !! V) as [v0|] eqn:HV; simpl.
  - rewrite (lookup_weaken _ _ _ _ HV Hsub) in HV'. injection HV' as ->. lia.
  - replace (S (length vars) - length (assigned_values inferences vars))%nat
      with (S (length vars - length (assigned_values inferences vars)))
      by lia.
    lia.
Qed.

Lemma assigned_values_weaken (inferences inferences' : gmap Z Z) vars :
  inferences ⊆ inferences' →
  (∀ V, V ∈ vars → is_Some (inferences !! V)) →
  assigned_values inferences vars = assigned_values inferences' vars.
Proof.
  intros Hsub. induction vars as [|V vars IH]; intros Hall; simpl; [done |].
  destruct (Hall V) as [v HV]; [left |].
  rewrite HV, (lookup_weaken _ _ _ _ HV Hsub). simpl. f_equal.
  apply IH. intros V' HV'. apply Hall. by right.
Qed.

(** The check of a sum cage never rejects a part of an assignment that
    satisfies the cage: when the check accepts an assignment that gives every
    member a value of at least 1, it accepts every assignment contained in
    it. *)
Theorem sum_cage_accepts_parts self (inferences inferences' : gmap Z Z)
    A a B b a' B' b' cage :
  get_cage self A = Ok cage →
  inferences ⊆ inferences' →
  (∀ V, V ∈ Cage.vars cage → ∃ v, inferences' !! V = Some v ∧ 1 ≤ v) →
  check_add_or_mul_cage self inferences' add A a B b = Ok true →
  check_add_or_mul_cage self inferences add A a' B' b' = Ok true.
Proof.
  intros Hcage Hsub Hpos Hfull.
  destruct (check_add_or_mul_cage_verdict self inferences' add A a B b _ Hcage)
    as (r' & Hr' & Hv').
  destruct (check_add_or_mul_cage_verdict self inferences add A a' B' b' _ Hcage)
    as (r & Hr & Hv).
  rewrite Hfull in Hr'. injection Hr' as <-. rewrite Hr. f_equal. apply Hv.
  assert (length (assigned_values inferences' (Cage.vars cage))
          = length (Cage.vars cage)) as Hlen'.
  { apply length_assigned_values_all. intros V HV.
    destruct (Hpos V HV) as (v & -> & _). eauto. }
  destruct (proj1 Hv' eq_refl) as [[_ Hlt] | [_ Hgoal]]; [lia |].
  pose proof (sum_assigned_values_weaken _ _ _ Hsub Hpos) as Hsum.
  pose proof (length_assigned_values inferences (Cage.vars cage)) as Hle.
  unfold verdict.
  destruct (decide (length (assigned_values inferences (Cage.vars cage))
                    = length (Cage.vars cage))) as [Heq|Hne].
  - right. split; [done |].
    pose proof (proj1 (length_assigned_values_all _ _) Heq) as Hall.
    by rewrite (assigned_values_weaken _ _ _ Hsub Hall).
  - left. split; lia.
Qed.

Lemma sum_cage_accepts_parts_witness :
  check_add_or_mul_cage (built example_puzzle) {[ 0 := 1 ]} add 0 1 None None
  = Ok true.
Proof.
  apply (sum_cage_accepts_parts (built example_puzzle)
           {[ 0 := 1 ]} {[ 0 := 1; 1 := 2 ]} 0 1 (Some 1) (Some 2) 1 None None
           (Cage.mk 3 "+" "A" [0; 1])).
  - vm_compute. reflexivity.
  - apply insert_mono. apply map_empty_subseteq.
  - intros V HV. simpl in HV.
    apply elem_of_cons in HV as [-> | HV]; [exists 1; split; [reflexivity | lia] |].
    apply elem_of_cons in HV as [-> | HV]; [exists 2; split; [reflexivity | lia] |].
    by apply elem_of_nil in HV.
  - vm_compute. reflexivity.
Defined.

(** ** Difference and quotient cages *)

(** Two distinct variables of one difference or quotient cage: the predicate
    returns, and is true exactly when rule 1 does not reject the pair and the
    two candidates are in the goal relation of the cage; neither the current
    assignment nor the domains are consulted. *)
Theorem same_cage_difference_quotient
    self csp A a B b nA nB cage cage_B fn :
  A ≠ B →
  neighbors self !! A = Some nA → neighbors self !! B = Some nB →
  get_cage self A = Ok cage → get_cage self B = Ok cage_B →
  Cage.id cage = Cage.id cage_B →
  (Cage.opr cage = "-" ∧ fn = add) ∨ (Cage.opr cage = "/" ∧ fn = mul) →
  ∃ r, constraints self csp A a B b = Ok r ∧
       (r = true ↔
        ¬ ((B ∈ nA ∨ A ∈ nB) ∧ a = b) ∧
        goal_relation fn a b (Cage.goal cage)).
Proof.
  intros Hne HA HB HcA HcB Hid Hop.
  destruct (decide ((B ∈ nA ∨ A ∈ nB) ∧ a = b)) as [[Hin Heq]|Hno].
  { exists false. split; [by eapply constraints_conflict |].
    split; [done | intros [Hno _]; tauto]. }
  rewrite (constraints_cages _ _ _ _ _ _ _ _ _ _ Hne HA HB Hno HcA HcB).
  simpl. unfold Cage.eq. rewrite Hid, String.eqb_refl.
  destruct Hop as [[-> ->] | [-> ->]]; simpl; eexists; (split; [reflexivity |]).
  - rewrite Z.eqb_eq. tauto.
  - rewrite Z.eqb_eq. tauto.
Qed.

Lemma same_cage_difference_quotient_witness :
  ∃ r, constraints (built example_puzzle) (fresh_csp 3) 2 1 5 2 = Ok r ∧
       (r = true ↔
        ¬ ((5 ∈ [0; 5; 1; 8] ∨ 2 ∈ [2; 3; 4; 8]) ∧ 1 = 2) ∧
        goal_relation add 1 2 1).
Proof.
  apply (same_cage_difference_quotient (built example_puzzle) (fresh_csp 3)
           2 1 5 2 [0; 5; 1; 8] [2; 3; 4; 8]
           (Cage.mk 1 "-" "B" [2; 5]) (Cage.mk 1 "-" "B" [2; 5]) add).
  - lia.
  - vm_compute. reflexivity.
  - vm_compute. reflexivity.
  - vm_compute. reflexivity.
  - vm_compute. reflexivity.
  - reflexivity.
  - left. split; reflexivity.
Defined.

Lemma check_sub_or_div_cage_assigned self csp inferences fn X x Y y cage :
  get_cage self X = Ok cage →
  Cage.vars cage = [X; Y] ∨ Cage.vars cage = [Y; X] →
  inferences !! Y = Some y →
  ∃ r, check_sub_or_div_cage self csp inferences fn X x = Ok r ∧
       (r = true ↔ goal_relation fn x y (Cage.goal cage)).
Proof.
  intros Hc Hvars HY. unfold check_sub_or_div_cage. rewrite Hc. simpl.
  assert (∃ V0 V1, Cage.vars cage = [V0; V1] ∧
                   (if negb (X =? V1) then V1 else V0) = Y) as (V0 & V1 & -> & HY').
  { destruct Hvars as [-> | ->]; eexists _, _; (split; [reflexivity |]).
    - destruct (Z.eqb_spec X Y); simpl; congruence.
    - by rewrite Z.eqb_refl. }
  unfold py_index. simpl. rewrite HY', HY.
  eexists. split; [reflexivity |].
  rewrite Z.eqb_eq. apply fits_goal_relation.
Qed.

Lemma check_cage_constraint_assigned self csp inferences X x Y y cage fn :
  get_cage self X = Ok cage →
  (Cage.opr cage = "-" ∧ fn = add) ∨ (Cage.opr cage = "/" ∧ fn = mul) →
  Cage.vars cage = [X; Y] ∨ Cage.vars cage = [Y; X] →
  inferences !! Y = Some y →
  ∃ r, check_cage_constraint self csp inferences X x = Ok r ∧
       (r = true ↔ goal_relation fn x y (Cage.goal cage)).
Proof.
  intros Hc Hop Hvars HY.
  unfold check_cage_constraint. rewrite Hc. simpl.
  destruct Hop as [[-> ->] | [-> ->]]; cbn -[goal_relation];
    by apply (check_sub_or_div_cage_assigned self csp inferences _ X x Y y).
Qed.

(** A variable [X] of a difference or quotient cage whose other member [Y]
    has the value [y]: the check of [X = x] returns, and is true exactly when
    [x] and [y] are in the goal relation of the cage; the domain of [Y] is
    not consulted. *)
Theorem partner_assigned self csp inferences X x Y y cage fn :
  get_cage self X = Ok cage →
  (Cage.opr cage = "-" ∧ fn = add) ∨ (Cage.opr cage = "/" ∧ fn = mul) →
  Cage.vars cage = [X; Y] ∨ Cage.vars cage = [Y; X] →
  inferences !! Y = Some y →
  ∃ r, check_cage_constraint self csp inferences X x = Ok r ∧
       (r = true ↔ goal_relation fn x y (Cage.goal cage)).
Proof. exact (check_cage_constraint_assigned self csp inferences X x Y y cage fn). Qed.

Lemma partner_assigned_witness :
  ∃ r, check_cage_constraint (built example_puzzle) (fresh_csp 3)
         {[ 5 := 3 ]} 2 1 = Ok r ∧
       (r = true ↔ goal_relation add 1 3 1).
Proof.
  apply (partner_assigned (built example_puzzle) (fresh_csp 3) {[ 5 := 3 ]}
           2 1 5 3 (Cage.mk 1 "-" "B" [2; 5]) add).
  - vm_compute. reflexivity.
  - left. split; reflexivity.
  - left. reflexivity.
  - reflexivity.
Defined.

(** The check of a difference or quotient cage with the other member
    unassigned never rejects a candidate that a value of the other member's
    domain supports: when the check accepts [X = x] once [Y] has been given a
    value [y] of its domain, it accepts [X = x] while [Y] is unassigned. *)
Theorem partner_choice_supports self csp inferences X x Y y cage fn :
  get_cage self X = Ok cage →
  (Cage.opr cage = "-" ∧ fn = add) ∨ (Cage.opr cage = "/" ∧ fn = mul) →
  Cage.vars cage = [X; Y] ∨ Cage.vars cage = [Y; X] →
  inferences !! Y = None →
  y ∈ choices csp Y →
  check_cage_constraint self csp (<[Y := y]> inferences) X x = Ok true →
  check_cage_constraint self csp inferences X x = Ok true.
Proof.
  intros Hc Hop Hvars Hnone Hy Hwith.
  destruct (check_cage_constraint_assigned self csp (<[Y := y]> inferences) X x Y y cage fn
              Hc Hop Hvars (lookup_insert_eq _ _ _)) as (r' & Hr' & Hrel).
  rewrite Hwith in Hr'. injection Hr' as <-.
  unfold check_cage_constraint in *. rewrite Hc in *. simpl in *.
  destruct (check_sub_or_div_cage_unassigned self csp inferences fn X x Y cage
              Hc Hvars Hnone) as (r & Hr & Hex).
  assert (r = true) as -> by (apply Hex; exists y; split; [done | by apply Hrel]).
  destruct Hop as [[-> ->] | [-> ->]]; simpl; exact Hr.
Qed.

Lemma partner_choice_supports_witness :
  check_cage_constraint (built example_puzzle) (fresh_csp 3) ∅ 2 1 = Ok true.
Proof.
  apply (partner_choice_supports (built example_puzzle) (fresh_csp 3) ∅
           2 1 5 2 (Cage.mk 1 "-" "B" [2; 5]) add).
  - vm_compute. reflexivity.
  - left. split; reflexivity.
  - left. reflexivity.
  - reflexivity.
  - by apply py_in_spec.
  - vm_compute. reflexivity.
Defined.

(** ** Calls that the predicate refuses *)

Lemma constraints_off_board file self csp A a B b :
  init file = Ok self → A ≠ B →
  ¬ (on_board self A ∧ on_board self B) →
  constraints self csp A a B b = Raise KeyError.
Proof.
  intros Hinit Hne Hoff.
  unfold constraints. destruct (Z.eqb_spec A B) as [|_]; [done |].
  unfold py_getitem. rewrite (init_neighbors _ _ A Hinit).
  destruct (decide (on_board self A)) as [HonA|HoffA]; [|done].
  simpl. assert (¬ on_board self B) as HoffB by tauto.
  assert (py_in B (neighbors_of (N self) A) = false) as ->.
  { apply py_in_false. intros HB%elem_of_neighbors_of.
    unfold on_board in *.
    assert (0 < N self ∨ N self < 0) as [Hpos | Hneg] by nia.
    - apply row_col_mate_spec in HB as [? _]; done.
    - destruct HB as (t & Ht & _). lia. }
  simpl. rewrite (init_neighbors _ _ B Hinit).
  by rewrite decide_False.
Qed.

(** A call for one and the same variable fails the assertion of line 117;
    in a puzzle that [__init__] has built, a call for two distinct variables
    of which one is not a variable of the board ends with a key error. *)
Theorem constraints_refuses :
  (∀ self csp A a b,
     constraints self csp A a A b = Raise (AssertionError distinct_variables)) ∧
  (∀ file self csp A a B b,
     init file = Ok self → A ≠ B →
     ¬ (on_board self A ∧ on_board self B) →
     constraints self csp A a B b = Raise KeyError).
Proof.
  split.
  - intros self csp A a b. unfold constraints. by rewrite Z.eqb_refl.
  - intros file self csp A a B b Hinit Hne Hoff.
    by apply (constraints_off_board file).
Qed.

Lemma constraints_refuses_witness :
  constraints (built example_puzzle) (fresh_csp 3) 4 1 4 2 =
    Raise (AssertionError distinct_variables) ∧
  constraints (built example_puzzle) (fresh_csp 3) 0 1 9 2 = Raise KeyError.
Proof.
  destruct constraints_refuses as [Hsame Hoff].
  split; [apply Hsame |].
  apply (Hoff example_puzzle).
  - vm_compute. reflexivity.
  - lia.
  - intros [_ HB]. unfold on_board in HB. vm_compute (N _) in HB. lia.
Defined.

(** ** Comparison of cages *)

(** [__eq__] compares identifiers only: it is an equivalence on cages, and
    on the cages of a well-formed puzzle it holds of a cage and itself only. *)
Theorem cage_eq_by_identifier :
  (∀ c, Cage.eq c c = true) ∧
  (∀ c d, Cage.eq c d = Cage.eq d c) ∧
  (∀ c d e, Cage.eq c d = true → Cage.eq d e = true → Cage.eq c e = true) ∧
  (∀ self X Y cage_X cage_Y,
     well_formed self →
     get_cage self X = Ok cage_X → get_cage self Y = Ok cage_Y →
     Cage.eq cage_X cage_Y = true ↔ cage_X = cage_Y).
Proof.
  unfold Cage.eq. split; [|split; [|split]].
  - intros c. apply String.eqb_refl.
  - intros c d. apply String.eqb_sym.
  - intros c d e Hcd%String.eqb_eq Hde%String.eqb_eq.
    apply String.eqb_eq. congruence.
  - intros self X Y cage_X cage_Y Hwf HX HY. rewrite String.eqb_eq. split.
    + by apply (get_cage_same_id self X Y).
    + by intros ->.
Qed.

Lemma cage_eq_by_identifier_witness :
  Cage.eq (Cage.mk 3 "+" "A" [0; 1]) (Cage.mk 3 "+" "A" [0; 1]) = true ↔
  Cage.mk 3 "+" "A" [0; 1] = Cage.mk 3 "+" "A" [0; 1].
Proof.
  destruct cage_eq_by_identifier as (_ & _ & _ & Hwf).
  apply (Hwf (built example_puzzle) 0 1).
  - apply well_formed_example.
  - vm_compute. reflexivity.
  - vm_compute. reflexivity.
Defined.

(** * Further properties of construction *)

(** ** The dictionary of cages *)

Lemma declared_cons line lines cage_id start :
  declared (line :: lines) cage_id start =
  declared lines cage_id
    (if decide (line.1.1 = cage_id) then (line.1.2, line.2) else start).
Proof. done. Qed.

Lemma retag_own cage : retag cage (Cage.opr cage, Cage.goal cage) = cage.
Proof. by destruct cage. Qed.

(** The loop over the goal lines [k], ..., [k + m - 1]. *)
Lemma read_goals_from goals m k d d' cage_id :
  for_each (read_goal_line goals) (Z.of_nat <$> seq k m) d = Ok d' →
  d' !! cage_id =
  (λ cage, retag cage (declared (take m (drop k goals)) cage_id
                         (Cage.opr cage, Cage.goal cage))) <$> d !! cage_id.
Proof.
  revert k d. induction m as [|m IH]; intros k d Hloop.
  { injection Hloop as <-. rewrite take_0. unfold declared. simpl.
    destruct (d !! cage_id) as [cage|]; simpl; [|done]. by rewrite retag_own. }
  rewrite <- cons_seq, fmap_cons, for_each_cons in Hloop.
  destruct (read_goal_line goals (Z.of_nat k) d) as [d1|] eqn:Hline; [|done].
  rewrite bind_Ok in Hloop. rewrite (IH _ _ Hloop).
  apply read_goal_line_Ok in Hline
    as (cage_id1 & opr1 & goal1 & cage1 & Hline & Hc1 & _ & ->).
  rewrite Nat2Z.id in Hline.
  rewrite (drop_S _ _ _ Hline), firstn_cons.
  destruct (decide (cage_id1 = cage_id)) as [->|Hne].
  - rewrite lookup_insert_eq, Hc1. cbn [fmap option_fmap option_map].
    rewrite declared_cons. cbn [fst snd]. by rewrite decide_True.
  - rewrite lookup_insert_ne by done.
    destruct (d !! cage_id) as [cage|]; cbn [fmap option_fmap option_map];
      [|done].
    rewrite declared_cons. cbn [fst snd]. by rewrite decide_False.
Qed.

Lemma init_cage_dict file self cage_id :
  init file = Ok self →
  cage_dict self !! cage_id =
  if decide (member_cells file cage_id = []) then None
  else Some (built_cage file cage_id).
Proof.
  intros Hinit.
  destruct (init_inv_board _ _ Hinit) as (_ & _ & _ & Hgoals & _ & _).
  unfold read_goals in Hgoals. rewrite size_board_dict in Hgoals.
  unfold range in Hgoals. rewrite Nat2Z.id in Hgoals.
  rewrite (read_goals_from _ _ _ _ _ cage_id Hgoals), drop_0.
  rewrite board_dict_lookup. by case_decide.
Qed.

(** The dictionary that [__init__] builds has exactly the cages of the
    board: a cage identifier that occurs on the board is mapped to the cage
    with that identifier, its cells in reading order, and the operator and
    goal of the last goal line read that names it; any other key is
    absent. *)
Theorem cage_dict_built file self cage_id :
  init file = Ok self →
  cage_dict self !! cage_id =
  if decide (member_cells file cage_id = []) then None
  else Some (built_cage file cage_id).
Proof. exact (init_cage_dict file self cage_id). Qed.

Lemma cage_dict_built_witness :
  cage_dict (built example_puzzle) !! "B" =
  if decide (member_cells example_puzzle "B" = []) then None
  else Some (built_cage example_puzzle "B").
Proof.
  apply (cage_dict_built example_puzzle (built example_puzzle) "B").
  vm_compute. reflexivity.
Defined.

(** ** The cage of a variable *)

Lemma elem_of_cells_char file i j cage_id :
  (i, j, cage_id) ∈ cells file ↔
  0 ≤ i < size file ∧ 0 ≤ j ∧
  ∃ ch, char_at file i j = Some ch ∧ cage_id = String ch "".
Proof.
  rewrite elem_of_cells. unfold char_at. simpl. split.
  - intros (Hi & k & ch & Hk & -> & ->).
    split; [done |]. split; [lia |]. exists ch. by rewrite Nat2Z.id.
  - intros (Hi & Hj & ch & Hch & ->). split; [done |].
    exists (Z.to_nat j), ch. split; [done |]. split; [lia | done].
Qed.

Lemma cell_at_built file self i j :
  init file = Ok self →
  0 ≤ i < size file → 0 ≤ j < size file →
  cell_at (cage_board self) (Z.to_nat i) (Z.to_nat j) =
  Some (match char_at file i j with
        | Some ch => Id (String ch "")
        | None => Zero
        end).
Proof.
  intros Hinit Hi Hj.
  pose proof (square_board _ _ Hinit) as Hsq.
  destruct (init_inv_board _ _ Hinit) as (_ & HN & Hcb & _ & _ & _).
  assert (Forall (λ c, 0 ≤ c.1.1 ∧ 0 ≤ c.1.2) (cells file)) as Hnonneg.
  { eapply Forall_impl; [apply cells_nonneg |]. simpl. tauto. }
  assert (∀ cage_id,
            cell_at (cage_board self) (Z.to_nat i) (Z.to_nat j)
            = Some (Id cage_id) →
            (i, j, cage_id) ∈ cells file) as Hplaced.
  { intros cage_id Hcell. rewrite Hcb in Hcell.
    apply cell_at_fold_Id in Hcell as [Hin | Hzero]; [|by apply cell_at_initial in Hzero|done].
    by rewrite !Z2Nat.id in Hin by lia. }
  destruct (char_at file i j) as [ch|] eqn:Hch.
  - destruct (cell_at_fold_filled (size file) (cells file)
                ((λ _, (λ _, Zero) <$> range (size file)) <$> range (size file))
                (Z.to_nat i) (Z.to_nat j)) as [cage_id Hcell];
      [apply square_initial | lia | lia | |].
    { left. exists (String ch ""). rewrite !Z2Nat.id by lia.
      apply elem_of_cells_char. split; [lia |]. split; [lia |]. eauto. }
    rewrite <- Hcb in Hcell. rewrite Hcell.
    apply Hplaced, elem_of_cells_char in Hcell as (_ & _ & ch' & Hch' & ->).
    congruence.
  - destruct (cell_at_square (N self) (cage_board self) (Z.to_nat i) (Z.to_nat j))
      as [[|cage_id] Hcell]; [done | lia | lia | done |].
    apply Hplaced, elem_of_cells_char in Hcell as (_ & _ & ch' & Hch' & _).
    congruence.
Qed.

Lemma init_get_cage file self X :
  init file = Ok self → 0 < N self → on_board self X →
  get_cage self X =
  match char_at file (X / N self) (X mod N self) with
  | Some ch => Ok (built_cage file (String ch ""))
  | None => Raise KeyError
  end.
Proof.
  intros Hinit Hpos HX.
  destruct (init_inv_board _ _ Hinit) as (_ & HN & _ & _ & _ & _).
  destruct (variable_div_mod_range (N self) X Hpos HX) as [Hrow Hcol].
  rewrite get_cage_cell_at by (done || apply HX).
  rewrite (cell_at_built file) by (done || lia).
  destruct (char_at file (X / N self) (X mod N self)) as [ch|] eqn:Hch; [|done].
  unfold py_getitem. rewrite (init_cage_dict file) by done.
  rewrite decide_False; [done |].
  unfold member_cells. rewrite members_nil. intros Hall.
  apply (Hall (X / N self, X mod N self, String ch "")); [|done].
  apply elem_of_cells_char. split; [lia |]. split; [lia |]. eauto.
Qed.

(** In a puzzle that [__init__] has built on a board of positive size, the
    cage of a variable of the board is the one described by the character at
    the variable's place in the board lines; where a board line is too short
    to reach the place, the cell has kept the integer 0 and the lookup ends
    with a key error. *)
Theorem get_cage_built file self X :
  init file = Ok self → 0 < N self → on_board self X →
  get_cage self X =
  match char_at file (X / N self) (X mod N self) with
  | Some ch => Ok (built_cage file (String ch ""))
  | None => Raise KeyError
  end.
Proof. exact (init_get_cage file self X). Qed.

Lemma get_cage_built_witness :
  get_cage (built example_puzzle) 5 =
  match char_at example_puzzle (5 / N (built example_puzzle))
          (5 mod N (built example_puzzle)) with
  | Some ch => Ok (built_cage example_puzzle (String ch ""))
  | None => Raise KeyError
  end.
Proof.
  apply (get_cage_built example_puzzle (built example_puzzle) 5).
  - vm_compute. reflexivity.
  - vm_compute. reflexivity.
  - apply on_board_example. lia.
Defined.

(** ** The cages partition the board *)

Lemma NoDup_range n : NoDup (range n).
Proof. unfold range. apply NoDup_fmap_2; [apply _ | apply NoDup_seq]. Qed.

Lemma NoDup_line_cells i line : NoDup (line_cells i line).
Proof.
  unfold line_cells. apply NoDup_alt. intros k1 k2 c.
  rewrite !list_lookup_imap.
  destruct (_ !! k1) as [ch1|]; simpl; [|done].
  destruct (_ !! k2) as [ch2|]; simpl; [|done].
  intros [= <-] [= Hk _]. lia.
Qed.

Lemma NoDup_cells file : NoDup (cells file).
Proof.
  unfold cells. apply NoDup_bind; [| |apply NoDup_range].
  - intros i1 i2 c _ _ (k1 & ch1 & _ & ->)%elem_of_line_cells
      (k2 & ch2 & _ & [= -> _ _])%elem_of_line_cells. done.
  - intros i _. apply NoDup_line_cells.
Qed.

Lemma xy_to_variable_inj n i j i' j' :
  0 ≤ j < n → 0 ≤ j' < n →
  xy_to_variable n i j = xy_to_variable n i' j' → i = i' ∧ j = j'.
Proof.
  intros Hj Hj' Heq. split.
  - by rewrite <- (xy_to_variable_div n i j), <- (xy_to_variable_div n i' j'),
      Heq.
  - by rewrite <- (xy_to_variable_mod n i j), <- (xy_to_variable_mod n i' j'),
      Heq.
Qed.

Lemma NoDup_member_cells file cage_id :
  lines_fit file → NoDup (member_cells file cage_id).
Proof.
  intros Hfit. apply cells_in_range in Hfit. rewrite Forall_forall in Hfit.
  unfold member_cells, members. apply NoDup_fmap_2_strong.
  - intros [[i j] c] [[i' j'] c'] [Hc Hin]%list_elem_of_filter
      [Hc' Hin']%list_elem_of_filter Heq. simpl in *.
    destruct (Hfit _ Hin) as [_ Hj], (Hfit _ Hin') as [_ Hj']. simpl in *.
    destruct (xy_to_variable_inj _ _ _ _ _ Hj Hj' Heq) as [-> ->]. congruence.
  - apply NoDup_filter, NoDup_cells.
Qed.

Lemma init_cages_partition file self cage_id cage :
  init file = Ok self →
  cage_dict self !! cage_id = Some cage →
  Cage.vars cage ≠ [] ∧
  NoDup (Cage.vars cage) ∧
  ∀ v, v ∈ Cage.vars cage ↔ on_board self v ∧ get_cage self v = Ok cage.
Proof.
  intros Hinit Hcage.
  destruct (init_inv_board _ _ Hinit) as (Hfit & HN & _ & _ & _ & _).
  pose proof Hcage as Hbuilt. rewrite (init_cage_dict file) in Hbuilt by done.
  case_decide as Hne; [done |]. injection Hbuilt as <-. simpl.
  split; [done |]. split; [by apply NoDup_member_cells |].
  intros v. split.
  - intros (c & Hin & Hid & ->)%elem_of_members.
    destruct c as [[i j] c]. simpl in *. subst c.
    pose proof (proj1 (cells_in_range file) Hfit) as Hrange.
    rewrite Forall_forall in Hrange. destruct (Hrange _ Hin) as [Hi Hj].
    simpl in *.
    apply elem_of_cells_char in Hin as (_ & _ & ch & Hch & ->).
    assert (on_board self (xy_to_variable (size file) i j)) as Hon.
    { unfold on_board. rewrite HN. by apply xy_to_variable_range. }
    split; [done |].
    rewrite (init_get_cage file) by (done || lia).
    rewrite HN, xy_to_variable_div, xy_to_variable_mod by done.
    by rewrite Hch.
  - intros [Hon Hget]. by apply (init_members file self v _ Hinit Hon) in Hget.
Qed.

(** Every cage of a puzzle that [__init__] has built lists at least one
    variable and lists no variable twice, and the variables it lists are
    exactly the variables of the board whose cage it is: the cages partition
    the cells that the board lines fill. *)
Theorem cages_partition file self cage_id cage :
  init file = Ok self →
  cage_dict self !! cage_id = Some cage →
  Cage.vars cage ≠ [] ∧
  NoDup (Cage.vars cage) ∧
  ∀ v, v ∈ Cage.vars cage ↔ on_board self v ∧ get_cage self v = Ok cage.
Proof. exact (init_cages_partition file self cage_id cage). Qed.

Lemma cages_partition_witness :
  Cage.vars (Cage.mk 1 "-" "B" [2; 5]) ≠ [] ∧
  NoDup (Cage.vars (Cage.mk 1 "-" "B" [2; 5])) ∧
  ∀ v, v ∈ Cage.vars (Cage.mk 1 "-" "B" [2; 5]) ↔
       on_board (built example_puzzle) v ∧
       get_cage (built example_puzzle) v = Ok (Cage.mk 1 "-" "B" [2; 5]).
Proof.
  apply (cages_partition example_puzzle (built example_puzzle) "B").
  - vm_compute. reflexivity.
  - vm_compute. reflexivity.
Defined.

(** ** Variables and domains *)

Lemma init_fields file self :
  init file = Ok self →
  N self = size file ∧
  variables self = range (size file * size file) ∧
  domains self =
    list_to_map ((λ v, (v, range_from 1 (size file + 1)))
                   <$> range (size file * size file)).
Proof.
  rewrite init_stages.
  destruct (read_board file) as [st|]; [|done]. rewrite bind_Ok.
  destruct (read_goals file st.2) as [cd|]; [|done]. rewrite bind_Ok.
  destruct (collect_neighbors (size file)) as [nb|]; [|done]. rewrite bind_Ok.
  by intros [= <-].
Qed.

Lemma lookup_list_to_map_keys {V} (f : Z → V) (l : list Z) x :
  (list_to_map ((λ v, (v, f v)) <$> l) : gmap Z V) !! x =
  if decide (x ∈ l) then Some (f x) else None.
Proof.
  induction l as [|v l IH].
  - rewrite fmap_nil, list_to_map_nil, lookup_empty.
    destruct (decide (x ∈ [])) as [Hx%elem_of_nil|]; done.
  - rewrite fmap_cons, list_to_map_cons, lookup_insert. simpl.
    destruct (decide (v = x)) as [->|Hne].
    + by rewrite decide_True by left.
    + rewrite IH. destruct (decide (x ∈ l)) as [Hin|Hout].
      * by rewrite decide_True by (by right).
      * rewrite decide_False; [done |].
        intros [?|?]%elem_of_cons; congruence.
Qed.

Lemma elem_of_range_from a b x : x ∈ range_from a b ↔ a ≤ x < b.
Proof.
  unfold range_from. rewrite list_elem_of_fmap. split.
  - intros (k & -> & Hk). apply elem_of_seq in Hk. lia.
  - intros Hx. exists (Z.to_nat (x - a)). split; [lia |].
    apply elem_of_seq. lia.
Qed.

Lemma NoDup_range_from a b : NoDup (range_from a b).
Proof.
  unfold range_from. apply NoDup_fmap_2_strong; [|apply NoDup_seq].
  intros k k' _ _ Heq. lia.
Qed.

Lemma init_variables_domains file self :
  init file = Ok self →
  NoDup (variables self) ∧
  (∀ v, v ∈ variables self ↔ on_board self v) ∧
  (∀ v, is_Some (domains self !! v) ↔ on_board self v) ∧
  (∀ v dom, domains self !! v = Some dom →
     NoDup dom ∧ length dom = Z.to_nat (N self) ∧
     ∀ x, x ∈ dom ↔ 1 ≤ x ≤ N self).
Proof.
  intros (HN & Hvars & Hdoms)%init_fields.
  unfold on_board. rewrite HN, Hvars, Hdoms.
  split; [apply NoDup_range |]. split; [intros v; apply elem_of_range |].
  split.
  - intros v. rewrite lookup_list_to_map_keys, <- elem_of_range.
    case_decide; split; intros H'; [done | by eauto | by destruct H' | done].
  - intros v dom. rewrite lookup_list_to_map_keys.
    case_decide; [|done]. intros [= <-].
    split; [apply NoDup_range_from |]. split.
    + unfold range_from. rewrite length_fmap, length_seq. lia.
    + intros x. rewrite elem_of_range_from. lia.
Qed.

(** In a puzzle that [__init__] has built, the variables are the numbers of
    the board, each listed once, and exactly these have a domain; a domain
    lists the [N] values 1, ..., [N], each once. *)
Theorem variables_and_domains file self :
  init file = Ok self →
  NoDup (variables self) ∧
  (∀ v, v ∈ variables self ↔ on_board self v) ∧
  (∀ v, is_Some (domains self !! v) ↔ on_board self v) ∧
  (∀ v dom, domains self !! v = Some dom →
     NoDup dom ∧ length dom = Z.to_nat (N self) ∧
     ∀ x, x ∈ dom ↔ 1 ≤ x ≤ N self).
Proof. exact (init_variables_domains file self). Qed.

Lemma variables_and_domains_witness :
  NoDup (variables (built example_puzzle)) ∧
  (∀ v, v ∈ variables (built example_puzzle) ↔
        on_board (built example_puzzle) v) ∧
  (∀ v, is_Some (domains (built example_puzzle) !! v) ↔
        on_board (built example_puzzle) v) ∧
  (∀ v dom, domains (built example_puzzle) !! v = Some dom →
     NoDup dom ∧ length dom = Z.to_nat (N (built example_puzzle)) ∧
     ∀ x, x ∈ dom ↔ 1 ≤ x ≤ N (built example_puzzle)).
Proof.
  apply (variables_and_domains example_puzzle (built example_puzzle)).
  vm_compute. reflexivity.
Defined.

(** ** The neighbours of a variable *)

Lemma length_add_row_col n row col l acc :
  (length (foldl (add_row_col n row col) acc l)
   + length (filter (λ t, t = row) l) + length (filter (λ t, t = col) l)
   = length acc + 2 * length l)%nat.
Proof.
  revert acc. induction l as [|t l IH]; intros acc; simpl; [lia |].
  rewrite !filter_cons. specialize (IH (add_row_col n row col acc t)).
  unfold add_row_col in *.
  destruct (Z.eqb_spec t row), (Z.eqb_spec t col);
    repeat case_decide; try done; simpl in *;
    rewrite ?length_app in IH; simpl in IH; lia.
Qed.

Lemma filter_eq_absent (l : list Z) x :
  x ∉ l → filter (λ t, t = x) l = [].
Proof.
  induction l as [|y l IH]; intros Hx; [done |].
  rewrite filter_cons_False; [|intros ->; apply Hx; left].
  apply IH. intros Hin. apply Hx. by right.
Qed.

Lemma length_filter_eq_once (l : list Z) x :
  NoDup l → x ∈ l → length (filter (λ t, t = x) l) = 1%nat.
Proof.
  induction l as [|y l IH]; intros Hnd Hx; [by apply elem_of_nil in Hx |].
  apply NoDup_cons in Hnd as [Hy Hnd]. rewrite filter_cons.
  case_decide as Heq.
  - subst y. simpl. by rewrite filter_eq_absent.
  - apply elem_of_cons in Hx as [->|Hx]; [done | by apply IH].
Qed.

Lemma NoDup_add_row_col n row col l acc :
  0 ≤ row < n → 0 ≤ col < n →
  NoDup l → (∀ t, t ∈ l → 0 ≤ t < n) →
  NoDup acc →
  (∀ Y, Y ∈ acc →
     ∃ t, 0 ≤ t < n ∧ (t ∉ l) ∧
          ((t ≠ row ∧ Y = xy_to_variable n t col) ∨
           (t ≠ col ∧ Y = xy_to_variable n row t))) →
  NoDup (foldl (add_row_col n row col) acc l).
Proof.
  intros Hrow Hcol. revert acc.
  induction l as [|t l IH]; intros acc Hl Hrange Hacc Hinv; [done |].
  apply NoDup_cons in Hl as [Ht Hl].
  assert (0 ≤ t < n) as Htn by (apply Hrange; left).
  assert (∀ Y, Y ∈ acc →
     ∃ t', 0 ≤ t' < n ∧ t' ≠ t ∧ (t' ∉ l) ∧
           ((t' ≠ row ∧ Y = xy_to_variable n t' col) ∨
            (t' ≠ col ∧ Y = xy_to_variable n row t'))) as Hinv'.
  { intros Y HY. destruct (Hinv Y HY) as (t' & Ht' & Hnot & Hor).
    exists t'. split; [done |]. split; [intros ->; apply Hnot; left |].
    split; [intros ?; apply Hnot; by right | done]. }
  simpl. apply IH; [done | intros t' ?; apply Hrange; by right | |].
  - unfold add_row_col.
    assert (t ≠ row → xy_to_variable n t col ∉ acc) as Hfresh1.
    { intros Hne HY. destruct (Hinv' _ HY) as (t' & Ht' & Hne' & _ & Hor).
      destruct Hor as [[_ Heq] | [Hc Heq]];
        apply xy_to_variable_inj in Heq as [? ?]; try done; congruence. }
    assert (t ≠ col → xy_to_variable n row t ∉ acc) as Hfresh2.
    { intros Hne HY. destruct (Hinv' _ HY) as (t' & Ht' & Hne' & _ & Hor).
      destruct Hor as [[Hr Heq] | [_ Heq]];
        apply xy_to_variable_inj in Heq as [? ?]; try done; congruence. }
    destruct (Z.eqb_spec t row) as [Hr|Hr], (Z.eqb_spec t col) as [Hc|Hc];
      simpl; try done.
    + apply NoDup_app. split; [done |]. split; [|apply NoDup_singleton].
      intros Y HY ->%list_elem_of_singleton. by apply Hfresh2.
    + apply NoDup_app. split; [done |]. split; [|apply NoDup_singleton].
      intros Y HY ->%list_elem_of_singleton. by apply Hfresh1.
    + apply NoDup_app. split; [|split; [|apply NoDup_singleton]].
      * apply NoDup_app. split; [done |]. split; [|apply NoDup_singleton].
        intros Y HY ->%list_elem_of_singleton. by apply Hfresh1.
      * intros Y HY HY'%list_elem_of_singleton. subst Y.
        apply elem_of_app in HY as [HY | Heq%list_elem_of_singleton].
        -- by apply Hfresh2.
        -- apply xy_to_variable_inj in Heq as [? ?]; [congruence | done..].
  - intros Y HY. apply elem_of_add_row_col_step in HY as [HY | Hnew].
    + destruct (Hinv' _ HY) as (t' & Ht' & _ & Hnot & Hor). eauto.
    + exists t. eauto.
Qed.

(** In a puzzle that [__init__] has built on a board of positive size, the
    neighbours listed for a variable are the other variables of its row and
    of its column: the variable itself is not among them, none is listed
    twice, and there are [2 * (N - 1)] of them. *)
Theorem neighbors_structure file self X nX :
  init file = Ok self → 0 < N self →
  neighbors self !! X = Some nX →
  (X ∉ nX) ∧
  NoDup nX ∧
  length nX = Z.to_nat (2 * (N self - 1)) ∧
  ∀ Y, Y ∈ nX ↔
       on_board self Y ∧ Y ≠ X ∧
       (Y / N self = X / N self ∨ Y mod N self = X mod N self).
Proof.
  intros Hinit Hpos HX. rewrite (init_neighbors _ _ _ Hinit) in HX.
  case_decide as Hon; [|done]. injection HX as <-.
  destruct (variable_div_mod_range (N self) X Hpos Hon) as [Hrow Hcol].
  assert (∀ Y, Y ∈ neighbors_of (N self) X ↔
               on_board self Y ∧ Y ≠ X ∧
               (Y / N self = X / N self ∨ Y mod N self = X mod N self)) as Hmem.
  { intros Y. rewrite elem_of_neighbors_of. by apply row_col_mate_spec. }
  split; [intros (_ & Hne & _)%Hmem; done |].
  split; [|split; [|done]].
  - unfold neighbors_of. apply NoDup_add_row_col;
      [done | done | apply NoDup_range | intros t; apply elem_of_range
      | apply NoDup_nil_2 | by intros Y HY%elem_of_nil].
  - unfold neighbors_of.
    pose proof (length_add_row_col (N self) (X / N self) (X mod N self)
                  (range (N self)) []) as Hlen.
    rewrite !length_filter_eq_once in Hlen
      by (apply NoDup_range || by apply elem_of_range).
    unfold range in Hlen at 2. rewrite length_fmap, length_seq in Hlen.
    simpl in Hlen. lia.
Qed.

Lemma neighbors_structure_witness :
  (4 ∉ [1; 3; 7; 5]) ∧
  NoDup [1; 3; 7; 5] ∧
  length [1; 3; 7; 5] = Z.to_nat (2 * (N (built example_puzzle) - 1)) ∧
  ∀ Y, Y ∈ [1; 3; 7; 5] ↔
       on_board (built example_puzzle) Y ∧ Y ≠ 4 ∧
       (Y / N (built example_puzzle) = 4 / N (built example_puzzle) ∨
        Y mod N (built example_puzzle) = 4 mod N (built example_puzzle)).
Proof.
  apply (neighbors_structure example_puzzle (built example_puzzle) 4).
  - vm_compute. reflexivity.
  - vm_compute. reflexivity.
  - vm_compute. reflexivity.
Defined.

(** ** The lines that construction reads *)

Lemma list_bind_ext_in {A B} (f g : A → list B) (l : list A) :
  (∀ x, x ∈ l → f x = g x) → l ≫= f = l ≫= g.
Proof.
  induction l as [|x l IH]; intros Hext; [done |].
  rewrite !bind_cons, Hext by left. f_equal.
  apply IH. intros y Hy. apply Hext. by right.
Qed.

Lemma cells_truncated file : cells (truncated file) = cells file.
Proof.
  unfold cells. simpl. apply list_bind_ext_in.
  intros i Hi%elem_of_range. f_equal.
  unfold line_at. simpl. rewrite lookup_take. by rewrite decide_True by lia.
Qed.

Lemma cage_count_truncated file : cage_count (truncated file) = cage_count file.
Proof. unfold cage_count. by rewrite cells_truncated. Qed.

Lemma read_goals_truncated file d :
  base.size d = cage_count file →
  read_goals (truncated file) d = read_goals file d.
Proof.
  intros Hsize. unfold read_goals. apply for_each_ext.
  intros idx d' Hidx%elem_of_range. unfold read_goal_line. simpl.
  unfold goal_lines_read. rewrite lookup_take. by rewrite decide_True by lia.
Qed.

(** [__init__] reads the first [N] board lines and one goal line for each
    cage identifier of the board, and nothing else: it gives the same result
    for a file and for the file cut down to these lines. *)
Theorem init_reads_prefix file : init (truncated file) = init file.
Proof.
  rewrite !init_stages.
  assert (read_board (truncated file) = read_board file) as ->.
  { rewrite !read_board_cells. by rewrite cells_truncated. }
  destruct (read_board file) as [st|] eqn:Hboard; [|done].
  rewrite !bind_Ok.
  apply read_board_inv in Hboard as [_ ->]. simpl.
  by rewrite read_goals_truncated by apply size_board_dict.
Qed.

(** * The predicate on a filled grid *)

Lemma goal_relation_sym fn x y goal :
  goal_relation fn x y goal ↔ goal_relation fn y x goal.
Proof.
  destruct fn; simpl; [lia |]. by rewrite (Z.max_comm x y), (Z.min_comm x y).
Qed.

Lemma members_total file self inferences X cage :
  init file = Ok self → total self inferences →
  get_cage self X = Ok cage →
  ∀ V, V ∈ Cage.vars cage → is_Some (inferences !! V).
Proof.
  intros Hinit Htot Hc V HV. apply Htot.
  pose proof (get_cage_id _ _ _ (init_well_formed _ _ Hinit) Hc) as Hd.
  destruct (init_cages_partition _ _ _ _ Hinit Hd) as (_ & _ & Hmem).
  by apply Hmem in HV as [? _].
Qed.

Lemma satisfied_sum_product cage inferences fn :
  (Cage.opr cage = "+" ∧ fn = add) ∨ (Cage.opr cage = "*" ∧ fn = mul) →
  satisfied cage inferences ↔
  combine fn (assigned_values inferences (Cage.vars cage)) = Cage.goal cage.
Proof.
  unfold satisfied. intros [[-> ->] | [-> ->]]; simpl; done.
Qed.

Lemma satisfied_difference_quotient cage inferences fn :
  (Cage.opr cage = "-" ∧ fn = add) ∨ (Cage.opr cage = "/" ∧ fn = mul) →
  satisfied cage inferences ↔
  ∃ x y, assigned_values inferences (Cage.vars cage) = [x; y] ∧
         goal_relation fn x y (Cage.goal cage).
Proof.
  unfold satisfied. intros [[-> ->] | [-> ->]]; simpl; done.
Qed.

Lemma satisfied_fixed cage inferences :
  Cage.opr cage = "=" →
  satisfied cage inferences ↔
  assigned_values inferences (Cage.vars cage) = [Cage.goal cage].
Proof. unfold satisfied. intros ->. simpl. done. Qed.

Lemma pair_satisfied cage inferences fn X Y x y :
  (Cage.opr cage = "-" ∧ fn = add) ∨ (Cage.opr cage = "/" ∧ fn = mul) →
  Cage.vars cage = [X; Y] ∨ Cage.vars cage = [Y; X] →
  inferences !! X = Some x → inferences !! Y = Some y →
  satisfied cage inferences ↔ goal_relation fn x y (Cage.goal cage).
Proof.
  intros Hop Hvars HX HY. rewrite (satisfied_difference_quotient _ _ fn Hop).
  destruct Hvars as [-> | ->]; unfold assigned_values; simpl; rewrite HX, HY;
    simpl; split.
  - by intros (x' & y' & [= <- <-] & Hrel).
  - eauto.
  - intros (x' & y' & [= <- <-] & Hrel). by apply goal_relation_sym.
  - intros Hrel. exists y, x. split; [done | by apply goal_relation_sym].
Qed.

(** The per-variable check on a filled grid. *)
Lemma check_iff_satisfied file self csp inferences X x cage :
  init file = Ok self → known_operators self → total self inferences →
  on_board self X → get_cage self X = Ok cage →
  inferences !! X = Some x →
  check_cage_constraint self csp inferences X x = Ok true ↔
  satisfied cage inferences.
Proof.
  intros Hinit Hops Htot Hon Hc HX.
  pose proof (init_well_formed _ _ Hinit) as Hwf.
  pose proof (get_cage_id _ _ _ Hwf Hc) as Hd.
  pose proof (members_total _ _ _ _ _ Hinit Htot Hc) as Hall.
  destruct (Hops _ _ Hd) as [Ho | [Ho | [Ho | [Ho | Ho]]]].
  - rewrite (satisfied_sum_product _ _ add) by auto.
    destruct (check_add_or_mul_cage_cases self inferences add X x None None
                cage Hc) as (r & Hr & Hfull & _).
    unfold check_cage_constraint. rewrite Hc, bind_Ok, Ho. simpl.
    rewrite Hr, <- (Hfull Hall). split; [by intros [= ->] | by intros ->].
  - destruct (partner_exists self X cage Hwf Hon Hc) as [Y HY]; [auto |].
    destruct (Hall Y) as [y Hy].
    { destruct HY as [-> | ->]; [right; left | left]. }
    rewrite (pair_satisfied cage inferences add X Y x y) by auto.
    destruct (check_cage_constraint_assigned self csp inferences X x Y y cage add Hc)
      as (r & Hr & Hrel); [auto | done | done |].
    rewrite Hr, <- Hrel. split; [by intros [= ->] | by intros ->].
  - rewrite (satisfied_sum_product _ _ mul) by auto.
    destruct (check_add_or_mul_cage_cases self inferences mul X x None None
                cage Hc) as (r & Hr & Hfull & _).
    unfold check_cage_constraint. rewrite Hc, bind_Ok, Ho. simpl.
    rewrite Hr, <- (Hfull Hall). split; [by intros [= ->] | by intros ->].
  - destruct (partner_exists self X cage Hwf Hon Hc) as [Y HY]; [auto |].
    destruct (Hall Y) as [y Hy].
    { destruct HY as [-> | ->]; [right; left | left]. }
    rewrite (pair_satisfied cage inferences mul X Y x y) by auto.
    destruct (check_cage_constraint_assigned self csp inferences X x Y y cage mul Hc)
      as (r & Hr & Hrel); [auto | done | done |].
    rewrite Hr, <- Hrel. split; [by intros [= ->] | by intros ->].
  - rewrite satisfied_fixed by done.
    pose proof (wf_arity_one _ Hwf _ _ Hd Ho) as Hlen.
    pose proof (wf_members _ Hwf _ _ Hon Hc) as Hin.
    destruct (Cage.vars cage) as [|V [|V' vars]] eqn:Hvars; try done.
    apply list_elem_of_singleton in Hin as <-.
    unfold check_cage_constraint. rewrite Hc, bind_Ok, Ho. simpl.
    unfold assigned_values. simpl. rewrite HX. simpl.
    split.
    + intros [= Heq%Z.eqb_eq]. by rewrite Heq.
    + intros [= ->]. by rewrite Z.eqb_refl.
Qed.

Lemma two_of_two {A} (x y : A) (l : list A) :
  length l = 2%nat → x ≠ y → x ∈ l → y ∈ l → l = [x; y] ∨ l = [y; x].
Proof.
  intros Hlen Hne Hx Hy. destruct (length_two _ Hlen) as (u & v & ->).
  apply elem_of_cons in Hx as [->|Hx%list_elem_of_singleton];
    apply elem_of_cons in Hy as [->|Hy%list_elem_of_singleton];
    subst; try done; auto.
Qed.

(** The predicate on two variables of a filled grid. *)
Lemma constraints_other_cages self csp A a B b nA nB cage_A cage_B :
  A ≠ B →
  neighbors self !! A = Some nA → neighbors self !! B = Some nB →
  ¬ ((B ∈ nA ∨ A ∈ nB) ∧ a = b) →
  get_cage self A = Ok cage_A → get_cage self B = Ok cage_B →
  Cage.id cage_A ≠ Cage.id cage_B →
  constraints self csp A a B b = Ok true ↔
  check_cage_constraint self csp (infer_assignment csp) A a = Ok true ∧
  check_cage_constraint self csp (infer_assignment csp) B b = Ok true.
Proof.
  intros Hne HA HB Hno HcA HcB Hid.
  rewrite (constraints_cages _ _ _ _ _ _ _ _ _ _ Hne HA HB Hno HcA HcB).
  simpl. unfold Cage.eq.
  destruct (String.eqb_spec (Cage.id cage_A) (Cage.id cage_B)); [done |].
  destruct (check_cage_constraint self csp _ A a) as [[|]|]; simpl;
    [tauto | |]; split; (done || by intros [? _]).
Qed.

Lemma constraints_iff_satisfied file self csp A a B b cage_A cage_B :
  init file = Ok self → known_operators self → 0 < N self →
  total self (infer_assignment csp) →
  A ≠ B → on_board self A → on_board self B →
  get_cage self A = Ok cage_A → get_cage self B = Ok cage_B →
  infer_assignment csp !! A = Some a → infer_assignment csp !! B = Some b →
  constraints self csp A a B b = Ok true ↔
  ¬ ((A / N self = B / N self ∨ A mod N self = B mod N self) ∧ a = b) ∧
  satisfied cage_A (infer_assignment csp) ∧
  satisfied cage_B (infer_assignment csp).
Proof.
  intros Hinit Hops Hpos Htot Hne HonA HonB HcA HcB Ha Hb.
  pose proof (init_well_formed _ _ Hinit) as Hwf.
  pose proof (init_neighbors _ _ A Hinit) as HnA.
  pose proof (init_neighbors _ _ B Hinit) as HnB.
  rewrite decide_True in HnA by done. rewrite decide_True in HnB by done.
  assert (B ∈ neighbors_of (N self) A ↔
          A / N self = B / N self ∨ A mod N self = B mod N self) as HBA.
  { rewrite elem_of_neighbors_of, row_col_mate_spec by done.
    split; [intros (_ & _ & [?|?]); auto | intros [?|?]; auto]. }
  assert (A ∈ neighbors_of (N self) B ↔
          A / N self = B / N self ∨ A mod N self = B mod N self) as HAB.
  { rewrite elem_of_neighbors_of, row_col_mate_spec by done.
    split; [intros (_ & _ & [?|?]); auto | intros [?|?]; auto]. }
  destruct (decide ((B ∈ neighbors_of (N self) A ∨
                     A ∈ neighbors_of (N self) B) ∧ a = b)) as [[Hin Heq]|Hno].
  { rewrite (constraints_conflict _ _ _ _ _ _ _ _ Hne HnA HnB Hin Heq).
    split; [done |]. intros [Hcontra _]. destruct Hcontra. tauto. }
  assert (¬ ((A / N self = B / N self ∨ A mod N self = B mod N self) ∧ a = b))
    as Hno' by tauto.
  destruct (decide (Cage.id cage_A = Cage.id cage_B)) as [Hid|Hid].
  - pose proof (get_cage_same_id _ _ _ _ _ Hwf HcA HcB Hid) as <-.
    pose proof (get_cage_id _ _ _ Hwf HcA) as Hd.
    pose proof (members_total _ _ _ _ _ Hinit Htot HcA) as Hall.
    rewrite (constraints_cages _ _ _ _ _ _ _ _ _ _ Hne HnA HnB Hno HcA HcB).
    simpl. unfold Cage.eq. rewrite String.eqb_refl.
    assert (Cage.opr cage_A ≠ "=") as Hnot
      by (by eapply (same_cage_not_fixed self A B)).
    destruct (Hops _ _ Hd) as [Ho | [Ho | [Ho | [Ho | Ho]]]]; [| | | |done].
    + rewrite Ho. simpl. rewrite (satisfied_sum_product _ _ add) by auto.
      destruct (check_add_or_mul_cage_cases self (infer_assignment csp)
                  add A a (Some B) (Some b) cage_A HcA) as (r & Hr & Hfull & _).
      rewrite Hr, <- (Hfull Hall).
      split; [intros [= ->]; tauto | intros (_ & -> & _); done].
    + rewrite Ho. simpl.
      rewrite (pair_satisfied cage_A _ add A B a b); [| auto | | done | done].
      * split; [intros [= ?%Z.eqb_eq]; tauto | intros (_ & ? & _)].
        f_equal. by apply Z.eqb_eq.
      * apply two_of_two; [eapply wf_arity_two; eauto | done | |];
          by eapply wf_members.
    + rewrite Ho. simpl. rewrite (satisfied_sum_product _ _ mul) by auto.
      destruct (check_add_or_mul_cage_cases self (infer_assignment csp)
                  mul A a (Some B) (Some b) cage_A HcA) as (r & Hr & Hfull & _).
      rewrite Hr, <- (Hfull Hall).
      split; [intros [= ->]; tauto | intros (_ & -> & _); done].
    + rewrite Ho. simpl.
      rewrite (pair_satisfied cage_A _ mul A B a b); [| auto | | done | done].
      * split; [intros [= ?%Z.eqb_eq]; tauto | intros (_ & ? & _)].
        f_equal. by apply Z.eqb_eq.
      * apply two_of_two; [eapply wf_arity_two; eauto | done | |];
          by eapply wf_members.
  - rewrite (constraints_other_cages self csp A a B b _ _ cage_A cage_B
               Hne HnA HnB Hno HcA HcB Hid).
    rewrite (check_iff_satisfied file self csp _ A a cage_A) by done.
    rewrite (check_iff_satisfied file self csp _ B b cage_B) by done.
    tauto.
Qed.

(** On a grid that gives every variable a value, the predicate accepts every
    pair of distinct variables with their values exactly when the grid is a
    solution: no value twice in a row or a column, and every cage satisfied.
    This is for a puzzle that [__init__] has built from full board lines, of
    size at least 2, with known operators. *)
Theorem predicate_characterises_solutions file self csp :
  init file = Ok self → complete self → known_operators self →
  2 ≤ N self →
  total self (infer_assignment csp) →
  solution self (infer_assignment csp) ↔
  ∀ A B a b,
    A ≠ B → on_board self A → on_board self B →
    infer_assignment csp !! A = Some a →
    infer_assignment csp !! B = Some b →
    constraints self csp A a B b = Ok true.
Proof.
  intros Hinit Hcomplete Hops Hsize Htot.
  pose proof (init_well_formed _ _ Hinit) as Hwf.
  assert (0 < N self) as Hpos by lia.
  split.
  - intros (_ & Hlatin & Hcages) A B a b Hne HonA HonB Ha Hb.
    destruct (Hcomplete A HonA) as [cage_A HcA].
    destruct (Hcomplete B HonB) as [cage_B HcB].
    apply (constraints_iff_satisfied file self csp A a B b cage_A cage_B);
      try done.
    split; [intros [Hsame Heq]; by eapply (Hlatin A B a b) |].
    split; eapply Hcages, get_cage_id; done.
  - intros Hall. split; [done |]. split.
    + intros A B a b HonA HonB Hne Hsame Ha Hb Heq.
      destruct (Hcomplete A HonA) as [cage_A HcA].
      destruct (Hcomplete B HonB) as [cage_B HcB].
      pose proof (Hall A B a b Hne HonA HonB Ha Hb) as Htrue.
      apply (constraints_iff_satisfied file self csp A a B b cage_A cage_B)
        in Htrue as [Hno _]; try done.
      tauto.
    + intros cage_id cage Hd.
      destruct (init_cages_partition _ _ _ _ Hinit Hd) as (Hne & _ & Hmem).
      destruct (Cage.vars cage) as [|A vars] eqn:Hvars; [done |].
      destruct (proj1 (Hmem A)) as [HonA HcA]; [left |].
      set (B := if decide (A = 0) then 1 else 0).
      assert (A ≠ B) as HAB by (unfold B; case_decide; lia).
      assert (on_board self B) as HonB
        by (unfold on_board, B; case_decide; nia).
      destruct (Htot A HonA) as [a Ha], (Htot B HonB) as [b Hb].
      destruct (Hcomplete B HonB) as [cage_B HcB].
      pose proof (Hall A B a b HAB HonA HonB Ha Hb) as Htrue.
      apply (constraints_iff_satisfied file self csp A a B b cage cage_B)
        in Htrue as (_ & Hsat & _); done.
Qed.

Lemma predicate_characterises_solutions_witness :
  solution (built solved_puzzle) (infer_assignment solved_csp).
Proof.
  assert (∀ X, on_board (built solved_puzzle) X →
               X = 0 ∨ X = 1 ∨ X = 2 ∨ X = 3) as Hcases.
  { intros X HX. unfold on_board in HX. vm_compute (N _) in HX. lia. }
  apply (predicate_characterises_solutions solved_puzzle
           (built solved_puzzle) solved_csp).
  - vm_compute. reflexivity.
  - apply (init_complete solved_puzzle); [by vm_compute | done |].
    intros i Hi. simpl in Hi.
    assert (i = 0 ∨ i = 1) as [-> | ->] by lia; reflexivity.
  - apply (bool_decide_unpack
             (map_Forall (λ _ cage, known_operator (Cage.opr cage))
                (cage_dict (built solved_puzzle)))).
    vm_compute. exact I.
  - vm_compute. discriminate.
  - intros X HX.
    destruct (Hcases X HX) as [-> | [-> | [-> | ->]]]; by eexists.
  - intros A B a b Hne HA HB Ha Hb.
    destruct (Hcases A HA) as [-> | [-> | [-> | ->]]];
      destruct (Hcases B HB) as [-> | [-> | [-> | ->]]];
      try done;
      vm_compute in Ha; vm_compute in Hb;
      injection Ha as <-; injection Hb as <-;
      vm_compute; reflexivity.
Defined.

(** * Edges *)

(** ** Variables beyond the board *)

Lemma py_index_wrap {A} (l : list A) i :
  - Z.of_nat (length l) ≤ i < 0 →
  py_index l i = py_index l (i + Z.of_nat (length l)).
Proof.
  intros Hi. unfold py_index.
  destruct (Z.ltb_spec i 0); [|lia].
  destruct (Z.ltb_spec (i + Z.of_nat (length l)) 0); [lia | done].
Qed.

Lemma py_index_beyond {A} (l : list A) i :
  Z.of_nat (length l) ≤ i ∨ i < - Z.of_nat (length l) →
  py_index l i = Raise IndexError.
Proof.
  intros Hi. unfold py_index.
  destruct (Z.ltb_spec i 0).
  - destruct (Z.leb_spec 0 (i + Z.of_nat (length l))); [lia | done].
  - destruct (Z.ltb_spec i (Z.of_nat (length l))); [lia |].
    by rewrite andb_false_r.
Qed.

(** [get_cage] indexes the board as Python indexes a list.  In a puzzle that
    [__init__] has built on a board of positive size, a negative variable
    down to [- N*N] is looked up from the end of the board, as the variable
    [N*N] places further on; any variable beyond these ends with an index
    error. *)
Theorem get_cage_bounds file self X :
  init file = Ok self → 0 < N self →
  (- (N self * N self) ≤ X < 0 →
   get_cage self X = get_cage self (X + N self * N self)) ∧
  (N self * N self ≤ X ∨ X < - (N self * N self) →
   get_cage self X = Raise IndexError).
Proof.
  intros Hinit Hpos. destruct (square_board _ _ Hinit) as [Hlen _].
  assert (Z.of_nat (length (cage_board self)) = N self) as Hlen' by lia.
  unfold get_cage. rewrite !variable_to_xy_ok, !bind_Ok by lia. simpl.
  split.
  - intros HX.
    rewrite Z.div_add, Z.mod_add by lia.
    rewrite (py_index_wrap (cage_board self) (X / N self)); [by rewrite Hlen' |].
    rewrite Hlen'. split.
    + apply Z.div_le_lower_bound; lia.
    + apply Z.div_lt_upper_bound; lia.
  - intros HX. rewrite py_index_beyond; [done |]. rewrite Hlen'.
    destruct HX as [HX | HX].
    + left. apply Z.div_le_lower_bound; lia.
    + right. apply Z.div_lt_upper_bound; lia.
Qed.

Lemma get_cage_bounds_witness :
  get_cage (built example_puzzle) (-1) =
    get_cage (built example_puzzle)
      (-1 + N (built example_puzzle) * N (built example_puzzle)) ∧
  get_cage (built example_puzzle) 9 = Raise IndexError.
Proof.
  destruct (get_cage_bounds example_puzzle (built example_puzzle) (-1))
    as [Hwrap _]; [by vm_compute | by vm_compute |].
  destruct (get_cage_bounds example_puzzle (built example_puzzle) 9)
    as [_ Hout]; [by vm_compute | by vm_compute |].
  split.
  - apply Hwrap. vm_compute (N _). lia.
  - apply Hout. left. vm_compute (N _). lia.
Defined.

(** ** A board without cells *)

Lemma cells_nonpositive file : size file ≤ 0 → cells file = [].
Proof.
  intros Hsize. unfold cells, range.
  by replace (Z.to_nat (size file)) with 0%nat by lia.
Qed.

(** A size that is not positive is accepted whatever the other lines are:
    the puzzle has an empty board and no cage, and every domain and every
    list of neighbours in it is empty. *)
Theorem init_nonpositive_size file :
  size file ≤ 0 →
  ∃ self, init file = Ok self ∧
          cage_board self = [] ∧ cage_dict self = ∅ ∧
          (∀ v dom, domains self !! v = Some dom → dom = []) ∧
          (∀ v nv, neighbors self !! v = Some nv → nv = []).
Proof.
  intros Hsize.
  pose proof (cells_nonpositive file Hsize) as Hcells.
  assert (accepted file) as Hacc.
  { split; [intros i Hi; lia |].
    assert (cage_count file = 0%nat) as Hcount
      by (unfold cage_count; by rewrite Hcells).
    split; [lia |]. unfold goal_lines_read. rewrite Hcount, take_0.
    by intros ??? ?%elem_of_nil. }
  apply init_ok_iff in Hacc as [self Hinit]. exists self. split; [done |].
  destruct (init_inv_board _ _ Hinit) as (_ & HN & Hcb & _).
  split; [|split; [|split]].
  - rewrite Hcb, Hcells. simpl. unfold range.
    by replace (Z.to_nat (size file)) with 0%nat by lia.
  - apply map_eq. intros cage_id.
    rewrite (init_cage_dict file _ _ Hinit), lookup_empty.
    unfold member_cells. by rewrite Hcells.
  - intros v dom Hdom.
    destruct (init_variables_domains _ _ Hinit) as (_ & _ & _ & Hdoms).
    destruct (Hdoms v dom Hdom) as (_ & Hlen & _).
    apply nil_length_inv. lia.
  - intros v nv Hnv. rewrite (init_neighbors _ _ _ Hinit) in Hnv.
    case_decide; [|done]. injection Hnv as <-.
    unfold neighbors_of, range.
    by replace (Z.to_nat (N self)) with 0%nat by lia.
Qed.

Lemma init_nonpositive_size_witness :
  ∃ self, init (Build_puzzle (-2) ["AB"] [("A", "-", 1)]) = Ok self ∧
          cage_board self = [] ∧ cage_dict self = ∅ ∧
          (∀ v dom, domains self !! v = Some dom → dom = []) ∧
          (∀ v nv, neighbors self !! v = Some nv → nv = []).
Proof.
  apply (init_nonpositive_size (Build_puzzle (-2) ["AB"] [("A", "-", 1)])).
  simpl. lia.
Defined.

(** ** The first fault of a file *)

Lemma range_split (n idx : nat) :
  (idx < n)%nat →
  range (Z.of_nat n) =
  range (Z.of_nat idx) ++ Z.of_nat idx ::
    (Z.of_nat <$> seq (S idx) (n - S idx)).
Proof.
  intros Hidx. unfold range. rewrite !Nat2Z.id.
  replace n with (idx + S (n - S idx))%nat at 1 by lia.
  rewrite seq_app, fmap_app. simpl. done.
Qed.

Lemma goal_line_fine_ok file k :
  goal_line_fine file k →
  line_ok (board_dict file) (goal_lines file) (Z.of_nat k).
Proof.
  intros (cage_id & opr & goal & Hline & Hne & Harity).
  eexists cage_id, opr, goal, _. rewrite Nat2Z.id.
  split; [done |]. split; [by apply board_dict_Some | done].
Qed.

(** The exception with which [__init__] ends is that of the first fault it
    meets.  A board line longer than the board is wide gives an index error
    before any goal line is read.  Otherwise, at the first goal line read
    that is not in order: an index error when the line is missing, a key
    error when it names no cage of the board, the assertion of line 72 when
    it gives '-' or '/' to a cage that does not have two cells, and the
    assertion of line 75 when it gives '=' to a cage that does not have one
    cell. *)
Theorem init_first_fault file :
  (¬ lines_fit file → init file = Raise IndexError) ∧
  (∀ idx,
     lines_fit file → (idx < cage_count file)%nat →
     (∀ k, (k < idx)%nat → goal_line_fine file k) →
     match goal_lines file !! idx with
     | None => init file = Raise IndexError
     | Some (cage_id, opr, goal) =>
         (member_cells file cage_id = [] → init file = Raise KeyError) ∧
         (member_cells file cage_id ≠ [] →
          opr = "-" ∨ opr = "/" →
          length (member_cells file cage_id) ≠ 2%nat →
          init file = Raise (AssertionError arity_two)) ∧
         (member_cells file cage_id ≠ [] →
          opr = "=" →
          length (member_cells file cage_id) ≠ 1%nat →
          init file = Raise (AssertionError arity_one))
     end).
Proof.
  split.
  { intros Hfit. by rewrite init_stages, read_board_long_line. }
  intros idx Hfit Hidx Hfine.
  assert (∃ d, same_cages (board_dict file) d ∧
               ∀ e, read_goal_line (goal_lines file) (Z.of_nat idx) d = Raise e →
                    init file = Raise e) as (d & Hsame & Hinit).
  { destruct (read_goals_loop (goal_lines file) (range (Z.of_nat idx))
                (board_dict file) (board_dict file))
      as (d & Hd & Hsame & _);
      [apply same_cages_refl | apply arity_inv_board_dict | |].
    { intros k Hk%elem_of_range.
      rewrite <- (Z2Nat.id k) by lia. apply goal_line_fine_ok, Hfine. lia. }
    exists d. split; [done |]. intros e He.
    rewrite init_stages, read_board_ok, bind_Ok by done. simpl.
    unfold read_goals. rewrite size_board_dict, (range_split _ idx) by done.
    by rewrite for_each_app, Hd, bind_Ok, for_each_cons, He. }
  unfold read_goal_line in Hinit. rewrite Nat2Z.id in Hinit.
  destruct (goal_lines file !! idx) as [[[cage_id opr] goal]|];
    [|by apply Hinit].
  destruct (Hsame cage_id) as [Hnone Hsome].
  unfold py_getitem in Hinit.
  split; [|split].
  - intros Hnil. apply Hinit.
    rewrite (proj2 Hnone); [done |].
    rewrite board_dict_lookup. by rewrite decide_True.
  - intros Hne Hop Hlen.
    destruct (same_cages_vars _ _ cage_id _ Hsame
                (proj2 (board_dict_Some file cage_id _) (conj Hne eq_refl)))
      as (cage & Hcage & Hvars).
    simpl in Hvars. apply Hinit. rewrite Hcage, bind_Ok. simpl.
    rewrite Hvars.
    assert (String.eqb opr "-" || String.eqb opr "/" = true) as ->.
    { destruct Hop as [-> | ->]; done. }
    destruct (Z.eqb_spec (Z.of_nat (length (member_cells file cage_id))) 2);
      [lia | done].
  - intros Hne -> Hlen.
    destruct (same_cages_vars _ _ cage_id _ Hsame
                (proj2 (board_dict_Some file cage_id _) (conj Hne eq_refl)))
      as (cage & Hcage & Hvars).
    simpl in Hvars. apply Hinit. rewrite Hcage, bind_Ok. simpl.
    rewrite Hvars.
    destruct (Z.eqb_spec (Z.of_nat (length (member_cells file cage_id))) 1);
      [lia | done].
Qed.

Lemma init_first_fault_witness :
  init (Build_puzzle 2 ["AAA"; "AB"] []) = Raise IndexError ∧
  init difference_puzzle = Raise (AssertionError arity_two).
Proof.
  split.
  - apply (proj1 (init_first_fault (Build_puzzle 2 ["AAA"; "AB"] []))).
    intros Hfit. specialize (Hfit 0). simpl in Hfit.
    assert (0 ≤ 0 < 2) as H0 by lia. specialize (Hfit H0).
    vm_compute in Hfit. by apply Hfit.
  - pose proof (proj2 (init_first_fault difference_puzzle) 0%nat) as Hfault.
    simpl in Hfault. apply Hfault.
    + intros i Hi. simpl in Hi.
      assert (i = 0 ∨ i = 1) as [-> | ->] by lia; vm_compute; discriminate.
    + vm_compute. lia.
    + intros k Hk. lia.
    + vm_compute. discriminate.
    + by left.
    + vm_compute. lia.
Defined.

(** ** The two orders of a call *)

(** Past rule 1 the predicate looks up the cage of [A], then that of [B],
    and ends with the first exception that a lookup raises. *)
Lemma constraints_lookup_raise self csp A a B b nA nB :
  A ≠ B →
  neighbors self !! A = Some nA → neighbors self !! B = Some nB →
  ¬ ((B ∈ nA ∨ A ∈ nB) ∧ a = b) →
  (∀ e, get_cage self A = Raise e →
        constraints self csp A a B b = Raise e) ∧
  (∀ cage_A e, get_cage self A = Ok cage_A → get_cage self B = Raise e →
               constraints self csp A a B b = Raise e).
Proof.
  intros Hne HA HB Hno.
  unfold constraints.
  destruct (Z.eqb_spec A B) as [|_]; [done |].
  rewrite (py_getitem_lookup _ _ _ HA). simpl.
  destruct (py_in B nA && (a =? b)) eqn:H1.
  { apply andb_true_iff in H1 as [H1 H2].
    apply py_in_spec in H1. apply Z.eqb_eq in H2. tauto. }
  rewrite (py_getitem_lookup _ _ _ HB). simpl.
  destruct (py_in A nB && (a =? b)) eqn:H2.
  { apply andb_true_iff in H2 as [H2 H3].
    apply py_in_spec in H2. apply Z.eqb_eq in H3. tauto. }
  split.
  - intros e ->. reflexivity.
  - intros cage_A e -> ->. reflexivity.
Qed.

(** In a puzzle that [__init__] has built, the lookups of the cages of two
    variables of the board that fail, fail alike: with a key error on a board
    of positive size, where a short board line has left the cell without a
    cage, and with an index error on the empty board of a negative size. *)
Lemma get_cage_raise_alike file self X Y e e' :
  init file = Ok self → on_board self X → on_board self Y →
  get_cage self X = Raise e → get_cage self Y = Raise e' → e = e'.
Proof.
  intros Hinit HX HY.
  destruct (init_inv_board _ _ Hinit) as (_ & HN & Hcb & _).
  assert (0 < N self ∨ N self < 0) as [Hpos | Hneg]
    by (unfold on_board in HX; nia).
  - rewrite (init_get_cage file), (init_get_cage file self Y) by done.
    destruct (char_at _ _ _); [done |]. destruct (char_at _ _ _); [done |].
    congruence.
  - assert (cage_board self = []) as Hempty.
    { rewrite Hcb, cells_nonpositive by lia. simpl. unfold range.
      by replace (Z.to_nat (size file)) with 0%nat by lia. }
    unfold get_cage, variable_to_xy. rewrite Hempty.
    destruct (Z.eqb_spec (N self) 0) as [|_]; [lia |]. simpl.
    rewrite !py_index_nil. simpl. congruence.
Qed.

(** C4, amended.  In a puzzle that [__init__] has built and whose cages
    carry one of the five operators, the two orders of a call end in the
    same way, for all variables and values and every assignment: with the
    same boolean, or with the same exception (for one and the same variable,
    for a variable off the board, and for a cell that a short board line has
    left without a cage).  Where every variable of the board has a cage, the
    two orders of a call for two distinct variables of the board return, and
    return the same boolean. *)
Theorem constraints_commutative file self csp A a B b :
  init file = Ok self → known_operators self →
  constraints self csp A a B b = constraints self csp B b A a ∧
  (complete self → A ≠ B → on_board self A → on_board self B →
   ∃ r, constraints self csp A a B b = Ok r ∧
        constraints self csp B b A a = Ok r).
Proof.
  intros Hinit Hops.
  pose proof (init_well_formed _ _ Hinit) as Hwf.
  split.
  2: { intros Hcomplete Hne HonA HonB.
       destruct (Hcomplete A HonA) as [cage_A HcA].
       destruct (Hcomplete B HonB) as [cage_B HcB].
       by apply (constraints_swap_returns self csp A a B b cage_A cage_B). }
  destruct (decide (A = B)) as [->|Hne].
  { unfold constraints. by rewrite Z.eqb_refl. }
  assert (B ≠ A) as Hne' by congruence.
  destruct (decide (on_board self A ∧ on_board self B)) as [[HonA HonB]|Hoff].
  2: { rewrite (constraints_off_board file self csp A a B b) by done.
       rewrite (constraints_off_board file self csp B b A a); [done.. |].
       tauto. }
  destruct (proj2 (wf_keys _ Hwf A) HonA) as [nA HA].
  destruct (proj2 (wf_keys _ Hwf B) HonB) as [nB HB].
  destruct (decide ((B ∈ nA ∨ A ∈ nB) ∧ a = b)) as [[Hin Heq]|Hno].
  { rewrite (constraints_conflict _ _ _ _ _ _ _ _ Hne HA HB Hin Heq).
    symmetry. eapply constraints_conflict; [done | done | done | tauto | done]. }
  assert (¬ ((A ∈ nB ∨ B ∈ nA) ∧ b = a)) as Hno'
    by (intros [? ?]; apply Hno; split; [tauto | congruence]).
  destruct (constraints_lookup_raise self csp A a B b nA nB Hne HA HB Hno)
    as [HfirstA HsecondB].
  destruct (constraints_lookup_raise self csp B b A a nB nA Hne' HB HA Hno')
    as [HfirstB HsecondA].
  destruct (get_cage self A) as [cage_A|eA] eqn:HcA;
    destruct (get_cage self B) as [cage_B|eB] eqn:HcB.
  - destruct (constraints_swap_returns self csp A a B b cage_A cage_B)
      as (r & -> & ->); done.
  - by rewrite (HsecondB cage_A eB), (HfirstB eB).
  - by rewrite (HfirstA eA), (HsecondA cage_B eA).
  - rewrite (HfirstA eA), (HfirstB eB) by done. f_equal.
    by apply (get_cage_raise_alike file self A B).
Qed.

Lemma constraints_commutative_witness :
  constraints (built example_puzzle) (fresh_csp 3) 2 1 3 1 =
    constraints (built example_puzzle) (fresh_csp 3) 3 1 2 1 ∧
  ∃ r, constraints (built example_puzzle) (fresh_csp 3) 2 1 3 1 = Ok r ∧
       constraints (built example_puzzle) (fresh_csp 3) 3 1 2 1 = Ok r.
Proof.
  destruct (constraints_commutative example_puzzle (built example_puzzle)
              (fresh_csp 3) 2 1 3 1 init_example known_operators_example)
    as [Hsame Hreturn].
  split; [exact Hsame |].
  apply Hreturn.
  - apply complete_example.
  - lia.
  - apply on_board_example. lia.
  - apply on_board_example. lia.
Defined.
